(** * zt_selector.py: the limit-up stock selector, embedded and verified

    The program reads a list of quote records (JSON objects decoded into
    Python dicts), filters them in five stages, scores the survivors, sorts
    them by score and keeps the first [top_count].

    The embedding keeps Python's dynamic typing: a field of a record is a
    [pyval], a Python [float] is a binary64 number (Rocq's primitive
    [float], the same IEEE 754 format with round-to-nearest-even), an
    exception is a [Raise] in the [result] monad, and a [try / except
    Exception] block is a match on that result.  A [str] is modelled by its
    UTF-8 bytes; [startswith], [in] and [replace] with ASCII arguments act
    the same on the bytes as on the code points. *)

From Stdlib Require Import ZArith Floats String Ascii List Bool Lia.
From Stdlib Require Import QArith.
From Stdlib Require Import Sorting.Sorted Sorting.Permutation.
From stdpp Require Import base option list gmap strings pretty.

Set Warnings "-inexact-float,-register-all".
Local Open Scope string_scope.
Local Open Scope Z_scope.

(** ** Exceptions and results *)

Inductive exn : Set :=
| TypeError | ValueError | AttributeError | OverflowError | KeyError.

Inductive result (A : Type) : Type :=
| Ok (a : A)
| Raise (e : exn).
Arguments Ok {A} a.
Arguments Raise {A} e.

#[global] Instance result_ret : MRet result := fun A a => Ok a.
#[global] Instance result_bind : MBind result := fun A B f r =>
  match r with
  | Ok a => f a
  | Raise e => Raise e
  end.

Definition is_ok {A} (r : result A) : bool :=
  match r with Ok _ => true | Raise _ => false end.

(** ** Python values (what [json.loads] can produce) *)

Inductive pyval : Type :=
| VNone
| VBool (b : bool)
| VInt (z : Z)
| VFloat (f : float)
| VStr (s : string)
| VList (l : list pyval)
| VDict (d : list (string * pyval)).

(** A quote record, and a configuration group: a dict with string keys. *)
Abbreviation stock := (gmap string pyval).

(** [d.get(key, default)] *)
Definition dict_get (d : gmap string pyval) (key : string) (default : pyval) : pyval :=
  match d !! key with
  | Some v => v
  | None => default
  end.

(** [d[key]] *)
Definition dict_item (d : gmap string pyval) (key : string) : result pyval :=
  match d !! key with
  | Some v => Ok v
  | None => Raise KeyError
  end.

(** [bool(v)] *)
Definition py_bool (v : pyval) : bool :=
  match v with
  | VNone => false
  | VBool b => b
  | VInt z => negb (z =? 0)
  | VFloat f => negb (PrimFloat.eqb f 0)
  | VStr s => negb (String.eqb s "")
  | VList l => match l with [] => false | _ => true end
  | VDict d => match d with [] => false | _ => true end
  end.

(** ** Strings *)

(** [s.startswith(p)] on two strings. *)
Definition startswith (s p : string) : bool := String.prefix p s.

(** [pat in s] on two strings. *)
Fixpoint str_contains (pat s : string) : bool :=
  startswith s pat
  || match s with
     | EmptyString => false
     | String _ s' => str_contains pat s'
     end.

(** [s.replace(c, '')] for a one-character [c]. *)
Fixpoint str_remove (c : ascii) (s : string) : string :=
  match s with
  | EmptyString => EmptyString
  | String a s' => if Ascii.eqb a c then str_remove c s' else String a (str_remove c s')
  end.

(** [sep.join(parts)] *)
Fixpoint str_join (sep : string) (parts : list string) : string :=
  match parts with
  | [] => ""
  | [p] => p
  | p :: rest => p +:+ sep +:+ str_join sep rest
  end.

(** ** Numbers: [int] to [float], [str] to [float], [float] to text *)

(** [float(z)] for an [int]: the nearest binary64 number, ties to even;
    an [int] that rounds beyond the largest finite value raises. *)
Definition float_of_Z (z : Z) : result float :=
  match binary_normalize prec emax z 0 false with
  | S754_infinity _ => Raise OverflowError
  | sf => Ok (SF2Prim sf)
  end.
Arguments float_of_Z : simpl never.

Definition is_space (c : ascii) : bool :=
  let n := nat_of_ascii c in
  ((9 <=? n) && (n <=? 13) || (n =? 32))%nat.

Definition digit_of (c : ascii) : option Z :=
  let n := nat_of_ascii c in
  if ((48 <=? n) && (n <=? 57))%nat then Some (Z.of_nat (n - 48)) else None.

Definition lower (c : ascii) : ascii :=
  let n := nat_of_ascii c in
  if ((65 <=? n) && (n <=? 90))%nat then ascii_of_nat (n + 32) else c.

Fixpoint lstrip (s : list ascii) : list ascii :=
  match s with
  | c :: s' => if is_space c then lstrip s' else s
  | [] => []
  end.

Definition strip (s : list ascii) : list ascii :=
  rev (lstrip (rev (lstrip s))).

(** The digits read so far: their value and how many they are. *)
Record digits := { dg_value : Z; dg_count : nat }.

Definition dg_push (d : digits) (x : Z) : digits :=
  {| dg_value := 10 * dg_value d + x; dg_count := S (dg_count d) |}.

(** The tail of a [digitpart]: [(["_"] digit)*], read greedily. *)
Fixpoint digitpart_more (s : list ascii) (acc : digits) : digits * list ascii :=
  match s with
  | c :: s' =>
      match digit_of c with
      | Some x => digitpart_more s' (dg_push acc x)
      | None =>
          if Ascii.eqb c "_" then
            match s' with
            | c2 :: s'' =>
                match digit_of c2 with
                | Some x => digitpart_more s'' (dg_push acc x)
                | None => (acc, s)
                end
            | [] => (acc, s)
            end
          else (acc, s)
      end
  | [] => (acc, [])
  end.

(** [digitpart ::= digit (["_"] digit)*], read onto [acc]; reads nothing
    when the text does not start with a digit. *)
Definition digitpart (s : list ascii) (acc : digits) : digits * list ascii :=
  match s with
  | c :: s' =>
      match digit_of c with
      | Some x => digitpart_more s' (dg_push acc x)
      | None => (acc, s)
      end
  | [] => (acc, [])
  end.

Definition read_sign (s : list ascii) : bool * list ascii :=
  match s with
  | c :: s' =>
      if Ascii.eqb c "-" then (true, s')
      else if Ascii.eqb c "+" then (false, s')
      else (false, s)
  | [] => (false, [])
  end.

(** [exponent ::= ("e" | "E") ["+" | "-"] digitpart], or nothing. *)
Definition read_exponent (s : list ascii) : option Z :=
  match s with
  | [] => Some 0
  | c :: s' =>
      if Ascii.eqb (lower c) "e" then
        let '(neg, s1) := read_sign s' in
        let '(d, s2) := digitpart s1 {| dg_value := 0; dg_count := 0 |} in
        match dg_count d, s2 with
        | S _, [] => Some (if neg then - dg_value d else dg_value d)
        | _, _ => None
        end
      else None
  end.

(** The binary64 number nearest to [(-1)^neg * m * 10^e]. *)
Definition decimal_to_float (neg : bool) (m : Z) (e : Z) : float :=
  match m with
  | Zpos p =>
      if 0 <=? e then
        SF2Prim (binary_normalize prec emax (cond_Zopp neg (m * 10 ^ e)) 0 false)
      else
        SF2Prim (SFdiv prec emax (S754_finite neg p 0)
                                 (S754_finite false (Z.to_pos (10 ^ (- e))) 0))
  | _ => SF2Prim (S754_zero neg)
  end.

(** [floatnumber ::= ([digitpart] "." digitpart | digitpart ["."]) [exponent]] *)
Definition read_number (neg : bool) (s : list ascii) : option float :=
  let '(ip, s1) := digitpart s {| dg_value := 0; dg_count := 0 |} in
  let '(all, s2) :=
    match s1 with
    | c :: s1' => if Ascii.eqb c "." then digitpart s1' ip else (ip, s1)
    | [] => (ip, s1)
    end in
  match dg_count all with
  | O => None
  | S _ =>
      match read_exponent s2 with
      | Some ex =>
          Some (decimal_to_float neg (dg_value all)
                  (ex - Z.of_nat (dg_count all - dg_count ip)))
      | None => None
      end
  end.

(** [float(s)] for a [str]: surrounding white space is dropped, then the
    text is a signed [inf], [infinity], [nan] (in any case) or a decimal
    number; [None] stands for [ValueError].  White space and digits outside
    ASCII, which Python also accepts (a text in fullwidth digits is a float
    for it), are not recognised here: for such a text the function gives
    [None], so the model stands for the code on ASCII texts. *)
Definition float_of_string (s : string) : option float :=
  let '(neg, body) := read_sign (strip (list_ascii_of_string s)) in
  let word := string_of_list_ascii (map lower body) in
  if String.eqb word "inf" || String.eqb word "infinity" then
    Some (if neg then neg_infinity else infinity)
  else if String.eqb word "nan" then Some nan
  else read_number neg body.

(** [round(m * 2^e * 100)] to the nearest integer, ties to even. *)
Definition hundredths (m : positive) (e : Z) : Z :=
  if 0 <=? e then Z.pos m * 2 ^ e * 100
  else
    let den := 2 ^ (- e) in
    let q := (Z.pos m * 100) / den in
    let r := (Z.pos m * 100) mod den in
    match 2 * r ?= den with
    | Lt => q
    | Gt => q + 1
    | Eq => if Z.even q then q else q + 1
    end.

Definition digit_char (d : Z) : ascii := ascii_of_nat (48 + Z.to_nat d).

(** The two decimal digits of [n], for [0 <= n < 100]. *)
Definition two_digits (n : Z) : string :=
  String (digit_char (n / 10)) (String (digit_char (n mod 10)) "").

Definition sign_text (neg : bool) : string := if neg then "-" else "".

(** [f"{x:.2f}"] *)
Definition format_2f (x : float) : string :=
  match Prim2SF x with
  | S754_nan => "nan"
  | S754_infinity s => sign_text s +:+ "inf"
  | S754_zero s => sign_text s +:+ "0.00"
  | S754_finite s m e =>
      let h := hundredths m e in
      sign_text s +:+ pretty (h / 100) +:+ "." +:+ two_digits (h mod 100)
  end.

(** [float(v)] *)
Definition py_float (v : pyval) : result float :=
  match v with
  | VFloat f => Ok f
  | VInt z => float_of_Z z
  | VBool b => Ok (if b then 1 else 0)%float
  | VStr s =>
      match float_of_string s with
      | Some f => Ok f
      | None => Raise ValueError
      end
  | VNone | VList _ | VDict _ => Raise TypeError
  end.

(** A Python number: an [int] ([bool] included) or a [float]. *)
Inductive pynum : Type :=
| NInt (z : Z)
| NFloat (f : float).

Definition as_num (v : pyval) : option pynum :=
  match v with
  | VBool b => Some (NInt (Z.b2z b))
  | VInt z => Some (NInt z)
  | VFloat f => Some (NFloat f)
  | _ => None
  end.

Definition num_val (n : pynum) : pyval :=
  match n with
  | NInt z => VInt z
  | NFloat f => VFloat f
  end.

Definition num_to_float (n : pynum) : result float :=
  match n with
  | NInt z => float_of_Z z
  | NFloat f => Ok f
  end.

(** [a + b] on numbers: exact on two ints, binary64 otherwise. *)
Definition num_add (a b : pynum) : result pynum :=
  match a, b with
  | NInt x, NInt y => Ok (NInt (x + y))
  | _, _ =>
      x ← num_to_float a;
      y ← num_to_float b;
      Ok (NFloat (x + y)%float)
  end.

(** [score += v], for a [score] that is a number. *)
Definition py_iadd (score : pynum) (v : pyval) : result pynum :=
  match as_num v with
  | Some n => num_add score n
  | None => Raise TypeError
  end.

(** [x * w] for a float [x]. *)
Definition float_mul (x : float) (w : pyval) : result float :=
  match as_num w with
  | Some n => y ← num_to_float n; Ok (x * y)%float
  | None => Raise TypeError
  end.

Fixpoint seq_repeat {A} (n : nat) (l : list A) : list A :=
  match n with
  | O => []
  | S n' => l ++ seq_repeat n' l
  end.

(** [k * w] for an int [k]: a product of numbers, or a sequence repeated. *)
Definition int_mul (k : Z) (w : pyval) : result pyval :=
  match w with
  | VBool b => Ok (VInt (k * Z.b2z b))
  | VInt z => Ok (VInt (k * z))
  | VFloat f => x ← float_of_Z k; Ok (VFloat (x * f)%float)
  | VStr s =>
      Ok (VStr (string_of_list_ascii (seq_repeat (Z.to_nat k) (list_ascii_of_string s))))
  | VList l => Ok (VList (seq_repeat (Z.to_nat k) l))
  | VNone | VDict _ => Raise TypeError
  end.

(** The exact value of [z] is below the exact value of [f]. *)
Definition Z_ltb_float (z : Z) (f : float) : bool :=
  match Prim2SF f with
  | S754_nan => false
  | S754_infinity s => negb s
  | S754_zero _ => z <? 0
  | S754_finite s m e =>
      if 0 <=? e then z <? cond_Zopp s (Z.pos m) * 2 ^ e
      else z * 2 ^ (- e) <? cond_Zopp s (Z.pos m)
  end.

Definition float_ltb_Z (f : float) (z : Z) : bool :=
  match Prim2SF f with
  | S754_nan => false
  | S754_infinity s => s
  | S754_zero _ => 0 <? z
  | S754_finite s m e =>
      if 0 <=? e then cond_Zopp s (Z.pos m) * 2 ^ e <? z
      else cond_Zopp s (Z.pos m) <? z * 2 ^ (- e)
  end.

(** [a < b] on numbers; an int and a float are compared by exact value. *)
Definition num_ltb (a b : pynum) : bool :=
  match a, b with
  | NInt x, NInt y => x <? y
  | NFloat x, NFloat y => PrimFloat.ltb x y
  | NInt x, NFloat y => Z_ltb_float x y
  | NFloat x, NInt y => float_ltb_Z x y
  end.

(** [min(a, b)] for a float [a]: [b] when [b < a], else [a]. *)
Definition py_min (a : float) (b : pyval) : result pyval :=
  match as_num b with
  | Some n => Ok (if num_ltb n (NFloat a) then b else VFloat a)
  | None => Raise TypeError
  end.

(** ** Configuration *)

Record config := {
  cfg_filter : gmap string pyval;
  cfg_score : gmap string pyval;
  cfg_output : gmap string pyval
}.

Definition default_prefixes : list pyval := [VStr "0"; VStr "6"].

Definition default_config : config := {|
  cfg_filter :=
    <["max_price" := VInt 40]>
    (<["min_limit_up_percent" := VFloat 9.5]>
    (<["exclude_st" := VBool true]>
    (<["exclude_sci_tech_board" := VBool true]>
    (<["stock_prefix" := VList default_prefixes]> ∅))));
  cfg_score :=
    <["base_score" := VInt 50]>
    (<["volume_ratio_weight" := VInt 5]>
    (<["turnover_rate_weight" := VInt 2]>
    (<["continuous_limit_up_weight" := VInt 10]>
    (<["amount_weight" := VInt 3]>
    (<["amount_max_score" := VInt 15]> ∅)))));
  cfg_output :=
    <["top_count" := VInt 10]>
    (<["output_dir" := VStr "output"]>
    (<["auto_open_excel" := VBool true]> ∅))
|}.

(** [isinstance(v, (int, float))]; a [bool] is an [int] in Python. *)
Definition is_number (v : pyval) : bool :=
  match v with
  | VBool _ | VInt _ | VFloat _ => true
  | _ => false
  end.

Definition is_int (v : pyval) : bool :=
  match v with
  | VBool _ | VInt _ => true
  | _ => false
  end.

Definition is_pybool (v : pyval) : bool :=
  match v with VBool _ => true | _ => false end.

(** [v <= 0], [v < 0] and [0 <= v <= 20] for a [v] that passed
    [isinstance(v, (int, float))].  Python compares a float with the ints
    [0] and [20] by exact value, which for these ints is the binary64
    comparison with [0.0] and [20.0]. *)
Definition num_le0 (v : pyval) : bool :=
  match as_num v with
  | Some (NInt z) => z <=? 0
  | Some (NFloat f) => PrimFloat.leb f 0
  | None => false
  end.

Definition num_lt0 (v : pyval) : bool :=
  match as_num v with
  | Some (NInt z) => z <? 0
  | Some (NFloat f) => PrimFloat.ltb f 0
  | None => false
  end.

Definition num_in_0_20 (v : pyval) : bool :=
  match as_num v with
  | Some (NInt z) => (0 <=? z) && (z <=? 20)
  | Some (NFloat f) => PrimFloat.leb 0 f && PrimFloat.leb f 20
  | None => false
  end.

(** *** [_validate_config]

    The method mutates the configuration in place inside one [try] block:
    when a statement raises, the statements before it have taken effect and
    the rest is skipped.  [try_steps] runs the statements in order on the
    configuration and stops at the first that raises. *)

Fixpoint try_steps {S} (steps : list (S → result S)) (s : S) : S :=
  match steps with
  | [] => s
  | step :: rest =>
      match step s with
      | Ok s' => try_steps rest s'
      | Raise _ => s
      end
  end.

(** [if invalid(d[key]): d[key] = dflt] *)
Definition check_key (key : string) (invalid : pyval → bool) (dflt : pyval)
    (d : gmap string pyval) : result (gmap string pyval) :=
  v ← dict_item d key;
  Ok (if invalid v then <[key := dflt]> d else d).

Definition on_filter (f : gmap string pyval → result (gmap string pyval))
    (c : config) : result config :=
  d ← f (cfg_filter c);
  Ok {| cfg_filter := d; cfg_score := cfg_score c; cfg_output := cfg_output c |}.

Definition on_output (f : gmap string pyval → result (gmap string pyval))
    (c : config) : result config :=
  d ← f (cfg_output c);
  Ok {| cfg_filter := cfg_filter c; cfg_score := cfg_score c; cfg_output := d |}.

Definition is_list (v : pyval) : bool :=
  match v with VList _ => true | _ => false end.

Definition is_empty_list (v : pyval) : bool :=
  match v with VList [] => true | _ => false end.

Definition is_str (v : pyval) : bool :=
  match v with VStr _ => true | _ => false end.

Definition score_keys : list string :=
  ["base_score"; "volume_ratio_weight"; "turnover_rate_weight";
   "continuous_limit_up_weight"; "amount_weight"; "amount_max_score"].

(** One turn of the loop over the score keys:
    [if not isinstance(score_config[key], (int, float)) or score_config[key] < 0:
         score_config[key] = config["score"][key]]
    where [score_config] is [config["score"]] itself. *)
Definition check_score_key (key : string) (c : config) : result config :=
  let score_config := cfg_score c in
  v ← dict_item score_config key;
  if negb (is_number v) || num_lt0 v then
    v' ← dict_item (cfg_score c) key;
    Ok {| cfg_filter := cfg_filter c;
          cfg_score := <[key := v']> score_config;
          cfg_output := cfg_output c |}
  else Ok c.

Definition validate_steps : list (config → result config) :=
  [ on_filter (check_key "max_price"
       (fun v => negb (is_number v) || num_le0 v) (VInt 40));
    on_filter (check_key "min_limit_up_percent"
       (fun v => negb (is_number v) || negb (num_in_0_20 v)) (VFloat 9.5));
    on_filter (check_key "exclude_st" (fun v => negb (is_pybool v)) (VBool true));
    on_filter (check_key "exclude_sci_tech_board"
       (fun v => negb (is_pybool v)) (VBool true));
    on_filter (check_key "stock_prefix"
       (fun v => negb (is_list v) || is_empty_list v) (VList default_prefixes)) ]
  ++ map check_score_key score_keys
  ++ [ on_output (check_key "top_count"
         (fun v => negb (is_int v) || num_le0 v) (VInt 10));
       on_output (check_key "output_dir"
         (fun v => negb (is_str v) || negb (py_bool v)) (VStr "output"));
       on_output (check_key "auto_open_excel"
         (fun v => negb (is_pybool v)) (VBool true)) ].

Definition _validate_config (c : config) : config :=
  try_steps validate_steps c.

(** ** [filter_stocks] *)

Record filter_params := {
  max_price : float;
  min_limit_up_percent : float;
  exclude_st : bool;
  exclude_sci_tech_board : bool;
  stock_prefix : list pyval
}.

Definition default_filter_params : filter_params := {|
  max_price := 40;
  min_limit_up_percent := 9.5;
  exclude_st := true;
  exclude_sci_tech_board := true;
  stock_prefix := default_prefixes
|}.

(** The body of the [try] that reads the filter group. *)
Definition read_filter_params (cfg : gmap string pyval) : result filter_params :=
  mp ← py_float (dict_get cfg "max_price" (VInt 40));
  ml ← py_float (dict_get cfg "min_limit_up_percent" (VFloat 9.5));
  let st := py_bool (dict_get cfg "exclude_st" (VBool true)) in
  let sci := py_bool (dict_get cfg "exclude_sci_tech_board" (VBool true)) in
  let pre :=
    match dict_get cfg "stock_prefix" (VList default_prefixes) with
    | VList [] => default_prefixes
    | VList l => l
    | _ => default_prefixes
    end in
  Ok {| max_price := mp; min_limit_up_percent := ml; exclude_st := st;
        exclude_sci_tech_board := sci; stock_prefix := pre |}.

(** The parameters the five stages run with: those read from the
    configuration, or every default when reading them raised. *)
Definition effective_params (cfg : gmap string pyval) : filter_params :=
  match read_filter_params cfg with
  | Ok p => p
  | Raise _ => default_filter_params
  end.

(** The prefixes the configuration names, or the two default ones when it
    names no list or an empty one. *)
Definition configured_prefixes (cfg : gmap string pyval) : list pyval :=
  match dict_get cfg "stock_prefix" (VList default_prefixes) with
  | VList (x :: l) => x :: l
  | _ => default_prefixes
  end.

(** [code.startswith(prefix)]: the attribute exists on a [str] only, and
    its argument must be a [str]. *)
Definition py_startswith (code prefix : pyval) : result bool :=
  match code with
  | VStr s =>
      match prefix with
      | VStr p => Ok (startswith s p)
      | _ => Raise TypeError
      end
  | _ => Raise AttributeError
  end.

(** [any(code.startswith(prefix) for prefix in prefixes)]: stops at the
    first prefix that matches, raises at the first that cannot be tested. *)
Fixpoint any_startswith (code : pyval) (prefixes : list pyval) : result bool :=
  match prefixes with
  | [] => Ok false
  | p :: rest =>
      b ← py_startswith code p;
      if b : bool then Ok true else any_startswith code rest
  end.

(** [item in container] for a [str] item. *)
Definition py_contains (container : pyval) (item : string) : result bool :=
  match container with
  | VStr s => Ok (str_contains item s)
  | VList l =>
      Ok (existsb (fun v => match v with VStr t => String.eqb t item | _ => false end) l)
  | VDict d => Ok (existsb (fun kv => String.eqb (fst kv) item) d)
  | VNone | VBool _ | VInt _ | VFloat _ => Raise TypeError
  end.

(** The price of a record as stage four reads it: separators dropped from
    a [str], then [float], then the rescaling by 1000.  The ints [1] and
    [1000] are exact in binary64, so the mixed comparisons and products
    are the binary64 ones. *)
Definition rescale_price (price : float) : float :=
  if PrimFloat.ltb price 1 then (price * 1000)%float
  else if PrimFloat.ltb 1000 price then (price / 1000)%float
  else price.

Definition normalize_price (price_raw : pyval) : result float :=
  price ← match price_raw with
          | VStr s => py_float (VStr (str_remove "," s))
          | _ => py_float price_raw
          end;
  Ok (rescale_price price).

(** The change percent of a record as stage five reads it. *)
Definition normalize_percent (change_percent_raw : pyval) : result float :=
  match change_percent_raw with
  | VStr s => py_float (VStr (str_remove "%" s))
  | _ => py_float change_percent_raw
  end.

(** One stage: [for stock in stocks: try: if test(stock): out.append(stock)
    except Exception: log].  A record whose test raises is left out. *)
Definition kept (r : result bool) : bool :=
  match r with
  | Ok b => b
  | Raise _ => false
  end.

Fixpoint stage (test : stock → result bool) (stocks : list stock) : list stock :=
  match stocks with
  | [] => []
  | s :: rest => if kept (test s) then s :: stage test rest else stage test rest
  end.

Definition prefix_test (p : filter_params) (s : stock) : result bool :=
  any_startswith (dict_get s "f12" (VStr "")) (stock_prefix p).

Definition st_test (s : stock) : result bool :=
  b ← py_contains (dict_get s "f14" (VStr "")) "ST"; Ok (negb b).

Definition sci_test (s : stock) : result bool :=
  b ← py_startswith (dict_get s "f12" (VStr "")) (VStr "688"); Ok (negb b).

Definition price_test (p : filter_params) (s : stock) : result bool :=
  price ← normalize_price (dict_get s "f2" (VInt 0));
  Ok (PrimFloat.leb price (max_price p)).

Definition limit_up_test (p : filter_params) (s : stock) : result bool :=
  change_percent ← normalize_percent (dict_get s "f3" (VInt 0));
  Ok (PrimFloat.leb (min_limit_up_percent p) change_percent).

Definition filter_with (p : filter_params) (stock_list : list stock) : list stock :=
  let prefix_filtered := stage (prefix_test p) stock_list in
  let non_st_stocks :=
    if exclude_st p then stage st_test prefix_filtered else prefix_filtered in
  let filtered_stocks :=
    if exclude_sci_tech_board p then stage sci_test non_st_stocks else non_st_stocks in
  let low_price_stocks := stage (price_test p) filtered_stocks in
  let limit_up_stocks := stage (limit_up_test p) low_price_stocks in
  limit_up_stocks.

Definition filter_stocks (c : config) (stock_list : list stock) : list stock :=
  match stock_list with
  | [] => []
  | _ => filter_with (effective_params (cfg_filter c)) stock_list
  end.

(** ** [score_stocks] *)

Record score_weights := {
  base_score : pyval;
  volume_ratio_weight : pyval;
  turnover_rate_weight : pyval;
  continuous_limit_up_weight : pyval;
  amount_weight : pyval;
  amount_max_score : pyval
}.

Definition read_weights (score_config : gmap string pyval) : result score_weights :=
  b ← dict_item score_config "base_score";
  v ← dict_item score_config "volume_ratio_weight";
  t ← dict_item score_config "turnover_rate_weight";
  c ← dict_item score_config "continuous_limit_up_weight";
  a ← dict_item score_config "amount_weight";
  m ← dict_item score_config "amount_max_score";
  Ok {| base_score := b; volume_ratio_weight := v; turnover_rate_weight := t;
        continuous_limit_up_weight := c; amount_weight := a; amount_max_score := m |}.

(** The numbers the loop body reads from one record; [amount] and
    [market_cap] are already divided by 100000000. *)
Record score_inputs := {
  volume_ratio : float;
  turnover_rate : float;
  amount : float;
  market_cap : float
}.

Definition read_inputs (s : stock) : result score_inputs :=
  change_percent ← py_float (dict_get s "f3" (VInt 0));
  vr ← py_float (dict_get s "f10" (VInt 0));
  tr ← py_float (dict_get s "f8" (VInt 0));
  a ← py_float (dict_get s "f6" (VInt 0));
  m ← py_float (dict_get s "f20" (VInt 0));
  Ok {| volume_ratio := vr; turnover_rate := tr;
        amount := (a / 100000000)%float; market_cap := (m / 100000000)%float |}.

Definition calculate_continuous_limit_up (stock_code : pyval) : Z := 1.

(** [10 <= market_cap <= 50] and [50 < market_cap <= 100]; the ints are
    exact in binary64. *)
Definition cap_moderate (i : score_inputs) : bool :=
  PrimFloat.leb 10 (market_cap i) && PrimFloat.leb (market_cap i) 50.

Definition cap_large (i : score_inputs) : bool :=
  PrimFloat.ltb 50 (market_cap i) && PrimFloat.leb (market_cap i) 100.

(** The statements [score = 0; score += ...] of the loop body. *)
Definition compute_score (w : score_weights) (i : score_inputs) (days : Z)
    : result pynum :=
  let score := NInt 0 in
  score ← py_iadd score (base_score w);
  t ← float_mul (volume_ratio i) (volume_ratio_weight w);
  score ← py_iadd score (VFloat t);
  t ← float_mul (turnover_rate i) (turnover_rate_weight w);
  score ← py_iadd score (VFloat t);
  t ← int_mul days (continuous_limit_up_weight w);
  score ← py_iadd score t;
  a ← float_mul (amount i) (amount_weight w);
  m ← py_min a (amount_max_score w);
  score ← py_iadd score m;
  if cap_moderate i then py_iadd score (VInt 10)
  else if cap_large i then py_iadd score (VInt 5)
  else Ok score.

Definition reason_separator : string := "、".
Definition reason_fallback : string := "综合指标评分".

Definition clause_volume (i : score_inputs) : string :=
  "量比高(" +:+ format_2f (volume_ratio i) +:+ ")".
Definition clause_turnover (i : score_inputs) : string :=
  "换手率高(" +:+ format_2f (turnover_rate i) +:+ "%)".
Definition clause_days (days : Z) : string :=
  "连续涨停" +:+ pretty days +:+ "天".
Definition clause_cap (i : score_inputs) : string :=
  "流通市值适中(" +:+ format_2f (market_cap i) +:+ "亿)".
Definition clause_amount (i : score_inputs) : string :=
  "成交活跃(" +:+ format_2f (amount i) +:+ "亿)".

(** [if cond: reason.append(text)] *)
Definition append_if (cond : bool) (text : string) (reason : list string) : list string :=
  if cond then reason ++ [text] else reason.

(** The statements that build [reason] and join it. *)
Definition build_reason (i : score_inputs) (days : Z) : string :=
  let reason := [] in
  let reason := append_if (PrimFloat.ltb 1.5 (volume_ratio i)) (clause_volume i) reason in
  let reason := append_if (PrimFloat.ltb 3 (turnover_rate i)) (clause_turnover i) reason in
  let reason := append_if (1 <? days) (clause_days days) reason in
  let reason := append_if (cap_moderate i) (clause_cap i) reason in
  let reason := append_if (PrimFloat.ltb 5 (amount i)) (clause_amount i) reason in
  match reason with
  | [] => reason_fallback
  | _ => str_join reason_separator reason
  end.

(** What one turn of the loop computes for a record. *)
Record annotation := {
  an_score : pynum;
  an_reason : string;
  an_days : Z
}.

Definition evaluate (w : score_weights) (s : stock) : result annotation :=
  i ← read_inputs s;
  let days := calculate_continuous_limit_up (dict_get s "f12" (VStr "")) in
  score ← compute_score w i days;
  Ok {| an_score := score; an_reason := build_reason i days; an_days := days |}.

(** [stock['score'] = ...; stock['reason'] = ...; stock['continuous_limit_up'] = ...] *)
Definition annotate (s : stock) (a : annotation) : stock :=
  <["continuous_limit_up" := VInt (an_days a)]>
    (<["reason" := VStr (an_reason a)]>
      (<["score" := num_val (an_score a)]> s)).

Definition score_one (w : score_weights) (s : stock) : result stock :=
  a ← evaluate w s; Ok (annotate s a).

(** The loop: the first record whose body raises ends the method. *)
Fixpoint score_loop (w : score_weights) (stock_list : list stock) : result (list stock) :=
  match stock_list with
  | [] => Ok []
  | s :: rest =>
      s' ← score_one w s;
      rest' ← score_loop w rest;
      Ok (s' :: rest')
  end.

(** *** [list.sort(key=..., reverse=True)]

    [list.sort] compares keys with [<] alone and is stable, also with
    [reverse=True]: the result lists greater keys first and keeps the input
    order of two elements neither of which is below the other.  Where [<]
    orders the keys (no NaN among them) there is one such list, and
    inserting each element behind the strictly greater ones computes it.
    With a NaN among the keys [list.sort] still returns a permutation of
    the list, but which one depends on the runs it finds and merges, and
    the insertion below need not give the same one: statements about the
    order of the result are made for keys without NaN, or at a sample list
    on which both agree. *)
Section stable_sort.
Context {A : Type} (lt : A → A → bool).

Fixpoint insert_desc (x : A) (l : list A) : list A :=
  match l with
  | [] => [x]
  | y :: l' => if lt x y then y :: insert_desc x l' else x :: l
  end.

Definition sort_desc (l : list A) : list A := foldr insert_desc [] l.
End stable_sort.

(** [a['score'] < b['score']] on two annotated records. *)
Definition score_key (s : stock) : option pynum :=
  v ← s !! "score"; as_num v.

Definition score_lt (a b : stock) : bool :=
  match score_key a, score_key b with
  | Some x, Some y => num_ltb x y
  | _, _ => false
  end.

Definition sort_by_score (l : list stock) : list stock := sort_desc score_lt l.

Definition score_stocks (c : config) (stock_list : list stock) : result (list stock) :=
  match stock_list with
  | [] => Ok []
  | _ =>
      w ← read_weights (cfg_score c);
      scored_stocks ← score_loop w stock_list;
      Ok (sort_by_score scored_stocks)
  end.

(** ** [run]: filter, score and sort, keep the first [top_count] *)

(** [l[:n]] for an int [n]; a negative [n] counts from the end. *)
Definition slice_to {A} (l : list A) (n : Z) : list A :=
  if 0 <=? n then take (Z.to_nat n) l
  else take (length l - Z.to_nat (- n)) l.

(** [l[:v]] *)
Definition py_slice_to {A} (l : list A) (v : pyval) : result (list A) :=
  match v with
  | VNone => Ok l
  | VBool b => Ok (slice_to l (Z.b2z b))
  | VInt n => Ok (slice_to l n)
  | _ => Raise TypeError
  end.

(** The ranking: the sort of [score_stocks] and the slice of [run]. *)
Definition rank (scored : list stock) (top_n : Z) : list stock :=
  slice_to (sort_by_score scored) top_n.

(** [run] on the list that [get_market_data] returned: the value of
    [top_stocks], the list handed to the writer (an empty list: nothing to
    write); [Raise] stands for an exception that reaches the [except] of
    [run], which logs it and writes nothing. *)
Definition run (c : config) (stock_list : list stock) : result (list stock) :=
  match filter_stocks c stock_list with
  | [] => Ok []
  | limit_up_stocks =>
      recommended_stocks ← score_stocks c limit_up_stocks;
      top_count ← dict_item (cfg_output c) "top_count";
      py_slice_to recommended_stocks top_count
  end.

(** ** The scoring formula of the specification

    [spec_score] is the formula as the specification writes it,
    [base_score + volume_ratio * volume_ratio_weight + ... + market_cap_bonus],
    evaluated from left to right with Python's arithmetic. *)

Definition market_cap_bonus (i : score_inputs) : Z :=
  if cap_moderate i then 10 else if cap_large i then 5 else 0.

(** [a + b] for a value [a] that has to be a number. *)
Definition py_add (a b : pyval) : result pynum :=
  match as_num a with
  | Some n => py_iadd n b
  | None => Raise TypeError
  end.

Definition spec_score (w : score_weights) (i : score_inputs) (days : Z)
    : result pynum :=
  t1 ← float_mul (volume_ratio i) (volume_ratio_weight w);
  s ← py_add (base_score w) (VFloat t1);
  t2 ← float_mul (turnover_rate i) (turnover_rate_weight w);
  s ← py_iadd s (VFloat t2);
  t3 ← int_mul days (continuous_limit_up_weight w);
  s ← py_iadd s t3;
  a ← float_mul (amount i) (amount_weight w);
  t4 ← py_min a (amount_max_score w);
  s ← py_iadd s t4;
  py_iadd s (VInt (market_cap_bonus i)).

(** Two floats that Python's [==] cannot tell apart and that are both NaN
    or both not: the same float, or two zeros of either sign. *)
Definition same_value (x y : float) : Prop :=
  x = y ∨ ∃ s s', Prim2SF x = S754_zero s ∧ Prim2SF y = S754_zero s'.

Definition same_num (a b : pynum) : Prop :=
  match a, b with
  | NInt x, NInt y => x = y
  | NFloat x, NFloat y => same_value x y
  | _, _ => False
  end.

(** Two computations agree: both raise, or both return the same number. *)
Definition agree (r r' : result pynum) : Prop :=
  match r, r' with
  | Ok a, Ok b => same_num a b
  | Raise _, Raise _ => True
  | _, _ => False
  end.

(** A weight is a number that has a binary64 value. *)
Definition weight_ok (v : pyval) : bool :=
  match as_num v with
  | Some n => is_ok (num_to_float n)
  | None => false
  end.

Definition weights_ok (w : score_weights) : bool :=
  weight_ok (base_score w) && weight_ok (volume_ratio_weight w)
  && weight_ok (turnover_rate_weight w) && weight_ok (continuous_limit_up_weight w)
  && weight_ok (amount_weight w) && weight_ok (amount_max_score w).


Definition default_weights : score_weights := {|
  base_score := VInt 50; volume_ratio_weight := VInt 5;
  turnover_rate_weight := VInt 2; continuous_limit_up_weight := VInt 10;
  amount_weight := VInt 3; amount_max_score := VInt 15
|}.

(** A record with the given code, name and numeric fields. *)
Definition quote (code name : string) (price change vr tr amt cap : pyval) : stock :=
  <["f12" := VStr code]> (<["f14" := VStr name]> (<["f2" := price]>
  (<["f3" := change]> (<["f10" := vr]> (<["f8" := tr]>
  (<["f6" := amt]> (<["f20" := cap]> ∅))))))).

(** The scenario of the specification: volume ratio 2.0, turnover rate 4.0,
    change 10.0, turnover amount 6 and float cap 30 hundred-millions. *)
Definition scenario_candidate : stock :=
  quote "600000" "A" (VFloat 10) (VFloat 10) (VFloat 2) (VFloat 4)
        (VInt 600000000) (VInt 3000000000).

(** ** The formula over an arithmetic

    The same formula over any numbers with a sum, a product, comparisons
    and an image of the integers.  [binary64] is the arithmetic the
    program runs on; [exact] is the arithmetic of the rationals, in which
    no operation rounds. *)

Record arith (N : Type) := {
  ar_add : N → N → N;
  ar_mul : N → N → N;
  ar_ltb : N → N → bool;
  ar_leb : N → N → bool;
  ar_of_Z : Z → N
}.
Arguments ar_add {N} _. Arguments ar_mul {N} _. Arguments ar_ltb {N} _.
Arguments ar_leb {N} _. Arguments ar_of_Z {N} _.

Section score_formula.
Context {N : Type} (ar : arith N).

Definition formula_min (a cap : N) : N := if ar_ltb ar cap a then cap else a.

Definition formula_bonus (mc : N) : N :=
  ar_of_Z ar
    (if ar_leb ar (ar_of_Z ar 10) mc && ar_leb ar mc (ar_of_Z ar 50) then 10
     else if ar_ltb ar (ar_of_Z ar 50) mc && ar_leb ar mc (ar_of_Z ar 100) then 5
     else 0).

Definition score_formula (base w_vr w_tr w_days w_amt cap : N)
    (vr tr : N) (days : Z) (amt mc : N) : N :=
  ar_add ar
    (ar_add ar
      (ar_add ar
        (ar_add ar
          (ar_add ar base (ar_mul ar vr w_vr))
          (ar_mul ar tr w_tr))
        (ar_mul ar (ar_of_Z ar days) w_days))
      (formula_min (ar_mul ar amt w_amt) cap))
    (formula_bonus mc).
End score_formula.

Definition binary64 : arith float := {|
  ar_add := PrimFloat.add;
  ar_mul := PrimFloat.mul;
  ar_ltb := PrimFloat.ltb;
  ar_leb := PrimFloat.leb;
  ar_of_Z := λ z, SF2Prim (binary_normalize prec emax z 0 false)
|}.

Definition exact : arith Q := {|
  ar_add := Qplus;
  ar_mul := Qmult;
  ar_ltb := λ a b, negb (Qle_bool b a);
  ar_leb := Qle_bool;
  ar_of_Z := inject_Z
|}.

Definition float_weights (base w_vr w_tr w_days w_amt cap : float) : score_weights := {|
  base_score := VFloat base; volume_ratio_weight := VFloat w_vr;
  turnover_rate_weight := VFloat w_tr; continuous_limit_up_weight := VFloat w_days;
  amount_weight := VFloat w_amt; amount_max_score := VFloat cap
|}.

(** The score of an evaluation, when there is one. *)
Definition score_of (r : result annotation) : option pynum :=
  match r with
  | Ok a => Some (an_score a)
  | Raise _ => None
  end.

(** ** The rationale of the specification

    The clauses in their fixed order, each with its trigger; the rationale
    joins the triggered ones, or is the fallback when there is none. *)

Definition spec_clauses (i : score_inputs) (days : Z) : list (bool * string) :=
  [ (PrimFloat.ltb 1.5 (volume_ratio i), clause_volume i);
    (PrimFloat.ltb 3 (turnover_rate i), clause_turnover i);
    (1 <? days, clause_days days);
    (PrimFloat.leb 10 (market_cap i) && PrimFloat.leb (market_cap i) 50, clause_cap i);
    (PrimFloat.ltb 5 (amount i), clause_amount i) ].

Definition spec_reason (i : score_inputs) (days : Z) : string :=
  match map snd (List.filter fst (spec_clauses i days)) with
  | [] => reason_fallback
  | triggered => str_join reason_separator triggered
  end.

(** A text that ends in a point and two decimal digits. *)
Definition two_decimals (t : string) : Prop :=
  ∃ whole d1 d2,
    t = whole +:+ "." +:+ String (digit_char d1) (String (digit_char d2) "")
    ∧ 0 ≤ d1 ≤ 9 ∧ 0 ≤ d2 ≤ 9.

(** ** Scores as sort keys *)

(** The record carries a float score that is not NaN. *)
Definition comparable (s : stock) : bool :=
  match score_key s with
  | Some (NFloat f) => negb (PrimFloat.is_nan f)
  | _ => false
  end.

Definition scores_comparable (l : list stock) : bool := forallb comparable l.

(** The record has the score [v], as Python's [==] tells. *)
Definition has_score (v : float) (s : stock) : bool :=
  match score_key s with
  | Some (NFloat f) => PrimFloat.eqb f v
  | _ => false
  end.

(** The score of [a] is at least the score of [b]. *)
Definition score_ge (a b : stock) : Prop :=
  ∃ x y, score_key a = Some (NFloat x) ∧ score_key b = Some (NFloat y)
         ∧ PrimFloat.leb y x = true.

Definition annotation_keys : list string := ["score"; "reason"; "continuous_limit_up"].

(** ** Sample records and configurations *)

Definition symbol (s : stock) : pyval := dict_get s "f12" VNone.

(** Three annotated records with the scores 80, 103 and 80. *)
Definition ranked_sample : list stock :=
  [ <["score" := VFloat 80]> (quote "600001" "A" (VFloat 10) (VFloat 10)
       (VFloat 1) (VFloat 1) (VInt 0) (VInt 0));
    <["score" := VFloat 103]> scenario_candidate;
    <["score" := VFloat 80]> (quote "000003" "C" (VFloat 10) (VFloat 10)
       (VFloat 1) (VFloat 1) (VInt 0) (VInt 0)) ].

(** A candidate that scores below the scenario's one. *)
Definition quiet_candidate : stock :=
  quote "600001" "Q" (VFloat 10) (VFloat 10) (VFloat 1) (VFloat 1)
        (VInt 100000000) (VInt 300000000).

(** A record whose volume ratio is the text - (no value). *)
Definition no_ratio_candidate : stock :=
  quote "600005" "N" (VFloat 10) (VFloat 10) (VStr "-") (VFloat 4)
        (VInt 600000000) (VInt 3000000000).

(** A record whose change percent is the text 10.5%. *)
Definition percent_text_candidate : stock :=
  quote "600002" "P" (VFloat 10) (VStr "10.5%") (VFloat 2) (VFloat 4)
        (VInt 600000000) (VInt 3000000000).

(** A record whose price is the text - (no quote). *)
Definition unpriced_candidate : stock :=
  quote "600003" "U" (VStr "-") (VFloat 10) (VFloat 2) (VFloat 4)
        (VInt 600000000) (VInt 3000000000).

(** A record named as special treatment. *)
Definition st_candidate : stock :=
  quote "600004" "*ST D" (VFloat 10) (VFloat 10) (VFloat 2) (VFloat 4)
        (VInt 600000000) (VInt 3000000000).

Definition with_score_value (key : string) (v : pyval) (c : config) : config :=
  {| cfg_filter := cfg_filter c;
     cfg_score := <[key := v]> (cfg_score c);
     cfg_output := cfg_output c |}.

Definition with_filter_value (key : string) (v : pyval) (c : config) : config :=
  {| cfg_filter := <[key := v]> (cfg_filter c);
     cfg_score := cfg_score c;
     cfg_output := cfg_output c |}.

Definition with_output_value (key : string) (v : pyval) (c : config) : config :=
  {| cfg_filter := cfg_filter c;
     cfg_score := cfg_score c;
     cfg_output := <[key := v]> (cfg_output c) |}.

(** Two configurations whose price ceiling is an int too large for a float:
    the first names the prefix 3 alone, the second keeps records named ST. *)
Definition prefix_3_config : config :=
  with_filter_value "stock_prefix" (VList [VStr "3"])
    (with_filter_value "max_price" (VInt (10 ^ 400)) default_config).

Definition keep_st_config : config :=
  with_filter_value "exclude_st" (VBool false)
    (with_filter_value "stock_prefix" (VList [VStr "6"])
      (with_filter_value "max_price" (VInt (10 ^ 400)) default_config)).

(** Three annotated records with the scores 70, NaN and 103. *)
Definition nan_ranked_sample : list stock :=
  [ <["score" := VFloat 70]> quiet_candidate;
    <["score" := VFloat nan]> st_candidate;
    <["score" := VFloat 103]> scenario_candidate ].

(** The scenario's record with the volume ratio inf. *)
Definition infinite_ratio_candidate : stock :=
  <["f10" := VStr "inf"]> scenario_candidate.

(** ** [load_config]

    The argument is what the file system and [json.loads] gave: the
    decoded JSON value, or one of the three ways in which the method
    gives up before it has one. *)

Inductive config_source : Type :=
| NoFile
| Undecodable
| NotJson
| Parsed (loaded_config : pyval).

(** [d[key]] and [d.get(key)] for a JSON object, listed as its pairs in
    the order of the text: of a repeated key [json.loads] keeps the last
    value. *)
Fixpoint object_get (d : list (string * pyval)) (key : string) : option pyval :=
  match d with
  | [] => None
  | (k, v) :: rest =>
      match object_get rest key with
      | Some v' => Some v'
      | None => if String.eqb k key then Some v else None
      end
  end.

(** [v[key]] for a [str] key: only a dict can be indexed by a [str]. *)
Definition py_getitem (v : pyval) (key : string) : result pyval :=
  match v with
  | VDict d =>
      match object_get d key with
      | Some x => Ok x
      | None => Raise KeyError
      end
  | _ => Raise TypeError
  end.

(** [v.items()] *)
Definition py_items (v : pyval) : result (list (string * pyval)) :=
  match v with
  | VDict d => Ok d
  | _ => Raise AttributeError
  end.

(** [for key, value in items: if key in group: group[key] = value] *)
Definition merge_item (group : gmap string pyval) (item : string * pyval)
    : gmap string pyval :=
  match group !! item.1 with
  | Some _ => <[item.1 := item.2]> group
  | None => group
  end.

Definition merge_group (group : gmap string pyval) (items : list (string * pyval))
    : gmap string pyval :=
  foldl merge_item group items.

(** [if name in loaded_config:
         for key, value in loaded_config[name].items(): ...] *)
Definition merge_from (loaded_config : pyval) (name : string)
    (group : gmap string pyval) : result (gmap string pyval) :=
  present ← py_contains loaded_config name;
  if present : bool then
    section ← py_getitem loaded_config name;
    items ← py_items section;
    Ok (merge_group group items)
  else Ok group.

Definition on_score (f : gmap string pyval → result (gmap string pyval))
    (c : config) : result config :=
  d ← f (cfg_score c);
  Ok {| cfg_filter := cfg_filter c; cfg_score := d; cfg_output := cfg_output c |}.

(** [final_config = default_config.copy()] copies the outer dict alone:
    the three groups of [final_config] are the very dicts of
    [default_config], so the merge and the validation, which write into the
    groups, change both, and [return default_config] in the [except]
    returns the groups as they are at that moment.  The state threaded
    through the steps is these three groups; a step that raises ends the
    [try] and the state reached is returned. *)
Definition load_config (source : config_source) : config :=
  match source with
  | Parsed loaded_config =>
      try_steps
        [ on_filter (merge_from loaded_config "filter");
          on_score (merge_from loaded_config "score");
          on_output (merge_from loaded_config "output");
          λ final_config, Ok (_validate_config final_config) ]
        default_config
  | NoFile | Undecodable | NotJson => default_config
  end.

(** The pairs of the section [name] of the file, when it is an object. *)
Definition section_items (d : list (string * pyval)) (name : string)
    : list (string * pyval) :=
  match object_get d name with
  | Some (VDict items) => items
  | _ => []
  end.

(** What the file gives for [key] in its section [name]. *)
Definition file_value (loaded_config : pyval) (name key : string) : option pyval :=
  match loaded_config with
  | VDict d => object_get (section_items d name) key
  | _ => None
  end.

(** Each of the three sections is absent or an object. *)
Definition sections_are_objects (d : list (string * pyval)) : Prop :=
  ∀ name v, name ∈ ["filter"; "score"; "output"] →
            object_get d name = Some v → ∃ items, v = VDict items.

(** The checks of [_validate_config] on the filter and on the output
    group: the key, the test that finds its value invalid, and the value
    written over an invalid one. *)
Definition filter_rules : list (string * (pyval → bool) * pyval) :=
  [ ("max_price", (λ v, negb (is_number v) || num_le0 v), VInt 40);
    ("min_limit_up_percent",
     (λ v, negb (is_number v) || negb (num_in_0_20 v)), VFloat 9.5);
    ("exclude_st", (λ v, negb (is_pybool v)), VBool true);
    ("exclude_sci_tech_board", (λ v, negb (is_pybool v)), VBool true);
    ("stock_prefix", (λ v, negb (is_list v) || is_empty_list v),
     VList default_prefixes) ].

Definition output_rules : list (string * (pyval → bool) * pyval) :=
  [ ("top_count", (λ v, negb (is_int v) || num_le0 v), VInt 10);
    ("output_dir", (λ v, negb (is_str v) || negb (py_bool v)), VStr "output");
    ("auto_open_excel", (λ v, negb (is_pybool v)), VBool true) ].

(** The value a checked key ends with. *)
Definition adopted (invalid : pyval → bool) (dflt : pyval) (given : option pyval)
    : pyval :=
  match given with
  | Some v => if invalid v then dflt else v
  | None => dflt
  end.

(** ** [save_to_excel]: the rows handed to pandas *)

(** [z / 100000000] for an int [z]: the quotient of the two integers
    rounded once to binary64; a quotient beyond the largest float raises. *)
Definition int_div_1e8 (z : Z) : result float :=
  let quotient (neg : bool) (p : positive) :=
    match SFdiv prec emax (S754_finite neg p 0) (S754_finite false 100000000 0) with
    | S754_infinity _ => Raise OverflowError
    | sf => Ok (SF2Prim sf)
    end in
  match z with
  | Z0 => Ok 0%float
  | Zpos p => quotient false p
  | Zneg p => quotient true p
  end.

(** [v / 100000000] *)
Definition py_div_1e8 (v : pyval) : result float :=
  match as_num v with
  | Some (NInt z) => int_div_1e8 z
  | Some (NFloat f) => Ok (f / 100000000)%float
  | None => Raise TypeError
  end.

Definition excel_columns : list string :=
  ["代码"; "名称"; "现价"; "涨跌幅(%)"; "成交额(亿)"; "换手率(%)"; "量比";
   "流通市值(亿)"; "市盈率"; "连板数"; "评分"; "推荐理由"].

(** The dict appended to [data] for one record; its keys in the order of
    the literal, which is the order of the columns. *)
Definition excel_row (s : stock) : result (list (string * pyval)) :=
  amount ← py_div_1e8 (dict_get s "f6" (VInt 0));
  cap ← py_div_1e8 (dict_get s "f20" (VInt 0));
  Ok [ ("代码", dict_get s "f12" (VStr ""));
       ("名称", dict_get s "f14" (VStr ""));
       ("现价", dict_get s "f2" (VInt 0));
       ("涨跌幅(%)", dict_get s "f3" (VInt 0));
       ("成交额(亿)", VFloat amount);
       ("换手率(%)", dict_get s "f8" (VInt 0));
       ("量比", dict_get s "f10" (VInt 0));
       ("流通市值(亿)", VFloat cap);
       ("市盈率", dict_get s "f9" (VInt 0));
       ("连板数", dict_get s "continuous_limit_up" (VInt 1));
       ("评分", dict_get s "score" (VInt 0));
       ("推荐理由", dict_get s "reason" (VStr "")) ].

Fixpoint excel_rows (stock_list : list stock)
    : result (list (list (string * pyval))) :=
  match stock_list with
  | [] => Ok []
  | s :: rest =>
      row ← excel_row s;
      data ← excel_rows rest;
      Ok (row :: data)
  end.

(** The value of [data] when [pd.DataFrame(data)] is reached; [None] when
    the method returns before: on an empty list, or when a row raises,
    which the [except] turns into the result [None] with no file written.
    The frame and the file are outside the model. *)
Definition save_to_excel (stock_list : list stock)
    : option (list (list (string * pyval))) :=
  match stock_list with
  | [] => None
  | _ =>
      match excel_rows stock_list with
      | Ok data => Some data
      | Raise _ => None
      end
  end.

(** * Facts about the model *)

(** ** The order of binary64 numbers

    The comparisons of two numbers that are not NaN are those of their
    keys, triples of integers ordered lexicographically. *)

Definition sf_key (x : spec_float) : Z * Z * Z :=
  match x with
  | S754_nan => (0, 0, 0)
  | S754_zero _ => (0, 0, 0)
  | S754_infinity s => (if s then -2 else 2, 0, 0)
  | S754_finite s m e => if s then (-1, - e, - Z.pos m) else (1, e, Z.pos m)
  end.

Definition key_lt (a b : Z * Z * Z) : Prop :=
  let '(c1, e1, m1) := a in
  let '(c2, e2, m2) := b in
  c1 < c2 ∨ (c1 = c2 ∧ (e1 < e2 ∨ (e1 = e2 ∧ m1 < m2))).

Lemma key_lt_irrefl a : ¬ key_lt a a.
Proof. destruct a as [[c e] m]. unfold key_lt. lia. Qed.

Lemma key_lt_trans a b c : key_lt a b → key_lt b c → key_lt a c.
Proof.
  destruct a as [[? ?] ?], b as [[? ?] ?], c as [[? ?] ?]. unfold key_lt. lia.
Qed.

Lemma key_lt_total a b : key_lt a b ∨ a = b ∨ key_lt b a.
Proof.
  destruct a as [[c1 e1] m1], b as [[c2 e2] m2]. unfold key_lt.
  destruct (Z.lt_total c1 c2) as [?|[->|?]]; [lia| |lia].
  destruct (Z.lt_total e1 e2) as [?|[->|?]]; [lia| |lia].
  destruct (Z.lt_total m1 m2) as [?|[->|?]]; [lia| |lia].
  right; left; reflexivity.
Qed.

Lemma SFcompare_key x y :
  x ≠ S754_nan → y ≠ S754_nan →
  match SFcompare x y with
  | Some Lt => key_lt (sf_key x) (sf_key y)
  | Some Eq => sf_key x = sf_key y
  | Some Gt => key_lt (sf_key y) (sf_key x)
  | None => False
  end.
Proof.
  intros Hx Hy.
  destruct x as [sx|sx| |sx mx ex], y as [sy|sy| |sy my ey]; try congruence;
    try destruct sx; try destruct sy; cbn; try reflexivity; try lia;
    destruct (Z.compare_spec ex ey); cbn; try lia;
    change (Pos.compare_cont Eq mx my) with (Pos.compare mx my);
    destruct (Pos.compare_spec mx my); cbn; subst; try reflexivity; lia.
Qed.

Definition float_key (f : float) : Z * Z * Z := sf_key (Prim2SF f).

Lemma is_nan_spec f : PrimFloat.is_nan f = true ↔ Prim2SF f = S754_nan.
Proof.
  unfold PrimFloat.is_nan. rewrite FloatAxioms.eqb_spec. unfold SFeqb.
  destruct (Prim2SF f) eqn:Ef; try (simpl; tauto);
    match goal with |- context [SFcompare ?x ?x] =>
      assert (E : x ≠ S754_nan) by discriminate end.
  all: pose proof (SFcompare_key _ _ E E) as H.
  all: match goal with |- context [SFcompare ?x ?x] =>
      destruct (SFcompare x x) as [[]|] end; simpl;
      try (exfalso; revert H; apply key_lt_irrefl); try tauto.
  all: split; discriminate.
Qed.

Lemma not_nan_spec f : PrimFloat.is_nan f = false ↔ Prim2SF f ≠ S754_nan.
Proof.
  rewrite <- is_nan_spec. destruct (PrimFloat.is_nan f); split; congruence.
Qed.

Section float_order.
Context (a b : float).
Hypothesis (Ha : PrimFloat.is_nan a = false) (Hb : PrimFloat.is_nan b = false).

Lemma ltb_key : PrimFloat.ltb a b = true ↔ key_lt (float_key a) (float_key b).
Proof.
  apply not_nan_spec in Ha, Hb. rewrite FloatAxioms.ltb_spec. unfold SFltb, float_key.
  pose proof (SFcompare_key _ _ Ha Hb) as H.
  pose proof (SFcompare_key _ _ Hb Ha) as H'.
  pose proof (key_lt_irrefl (sf_key (Prim2SF a))) as I.
  pose proof (fun p q => key_lt_irrefl _ (key_lt_trans (sf_key (Prim2SF a)) (sf_key (Prim2SF b)) _ p q)) as T.
  destruct (SFcompare (Prim2SF a) (Prim2SF b)) as [[]|]; try contradiction.
  - rewrite H. split; [discriminate | intros K; contradiction (key_lt_irrefl _ K)].
  - tauto.
  - split; [discriminate | intros K; contradiction (T K H)].
Qed.

Lemma eqb_key : PrimFloat.eqb a b = true ↔ float_key a = float_key b.
Proof.
  apply not_nan_spec in Ha, Hb. rewrite FloatAxioms.eqb_spec. unfold SFeqb, float_key.
  pose proof (SFcompare_key _ _ Ha Hb) as H.
  destruct (SFcompare (Prim2SF a) (Prim2SF b)) as [[]|]; try contradiction.
  - tauto.
  - split; [discriminate | intros K; rewrite K in H; contradiction (key_lt_irrefl _ H)].
  - split; [discriminate | intros K; rewrite K in H; contradiction (key_lt_irrefl _ H)].
Qed.

Lemma leb_key : PrimFloat.leb a b = true ↔ ¬ key_lt (float_key b) (float_key a).
Proof.
  apply not_nan_spec in Ha, Hb. rewrite FloatAxioms.leb_spec. unfold SFleb, float_key.
  pose proof (SFcompare_key _ _ Ha Hb) as H.
  destruct (SFcompare (Prim2SF a) (Prim2SF b)) as [[]|]; try contradiction.
  - rewrite H. split; [intros _; apply key_lt_irrefl | reflexivity].
  - split; [intros _ K; exact (key_lt_irrefl _ (key_lt_trans _ _ _ H K)) | reflexivity].
  - split; [discriminate | intros K; contradiction].
Qed.
End float_order.

(** A comparison with NaN is false. *)
Lemma ltb_nan_l a b : PrimFloat.is_nan a = true → PrimFloat.ltb a b = false.
Proof. intros H%is_nan_spec. rewrite FloatAxioms.ltb_spec. unfold SFltb. rewrite H. reflexivity. Qed.

Lemma ltb_nan_r a b : PrimFloat.is_nan b = true → PrimFloat.ltb a b = false.
Proof.
  intros H%is_nan_spec. rewrite FloatAxioms.ltb_spec. unfold SFltb. rewrite H.
  destruct (Prim2SF a); reflexivity.
Qed.

Lemma ltb_not_nan a b :
  PrimFloat.ltb a b = true → PrimFloat.is_nan a = false ∧ PrimFloat.is_nan b = false.
Proof.
  intros H. split.
  - destruct (PrimFloat.is_nan a) eqn:E; [|reflexivity].
    rewrite (ltb_nan_l _ _ E) in H. discriminate.
  - destruct (PrimFloat.is_nan b) eqn:E; [|reflexivity].
    rewrite (ltb_nan_r _ _ E) in H. discriminate.
Qed.

(** [a < b] excludes [b <= a] and gives [a <= b]. *)
Lemma ltb_leb a b : PrimFloat.ltb a b = true → PrimFloat.leb a b = true.
Proof.
  intros H. destruct (ltb_not_nan _ _ H) as [Ha Hb].
  apply (leb_key _ _ Ha Hb). apply (ltb_key _ _ Ha Hb) in H.
  intros K. exact (key_lt_irrefl _ (key_lt_trans _ _ _ H K)).
Qed.

Lemma ltb_not_leb a b : PrimFloat.ltb a b = true → PrimFloat.leb b a = false.
Proof.
  intros H. destruct (ltb_not_nan _ _ H) as [Ha Hb].
  apply (ltb_key _ _ Ha Hb) in H.
  destruct (PrimFloat.leb b a) eqn:E; [|reflexivity].
  apply (leb_key _ _ Hb Ha) in E. contradiction.
Qed.

(** ** The stable descending sort *)

Section stable_sort_facts.
Context {A : Type} (lt : A → A → bool) (ok : A → Prop).

Lemma insert_desc_perm x l : insert_desc lt x l ≡ₚ x :: l.
Proof.
  induction l as [|y l IH]; simpl; [reflexivity|].
  destruct (lt x y); [|reflexivity].
  rewrite IH. apply Permutation_swap.
Qed.

Lemma sort_desc_perm l : sort_desc lt l ≡ₚ l.
Proof.
  induction l as [|x l IH]; simpl; [reflexivity|].
  rewrite insert_desc_perm. by rewrite IH.
Qed.

Lemma sort_desc_length l : length (sort_desc lt l) = length l.
Proof. apply Permutation_length, sort_desc_perm. Qed.

Hypothesis lt_asym : ∀ x y, ok x → ok y → lt x y = true → lt y x = false.
Hypothesis lt_neg_trans :
  ∀ x y z, ok x → ok y → ok z → lt x y = false → lt y z = false → lt x z = false.

Lemma insert_desc_sorted x l :
  ok x → Forall ok l →
  StronglySorted (λ a b, lt a b = false) l →
  StronglySorted (λ a b, lt a b = false) (insert_desc lt x l).
Proof.
  intros Hx Hl Hs. induction Hs as [|y l Hs IH Hy]; simpl.
  - repeat constructor.
  - apply Forall_cons in Hl as [Hoy Hl].
    destruct (lt x y) eqn:E.
    + constructor; [by apply IH|].
      rewrite insert_desc_perm. constructor; [by apply lt_asym|done].
    + constructor; [by constructor|].
      constructor; [done|].
      rewrite Forall_forall in Hy, Hl. apply Forall_forall.
      intros z Hz. apply (lt_neg_trans x y z); auto.
Qed.

Lemma sort_desc_sorted l :
  Forall ok l → StronglySorted (λ a b, lt a b = false) (sort_desc lt l).
Proof.
  induction 1 as [|x l Hx Hl IH]; simpl; [constructor|].
  apply insert_desc_sorted; [done| |done].
  by rewrite sort_desc_perm.
Qed.

End stable_sort_facts.

(** Stability: the elements of a class no two of which are below each
    other keep their order. *)
Section stable_sort_classes.
Context {A : Type} (lt : A → A → bool) (P : A → bool).
Hypothesis class : ∀ a b, P a = true → P b = true → lt a b = false.

Lemma insert_desc_stable x l :
  List.filter P (insert_desc lt x l) = List.filter P (x :: l).
Proof.
  induction l as [|y l IH]; [reflexivity|].
  cbn [insert_desc]. destruct (lt x y) eqn:E; [|reflexivity].
  cbn [List.filter] in *. rewrite IH.
  destruct (P x) eqn:Px, (P y) eqn:Py; try reflexivity.
  rewrite (class x y Px Py) in E. discriminate.
Qed.

Lemma sort_desc_stable l :
  List.filter P (sort_desc lt l) = List.filter P l.
Proof.
  induction l as [|x l IH]; [reflexivity|].
  cbn [sort_desc foldr]. fold (sort_desc lt l).
  rewrite insert_desc_stable. cbn [List.filter]. by rewrite IH.
Qed.
End stable_sort_classes.

(** ** The filter pipeline *)

(** [startswith] and [in] on strings say what their names say. *)
Lemma append_cons a p r : String a p +:+ r = String a (p +:+ r).
Proof. reflexivity. Qed.

Lemma append_nil r : "" +:+ r = r.
Proof. reflexivity. Qed.

Lemma startswith_spec s p : startswith s p = true ↔ ∃ r, s = p +:+ r.
Proof.
  unfold startswith. revert s. induction p as [|a p IH]; intros s.
  - destruct s; simpl; (split; [intros _; by eexists | done]).
  - destruct s as [|b s]; simpl; [split; [done | intros [r Hr]; discriminate]|].
    destruct (Ascii.ascii_dec a b) as [->|Hne].
    + rewrite IH. split; intros [r Hr]; exists r;
        rewrite append_cons in *; congruence.
    + split; [done | intros [r Hr]; rewrite append_cons in Hr; congruence].
Qed.

Lemma str_contains_spec pat s :
  str_contains pat s = true ↔ ∃ l r, s = l +:+ pat +:+ r.
Proof.
  induction s as [|a s IH]; cbn [str_contains]; rewrite orb_true_iff.
  - split.
    + intros [H|H]; [|done]. apply startswith_spec in H as [r Hr].
      by exists "", r.
    + intros (l & r & H). left. apply startswith_spec.
      destruct l; [by exists r | discriminate].
  - rewrite IH. split.
    + intros [H|(l & r & H)].
      * apply startswith_spec in H as [r Hr]. by exists "", r.
      * exists (String a l), r. rewrite append_cons. by rewrite H.
    + intros (l & r & H). destruct l as [|b l].
      * left. apply startswith_spec. by exists r.
      * right. exists l, r. rewrite append_cons in H. congruence.
Qed.

Lemma stage_filter test l : stage test l = List.filter (λ s, kept (test s)) l.
Proof. induction l as [|s l IH]; simpl; [done|]. by rewrite IH. Qed.

Lemma filter_twice {A} (f g : A → bool) l :
  List.filter g (List.filter f l) = List.filter (λ x, f x && g x) l.
Proof.
  induction l as [|x l IH]; simpl; [done|].
  destruct (f x); simpl; [destruct (g x)|]; by rewrite IH.
Qed.

(** The five stages fused into one test of a record. *)
Definition passes (p : filter_params) (s : stock) : bool :=
  kept (prefix_test p s)
  && (negb (exclude_st p) || kept (st_test s))
  && (negb (exclude_sci_tech_board p) || kept (sci_test s))
  && kept (price_test p s)
  && kept (limit_up_test p s).

Lemma filter_with_passes p l : filter_with p l = List.filter (passes p) l.
Proof.
  unfold filter_with. cbv zeta.
  rewrite (filter_ext (passes p) (λ s, passes p s)) by done. unfold passes.
  destruct (exclude_st p), (exclude_sci_tech_board p);
    rewrite !stage_filter, !filter_twice; apply filter_ext; intros s; simpl;
    destruct (kept (prefix_test p s)), (kept (st_test s)), (kept (sci_test s)),
      (kept (price_test p s)), (kept (limit_up_test p s)); reflexivity.
Qed.

Lemma filter_stocks_passes c l :
  filter_stocks c l = List.filter (passes (effective_params (cfg_filter c))) l.
Proof. destruct l; [done|]. apply filter_with_passes. Qed.

Lemma any_startswith_true code prefixes :
  any_startswith code prefixes = Ok true →
  ∃ s p, code = VStr s ∧ VStr p ∈ prefixes ∧ startswith s p = true.
Proof.
  induction prefixes as [|q rest IH]; simpl; [discriminate|].
  destruct code as [| | | |s| |]; try discriminate.
  destruct q as [| | | |p| |]; try discriminate. simpl.
  destruct (startswith s p) eqn:E.
  - intros _. exists s, p. split; [done|]. split; [left | done].
  - intros H. destruct (IH H) as (s' & p' & Hs & Hin & Hp).
    exists s', p'. split; [done|]. split; [by right | done].
Qed.

(** What a record that left the pipeline satisfies. *)
Definition symbol_admitted (p : filter_params) (s : stock) : Prop :=
  ∃ code pre, dict_get s "f12" (VStr "") = VStr code
              ∧ VStr pre ∈ stock_prefix p ∧ startswith code pre = true.

Definition name_without_st (s : stock) : Prop :=
  py_contains (dict_get s "f14" (VStr "")) "ST" = Ok false.

Definition price_within (p : filter_params) (s : stock) : Prop :=
  ∃ price, normalize_price (dict_get s "f2" (VInt 0)) = Ok price
           ∧ PrimFloat.leb price (max_price p) = true.

Definition change_reaches (p : filter_params) (s : stock) : Prop :=
  ∃ change, normalize_percent (dict_get s "f3" (VInt 0)) = Ok change
            ∧ PrimFloat.leb (min_limit_up_percent p) change = true.

Lemma kept_true {A} (r : result A) (f : A → bool) :
  kept (x ← r; Ok (f x)) = true → ∃ x, r = Ok x ∧ f x = true.
Proof. destruct r; simpl; [eauto | discriminate]. Qed.

Lemma passes_sound p s :
  passes p s = true →
  symbol_admitted p s ∧ (exclude_st p = true → name_without_st s)
  ∧ price_within p s ∧ change_reaches p s.
Proof.
  unfold passes. rewrite !andb_true_iff. intros [[[[H1 H2] _] H4] H5].
  split; [|split; [|split]].
  - unfold prefix_test in H1.
    destruct (any_startswith _ _) as [[]|] eqn:E; try discriminate.
    exact (any_startswith_true _ _ E).
  - intros Hst. rewrite Hst in H2. simpl in H2.
    apply kept_true in H2 as (b & Hb & Hn). unfold name_without_st.
    rewrite Hb. by destruct b.
  - apply kept_true in H4. exact H4.
  - apply kept_true in H5. exact H5.
Qed.

Lemma effective_params_read (cfg : gmap string pyval) mp ml :
  py_float (dict_get cfg "max_price" (VInt 40)) = Ok mp →
  py_float (dict_get cfg "min_limit_up_percent" (VFloat 9.5)) = Ok ml →
  effective_params cfg
  = {| max_price := mp; min_limit_up_percent := ml;
       exclude_st := py_bool (dict_get cfg "exclude_st" (VBool true));
       exclude_sci_tech_board :=
         py_bool (dict_get cfg "exclude_sci_tech_board" (VBool true));
       stock_prefix := configured_prefixes cfg |}.
Proof.
  intros H1 H2. unfold effective_params, read_filter_params, configured_prefixes.
  rewrite H1, H2. simpl.
  by destruct (dict_get cfg "stock_prefix" _) as [| | | | |[|x l]|].
Qed.

Lemma effective_params_reset (cfg : gmap string pyval) :
  is_ok (py_float (dict_get cfg "max_price" (VInt 40))) = false
  ∨ is_ok (py_float (dict_get cfg "min_limit_up_percent" (VFloat 9.5))) = false →
  effective_params cfg = default_filter_params.
Proof.
  unfold effective_params, read_filter_params.
  destruct (py_float (dict_get cfg "max_price" _)); simpl; [|done].
  destruct (py_float (dict_get cfg "min_limit_up_percent" _)); simpl; [|done].
  by intros [?|?].
Qed.

(** C1: the stage predicates hold for the parameters in force, which are the
    configured ones only when both thresholds can be converted to float.
    Then the ceiling and the floor are the converted values, the two
    exclusions are the truth values of the configured ones, and the prefixes
    are the configured list (the two default prefixes when the value is no
    list or an empty one).  When a threshold cannot be converted, all five
    parameters are the defaults.  Every record in the output of
    [filter_stocks] satisfies the stages for these parameters: its symbol
    starts with one of the prefixes, its name does not contain ST when
    [exclude_st] holds, its normalized price is at most [max_price] and its
    normalized change percent at least [min_limit_up_percent]; with
    [exclude_st] off, a record of the input that passes the other four
    stages is in the output whatever its name. *)
Theorem filter_stocks_output_satisfies_stages_in_force (c : config) (l : list stock) :
  let cfg := cfg_filter c in
  let p := effective_params cfg in
  (∀ mp ml,
     py_float (dict_get cfg "max_price" (VInt 40)) = Ok mp →
     py_float (dict_get cfg "min_limit_up_percent" (VFloat 9.5)) = Ok ml →
     max_price p = mp ∧ min_limit_up_percent p = ml
     ∧ exclude_st p = py_bool (dict_get cfg "exclude_st" (VBool true))
     ∧ exclude_sci_tech_board p
       = py_bool (dict_get cfg "exclude_sci_tech_board" (VBool true))
     ∧ stock_prefix p = configured_prefixes cfg)
  ∧ (is_ok (py_float (dict_get cfg "max_price" (VInt 40))) = false
     ∨ is_ok (py_float (dict_get cfg "min_limit_up_percent" (VFloat 9.5))) = false →
     p = default_filter_params)
  ∧ Forall (λ s, symbol_admitted p s
                 ∧ (exclude_st p = true → name_without_st s)
                 ∧ price_within p s
                 ∧ change_reaches p s) (filter_stocks c l)
  ∧ (exclude_st p = false →
     ∀ s, s ∈ l →
          kept (prefix_test p s) = true →
          (exclude_sci_tech_board p = true → kept (sci_test s) = true) →
          kept (price_test p s) = true →
          kept (limit_up_test p s) = true →
          s ∈ filter_stocks c l).
Proof.
  intros cfg p. split; [|split; [apply effective_params_reset|]].
  { intros mp ml H1 H2. unfold p. by rewrite (effective_params_read cfg mp ml H1 H2). }
  rewrite filter_stocks_passes. fold cfg. fold p. split.
  - apply Forall_forall. intros s Hs.
    apply list_elem_of_In, filter_In in Hs as [_ Hs]. by apply passes_sound.
  - intros Hst s Hin H1 H3 H4 H5.
    apply list_elem_of_In, filter_In. split; [by apply list_elem_of_In|].
    unfold passes. rewrite Hst, H1, H4, H5. simpl.
    destruct (exclude_sci_tech_board p); simpl; [by rewrite H3 | done].
Qed.

(** ** Price and percent normalization *)

Lemma str_remove_spec c s :
  list_ascii_of_string (str_remove c s)
  = List.filter (λ a, negb (Ascii.eqb a c)) (list_ascii_of_string s).
Proof.
  induction s as [|a s IH]; simpl; [done|].
  destruct (Ascii.eqb a c); simpl; by rewrite IH.
Qed.

(** The rescaling as the specification words it: by the magnitude of the
    parsed price. *)
Definition spec_rescale_by_magnitude (price : float) : float :=
  if PrimFloat.ltb (abs price) 1 then (price * 1000)%float
  else if PrimFloat.ltb 1000 (abs price) then (price / 1000)%float
  else price.

Lemma abs_key p :
  PrimFloat.leb 0 p = true →
  PrimFloat.is_nan p = false ∧ PrimFloat.is_nan (abs p) = false
  ∧ float_key (abs p) = float_key p.
Proof.
  intros H.
  assert (Hp : PrimFloat.is_nan p = false).
  { apply not_nan_spec. intros E. rewrite FloatAxioms.leb_spec, E in H. discriminate. }
  assert (H0 : PrimFloat.is_nan 0 = false) by reflexivity.
  apply (leb_key _ _ H0 Hp) in H.
  split; [done|]. unfold float_key in *.
  rewrite not_nan_spec, abs_spec. apply not_nan_spec in Hp.
  change (Prim2SF 0) with (S754_zero false) in H.
  destruct (Prim2SF p) as [s|s| |s m e]; try done; simpl in *;
    destruct s; simpl in *; try done; exfalso; apply H; lia.
Qed.

Lemma ltb_same_key a a' b b' :
  PrimFloat.is_nan a = false → PrimFloat.is_nan a' = false →
  PrimFloat.is_nan b = false → PrimFloat.is_nan b' = false →
  float_key a = float_key a' → float_key b = float_key b' →
  PrimFloat.ltb a b = PrimFloat.ltb a' b'.
Proof.
  intros Ha Ha' Hb Hb' Ea Eb.
  pose proof (ltb_key a b Ha Hb) as H. pose proof (ltb_key a' b' Ha' Hb') as H'.
  rewrite Ea, Eb in H.
  destruct (PrimFloat.ltb a b), (PrimFloat.ltb a' b'); try done.
  - symmetry. apply H'. by apply H.
  - apply H. by apply H'.
Qed.

Lemma rescale_nonnegative p :
  PrimFloat.leb 0 p = true → rescale_price p = spec_rescale_by_magnitude p.
Proof.
  intros H. destruct (abs_key p H) as (Hp & Ha & E).
  unfold rescale_price, spec_rescale_by_magnitude.
  rewrite (ltb_same_key (abs p) p 1 1), (ltb_same_key 1000 1000 (abs p) p); done.
Qed.

Lemma float_neq (a b : float) (f : float → bool) : f a ≠ f b → a ≠ b.
Proof. congruence. Qed.

(** C5, as stated, fails on a negative price: its magnitude 5 is neither
    below 1 nor above 1000, yet the program multiplies it by 1000. *)
Lemma rescale_ignores_magnitude_of_negative :
  normalize_price (VFloat (-5)) = Ok (-5000)%float
  ∧ spec_rescale_by_magnitude (-5) = (-5)%float
  ∧ (-5000)%float ≠ (-5)%float.
Proof.
  split; [reflexivity|]. split; [reflexivity|].
  apply (float_neq _ _ (λ x, PrimFloat.ltb x (-100))). vm_compute. discriminate.
Qed.

(** C5, amended: a string price has its separators removed before it is
    parsed; the parsed value, sign included, is multiplied by 1000 when it
    is below 1, divided by 1000 when it is above 1000, and unchanged
    otherwise; on a price that is not negative this is the rescaling by
    magnitude.  The string 1234 normalizes to 1.234 and the number 0.05
    to 50. *)
Theorem normalize_price_rescales_by_value :
  (∀ s, normalize_price (VStr s)
        = (price ← py_float (VStr (str_remove "," s)); Ok (rescale_price price))
        ∧ list_ascii_of_string (str_remove "," s)
          = List.filter (λ a, negb (Ascii.eqb a ",")) (list_ascii_of_string s))
  ∧ (∀ z, normalize_price (VInt z) = (price ← float_of_Z z; Ok (rescale_price price)))
  ∧ (∀ f, normalize_price (VFloat f) = Ok (rescale_price f))
  ∧ (∀ price,
       (PrimFloat.ltb price 1 = true → rescale_price price = (price * 1000)%float)
       ∧ (PrimFloat.ltb price 1 = false → PrimFloat.ltb 1000 price = true →
          rescale_price price = (price / 1000)%float)
       ∧ (PrimFloat.ltb price 1 = false → PrimFloat.ltb 1000 price = false →
          rescale_price price = price)
       ∧ (PrimFloat.leb 0 price = true →
          rescale_price price = spec_rescale_by_magnitude price))
  ∧ normalize_price (VStr "1234") = Ok 1.234%float
  ∧ normalize_price (VStr "1,234") = Ok 1.234%float
  ∧ normalize_price (VFloat 0.05) = Ok 50%float.
Proof.
  split; [intros s; split; [reflexivity | apply str_remove_spec]|].
  split; [reflexivity|]. split; [reflexivity|].
  split; [|by vm_compute].
  intros price. unfold rescale_price.
  split; [by intros ->|]. split; [by intros -> ->|]. split; [by intros -> ->|].
  apply rescale_nonnegative.
Qed.

(** ** Absent fields *)

Lemma stage_elem test l s : s ∈ stage test l ↔ s ∈ l ∧ kept (test s) = true.
Proof.
  rewrite stage_filter, !list_elem_of_In, filter_In. done.
Qed.

Lemma dict_get_absent (s : stock) k d : s !! k = None → dict_get s k d = d.
Proof. unfold dict_get. by intros ->. Qed.

Lemma dict_get_insert_default (s : stock) k k' d d' :
  s !! k = None → (k' = k → d' = d) →
  dict_get (<[k := d]> s) k' d' = dict_get s k' d'.
Proof.
  intros Hk Hd. unfold dict_get. destruct (decide (k = k')) as [<-|Hne].
  - rewrite lookup_insert_eq, Hk. symmetry. by apply Hd.
  - by rewrite lookup_insert_ne.
Qed.

Definition scoring_fields : list string := ["f3"; "f10"; "f8"; "f6"; "f20"].

Lemma evaluate_absent_field w (s : stock) k :
  k ∈ scoring_fields → s !! k = None →
  evaluate w (<[k := VInt 0]> s) = evaluate w s.
Proof.
  intros Hk Hs. unfold evaluate, read_inputs.
  assert (Hne : k ≠ "f12").
  { intros ->. unfold scoring_fields in Hk.
    repeat (apply elem_of_cons in Hk as [Hk|Hk]; [discriminate|]).
    by apply elem_of_nil in Hk. }
  rewrite !(dict_get_insert_default s k _ (VInt 0) (VInt 0)) by done.
  rewrite (dict_get_insert_default s k "f12" (VInt 0) (VStr "")) by done.
  reflexivity.
Qed.

(** ** The score *)

Lemma same_value_refl x : same_value x x.
Proof. by left. Qed.

Lemma same_value_add x x' t : same_value x x' → same_value (x + t) (x' + t).
Proof.
  intros [->|(s & s' & Hx & Hx')]; [by left|].
  destruct (Prim2SF t) as [st|st| |st mt et] eqn:Et.
  - right. exists (if Bool.eqb s st then s else false),
                  (if Bool.eqb s' st then s' else false).
    rewrite !add_spec, Hx, Hx', Et. split; by destruct s, s', st.
  - left. apply Prim2SF_inj. by rewrite !add_spec, Hx, Hx', Et.
  - left. apply Prim2SF_inj. by rewrite !add_spec, Hx, Hx', Et.
  - left. apply Prim2SF_inj. by rewrite !add_spec, Hx, Hx', Et.
Qed.

Lemma add_zero_l x : same_value (0 + x) x.
Proof.
  destruct (Prim2SF x) as [s|s| |s m e] eqn:E.
  - right. exists false, s. split; [|done].
    rewrite add_spec, E. change (Prim2SF 0) with (S754_zero false). by destruct s.
  - left. apply Prim2SF_inj. by rewrite add_spec, E.
  - left. apply Prim2SF_inj. by rewrite add_spec, E.
  - left. apply Prim2SF_inj. by rewrite add_spec, E.
Qed.

Lemma add_zero_r x : same_value x (x + 0).
Proof.
  destruct (Prim2SF x) as [s|s| |s m e] eqn:E.
  - right. exists s, false. split; [done|].
    rewrite add_spec, E. change (Prim2SF 0) with (S754_zero false). by destruct s.
  - left. apply Prim2SF_inj. by rewrite add_spec, E.
  - left. apply Prim2SF_inj. by rewrite add_spec, E.
  - left. apply Prim2SF_inj. by rewrite add_spec, E.
Qed.

Lemma agree_refl r : agree r r.
Proof. destruct r as [[z|f]|e]; simpl; [done | by left | done]. Qed.

(** Adding the same value to two scores that agree. *)
Lemma py_iadd_agree s s' v :
  same_num s s' → agree (py_iadd s v) (py_iadd s' v).
Proof.
  unfold py_iadd. destruct (as_num v) as [n|]; [|done].
  destruct s as [x|x], s' as [x'|x']; simpl; try done.
  - intros ->. apply agree_refl.
  - intros H. destruct (num_to_float n) as [y|e]; simpl; [|done].
    by apply same_value_add.
Qed.

Lemma agree_bind r r' (k k' : pynum → result pynum) :
  agree r r' → (∀ s s', same_num s s' → agree (k s) (k' s')) →
  agree (r ≫= k) (r' ≫= k').
Proof.
  destruct r as [s|e], r' as [s'|e']; simpl; try done. intros H Hk. by apply Hk.
Qed.

Lemma same_value_trans x y z : same_value x y → same_value y z → same_value x z.
Proof.
  intros [->|(s & s' & Hx & Hy)] [->|(t & t' & Hy' & Hz)]; try by left.
  - right. by exists t, t'.
  - right. by exists s, s'.
  - right. by exists s, t'.
Qed.

Lemma float_of_Z_small :
  float_of_Z 0 = Ok 0%float ∧ float_of_Z 1 = Ok 1%float
  ∧ float_of_Z 5 = Ok 5%float ∧ float_of_Z 10 = Ok 10%float.
Proof. by vm_compute. Qed.

(** The end of the loop body against the last term of the formula. *)
Lemma bonus_agree i s s' :
  same_num s s' →
  agree (if cap_moderate i then py_iadd s (VInt 10)
         else if cap_large i then py_iadd s (VInt 5) else Ok s)
        (py_iadd s' (VInt (market_cap_bonus i))).
Proof.
  intros H. unfold market_cap_bonus.
  destruct (cap_moderate i); [by apply py_iadd_agree|].
  destruct (cap_large i); [by apply py_iadd_agree|].
  destruct s as [x|x], s' as [x'|x']; try done; unfold py_iadd; simpl in *.
  - lia.
  - eapply same_value_trans; [exact H | apply add_zero_r].
Qed.

(** The statements of the loop body after [score += base_score] and the
    first product, against the formula after [base_score + t1]. *)
Lemma accumulate_agree w i days s s' :
  same_num s s' →
  agree
    (t ← float_mul (turnover_rate i) (turnover_rate_weight w);
     score ← py_iadd s (VFloat t);
     t ← int_mul days (continuous_limit_up_weight w);
     score ← py_iadd score t;
     a ← float_mul (amount i) (amount_weight w);
     m ← py_min a (amount_max_score w);
     score ← py_iadd score m;
     if cap_moderate i then py_iadd score (VInt 10)
     else if cap_large i then py_iadd score (VInt 5)
     else Ok score)
    (t2 ← float_mul (turnover_rate i) (turnover_rate_weight w);
     s ← py_iadd s' (VFloat t2);
     t3 ← int_mul days (continuous_limit_up_weight w);
     s ← py_iadd s t3;
     a ← float_mul (amount i) (amount_weight w);
     t4 ← py_min a (amount_max_score w);
     s ← py_iadd s t4;
     py_iadd s (VInt (market_cap_bonus i))).
Proof.
  intros H.
  destruct (float_mul (turnover_rate i) _) as [t2|e]; simpl; [|done].
  apply agree_bind; [by apply py_iadd_agree|]. clear s s' H. intros s s' H.
  destruct (int_mul days _) as [t3|e]; simpl; [|done].
  apply agree_bind; [by apply py_iadd_agree|]. clear s s' H. intros s s' H.
  destruct (float_mul (amount i) _) as [a|e]; simpl; [|done].
  destruct (py_min a _) as [t4|e]; simpl; [|done].
  apply agree_bind; [by apply py_iadd_agree|]. clear s s' H. intros s s' H.
  by apply bonus_agree.
Qed.

Lemma compute_score_agrees w i days :
  agree (compute_score w i days) (spec_score w i days).
Proof.
  unfold compute_score, spec_score, py_add.
  change (py_iadd (NInt 0) (base_score w))
    with (match as_num (base_score w) with
          | Some n => num_add (NInt 0) n
          | None => Raise TypeError
          end).
  destruct (float_mul (volume_ratio i) _) as [t1|e]; simpl.
  - destruct (as_num (base_score w)) as [[z|b]|]; simpl.
    + apply agree_bind; [apply agree_refl|]. intros s s' H.
      by apply accumulate_agree.
    + apply (accumulate_agree w i days (NFloat (0 + b + t1)) (NFloat (b + t1))).
      simpl. apply same_value_add, add_zero_l.
    + done.
  - by destruct (as_num (base_score w)) as [[z|b]|].
Qed.

(** Once a float has been added the score is a float. *)
Lemma py_iadd_float_l f v s : py_iadd (NFloat f) v = Ok s → ∃ g, s = NFloat g.
Proof.
  unfold py_iadd. destruct (as_num v) as [n|]; [|done]. simpl.
  destruct (num_to_float n); simpl; [|done]. intros [= <-]. eauto.
Qed.

Lemma py_iadd_float_r s t s' : py_iadd s (VFloat t) = Ok s' → ∃ g, s' = NFloat g.
Proof.
  unfold py_iadd. simpl. destruct s as [z|f]; simpl.
  - destruct (float_of_Z z); simpl; [|done]. intros [= <-]. eauto.
  - intros [= <-]. eauto.
Qed.

Lemma bind_ok {A B} (r : result A) (k : A → result B) b :
  r ≫= k = Ok b → ∃ a, r = Ok a ∧ k a = Ok b.
Proof. destruct r; simpl; [eauto | done]. Qed.

Lemma compute_score_float w i days s :
  compute_score w i days = Ok s → ∃ f, s = NFloat f.
Proof.
  unfold compute_score. intros H.
  apply bind_ok in H as (s0 & _ & H). apply bind_ok in H as (t1 & _ & H).
  apply bind_ok in H as (s1 & H1 & H). apply py_iadd_float_r in H1 as [f1 ->].
  apply bind_ok in H as (t2 & _ & H).
  apply bind_ok in H as (s2 & H2 & H). apply py_iadd_float_l in H2 as [f2 ->].
  apply bind_ok in H as (t3 & _ & H).
  apply bind_ok in H as (s3 & H3 & H). apply py_iadd_float_l in H3 as [f3 ->].
  apply bind_ok in H as (a & _ & H). apply bind_ok in H as (m & _ & H).
  apply bind_ok in H as (s4 & H4 & H). apply py_iadd_float_l in H4 as [f4 ->].
  destruct (cap_moderate i); [by apply py_iadd_float_l in H|].
  destruct (cap_large i); [by apply py_iadd_float_l in H|].
  injection H as <-. eauto.
Qed.

(** With weights that are numbers in the range of binary64 nothing raises. *)
Lemma weight_ok_float v : weight_ok v = true → ∃ n y, as_num v = Some n ∧ num_to_float n = Ok y.
Proof.
  unfold weight_ok. destruct (as_num v) as [n|]; [|done].
  destruct (num_to_float n) as [y|] eqn:E; [|done]. intros _. by exists n, y.
Qed.

Lemma float_mul_ok x v : weight_ok v = true → ∃ y, float_mul x v = Ok y.
Proof.
  intros (n & y & Hn & Hy)%weight_ok_float. unfold float_mul.
  rewrite Hn. simpl. rewrite Hy. simpl. eauto.
Qed.

Lemma py_iadd_ok s v :
  is_ok (num_to_float s) = true → weight_ok v = true → ∃ s', py_iadd s v = Ok s'.
Proof.
  intros Hs (n & y & Hn & Hy)%weight_ok_float. unfold py_iadd. rewrite Hn.
  destruct s as [z|f], n as [z'|f']; simpl in *; eauto.
  - destruct (float_of_Z z); [|done]. simpl. eauto.
  - rewrite Hy. simpl. eauto.
Qed.

Lemma int_mul_one_ok v : weight_ok v = true → ∃ t, int_mul 1 v = Ok t ∧ weight_ok t = true.
Proof.
  intros H. destruct v as [|b|z|f|s|l|d]; try done; simpl.
  - eexists. split; [done|]. rewrite Z.mul_1_l. exact H.
  - eexists. split; [done|]. rewrite Z.mul_1_l. exact H.
  - rewrite ?(proj1 (proj2 float_of_Z_small)). simpl. eauto.
Qed.

Lemma py_min_ok a v : weight_ok v = true → ∃ m, py_min a v = Ok m ∧ weight_ok m = true.
Proof.
  intros H. pose proof H as (n & y & Hn & Hy)%weight_ok_float.
  unfold py_min. rewrite Hn. eexists. split; [done|].
  by destruct (num_ltb n (NFloat a)).
Qed.

Lemma first_add_ok v :
  weight_ok v = true →
  ∃ s, py_iadd (NInt 0) v = Ok s ∧ is_ok (num_to_float s) = true.
Proof.
  intros (n & y & Hn & Hy)%weight_ok_float. unfold py_iadd. rewrite Hn.
  destruct n as [z|f]; simpl in *.
  - eexists. split; [done|]. change (0 + z) with z.
    unfold num_to_float. by rewrite Hy.
  - rewrite ?(proj1 float_of_Z_small). simpl. eauto.
Qed.

Lemma py_iadd_lit_ok s t :
  is_ok (num_to_float s) = true → ∃ g, py_iadd s (VFloat t) = Ok (NFloat g).
Proof.
  intros H. unfold py_iadd. destruct s as [z|f]; simpl in *; [|eauto].
  destruct (float_of_Z z); [|done]. simpl. eauto.
Qed.

Lemma py_iadd_float_ok f v :
  weight_ok v = true → ∃ g, py_iadd (NFloat f) v = Ok (NFloat g).
Proof.
  intros (n & y & Hn & Hy)%weight_ok_float. unfold py_iadd. rewrite Hn.
  simpl. rewrite Hy. simpl. eauto.
Qed.

Lemma compute_score_total w i :
  weights_ok w = true → ∃ f, compute_score w i 1 = Ok (NFloat f).
Proof.
  unfold weights_ok. rewrite !andb_true_iff.
  intros [[[[[Hb Hv] Ht] Hc] Ha] Hm]. unfold compute_score.
  destruct (first_add_ok _ Hb) as (s0 & -> & H0). simpl.
  destruct (float_mul_ok (volume_ratio i) _ Hv) as [t1 ->]. simpl.
  destruct (py_iadd_lit_ok s0 t1 H0) as [f1 ->]. simpl.
  destruct (float_mul_ok (turnover_rate i) _ Ht) as [t2 ->]. simpl.
  destruct (int_mul_one_ok _ Hc) as (t3 & -> & H3). simpl.
  destruct (py_iadd_float_ok (f1 + t2) _ H3) as [f3 ->]. simpl.
  destruct (float_mul_ok (amount i) _ Ha) as [a ->]. simpl.
  destruct (py_min_ok a _ Hm) as (m & -> & H4). simpl.
  destruct (py_iadd_float_ok f3 _ H4) as [f4 ->]. simpl.
  destruct (cap_moderate i); [apply py_iadd_float_ok; by vm_compute|].
  destruct (cap_large i); [apply py_iadd_float_ok; by vm_compute|]. eauto.
Qed.

Lemma evaluate_score w s a :
  evaluate w s = Ok a →
  ∃ i, read_inputs s = Ok i ∧ an_days a = 1
       ∧ compute_score w i 1 = Ok (an_score a)
       ∧ an_reason a = build_reason i 1.
Proof.
  unfold evaluate, calculate_continuous_limit_up.
  intros (i & Hi & H)%bind_ok. apply bind_ok in H as (sc & Hs & [= <-]).
  by exists i.
Qed.

(** A record of whose scoring fields the present ones can be converted is
    read without error, and each absent field is read as 0. *)
Lemma read_inputs_absent (s : stock) :
  (∀ k v, k ∈ scoring_fields → s !! k = Some v → is_ok (py_float v) = true) →
  ∃ i, read_inputs s = Ok i
       ∧ (s !! "f10" = None → volume_ratio i = 0%float)
       ∧ (s !! "f8" = None → turnover_rate i = 0%float)
       ∧ (s !! "f6" = None → amount i = 0%float)
       ∧ (s !! "f20" = None → market_cap i = 0%float).
Proof.
  intros H.
  assert (R : ∀ k, k ∈ scoring_fields →
              ∃ x, py_float (dict_get s k (VInt 0)) = Ok x
                   ∧ (s !! k = None → x = 0%float)).
  { intros k Hk. unfold dict_get. destruct (s !! k) as [v|] eqn:E.
    - specialize (H k v Hk E). destruct (py_float v) as [x|]; [|done].
      by exists x.
    - by exists 0%float. }
  unfold scoring_fields in R.
  destruct (R "f3" ltac:(solve [repeat constructor])) as (x3 & E3 & _).
  destruct (R "f10" ltac:(solve [repeat constructor])) as (x10 & E10 & Z10).
  destruct (R "f8" ltac:(solve [repeat constructor])) as (x8 & E8 & Z8).
  destruct (R "f6" ltac:(solve [repeat constructor])) as (x6 & E6 & Z6).
  destruct (R "f20" ltac:(solve [repeat constructor])) as (x20 & E20 & Z20).
  unfold read_inputs. rewrite E3, E10, E8, E6, E20. cbn.
  eexists. split; [done|]. cbn.
  split; [done|]. split; [done|].
  split; [by intros ->%Z6 | by intros ->%Z20].
Qed.

(** C10: an absent field is read as its default and is no error.  A record
    without a price is priced 0, which the rescaling leaves at 0, and stays
    in the price stage for every positive [max_price]; a record without a
    change percent has change 0 and leaves the limit-up stage for every
    positive [min_limit_up_percent].  In scoring an absent numeric field is
    read as 0: a record whose present fields can be converted is read
    without error, the number read for each absent field is 0 (0 hundred
    millions for the amount and the float cap), and with weights that are
    numbers the record gets a score and the rationale of these numbers; the
    record scores as if the field were 0.  The record with no field at all
    scores 60 under the default weights. *)
Theorem absent_fields_are_defaulted :
  (∀ s : stock, s !! "f2" = None →
     normalize_price (dict_get s "f2" (VInt 0)) = Ok 0%float
     ∧ ∀ p l, PrimFloat.ltb 0 (max_price p) = true →
              s ∈ l → s ∈ stage (price_test p) l)
  ∧ (∀ s : stock, s !! "f3" = None →
     normalize_percent (dict_get s "f3" (VInt 0)) = Ok 0%float
     ∧ ∀ p l, PrimFloat.ltb 0 (min_limit_up_percent p) = true →
              s ∉ stage (limit_up_test p) l)
  ∧ (∀ w (s : stock) k, k ∈ scoring_fields → s !! k = None →
     py_float (dict_get s k (VInt 0)) = Ok 0%float
     ∧ evaluate w s = evaluate w (<[k := VInt 0]> s))
  ∧ (∀ s : stock,
     (∀ k v, k ∈ scoring_fields → s !! k = Some v → is_ok (py_float v) = true) →
     ∃ i, read_inputs s = Ok i
          ∧ (s !! "f10" = None → volume_ratio i = 0%float)
          ∧ (s !! "f8" = None → turnover_rate i = 0%float)
          ∧ (s !! "f6" = None → amount i = 0%float)
          ∧ (s !! "f20" = None → market_cap i = 0%float)
          ∧ ∀ w, weights_ok w = true →
                 ∃ f, evaluate w s
                      = Ok {| an_score := NFloat f;
                              an_reason := build_reason i 1; an_days := 1 |})
  ∧ read_inputs ∅
    = Ok {| volume_ratio := 0; turnover_rate := 0; amount := 0; market_cap := 0 |}
  ∧ evaluate default_weights ∅
    = Ok {| an_score := NFloat 60; an_reason := reason_fallback; an_days := 1 |}.
Proof.
  split; [|split; [|split; [|split; [|split; by vm_compute]]]].
  - intros s Hs. rewrite (dict_get_absent s _ _ Hs). split; [reflexivity|].
    intros p l Hp Hin. apply stage_elem. split; [done|].
    unfold price_test. rewrite (dict_get_absent s _ _ Hs).
    change (normalize_price (VInt 0)) with (Ok 0%float). simpl.
    by apply ltb_leb.
  - intros s Hs. rewrite (dict_get_absent s _ _ Hs). split; [reflexivity|].
    intros p l Hp [_ Hin]%stage_elem.
    unfold limit_up_test in Hin. rewrite (dict_get_absent s _ _ Hs) in Hin.
    change (normalize_percent (VInt 0)) with (Ok 0%float) in Hin. simpl in Hin.
    rewrite (ltb_not_leb _ _ Hp) in Hin. discriminate.
  - intros w s k Hk Hs. rewrite (dict_get_absent s _ _ Hs).
    split; [reflexivity|]. symmetry. by apply evaluate_absent_field.
  - intros s H. destruct (read_inputs_absent s H) as (i & Hi & H1 & H2 & H3 & H4).
    exists i. do 5 (split; [done|]).
    intros w Hw. destruct (compute_score_total w i Hw) as [f Hf]. exists f.
    unfold evaluate, calculate_continuous_limit_up. rewrite Hi. cbn.
    by rewrite Hf.
Qed.


(** ** The score as a function of the volume ratio *)

(** With float weights the formula of the specification in Python's
    arithmetic is [score_formula] over [binary64]. *)
Lemma spec_score_binary64 base w_vr w_tr w_days w_amt cap i :
  spec_score (float_weights base w_vr w_tr w_days w_amt cap) i 1
  = Ok (NFloat (score_formula binary64 base w_vr w_tr w_days w_amt cap
                  (volume_ratio i) (turnover_rate i) 1 (amount i) (market_cap i))).
Proof.
  destruct i as [vr tr amt mc].
  unfold spec_score, score_formula, formula_min, formula_bonus, float_weights,
    market_cap_bonus, cap_moderate, cap_large, py_min, py_add, py_iadd, float_mul,
    int_mul, num_add, as_num, num_to_float.
  cbn [base_score volume_ratio_weight turnover_rate_weight continuous_limit_up_weight
       amount_weight amount_max_score volume_ratio turnover_rate amount market_cap
       mbind result_bind ar_add ar_mul ar_ltb ar_leb ar_of_Z binary64 num_ltb].
  change (float_of_Z 1) with (Ok 1%float).
  change (SF2Prim (binary_normalize prec emax 1 0 false)) with 1%float.
  change (SF2Prim (binary_normalize prec emax 10 0 false)) with 10%float.
  change (SF2Prim (binary_normalize prec emax 50 0 false)) with 50%float.
  change (SF2Prim (binary_normalize prec emax 100 0 false)) with 100%float.
  cbn [mbind result_bind].
  destruct (PrimFloat.ltb cap (amt * w_amt));
    destruct (PrimFloat.leb 10 mc && PrimFloat.leb mc 50);
    try destruct (PrimFloat.ltb 50 mc && PrimFloat.leb mc 100);
    reflexivity.
Qed.


(** With float weights the loop body computes [score_formula] over
    [binary64]. *)
Lemma compute_score_binary64 base w_vr w_tr w_days w_amt cap i :
  agree (compute_score (float_weights base w_vr w_tr w_days w_amt cap) i 1)
        (Ok (NFloat (score_formula binary64 base w_vr w_tr w_days w_amt cap
                       (volume_ratio i) (turnover_rate i) 1 (amount i) (market_cap i)))).
Proof. rewrite <- spec_score_binary64. apply compute_score_agrees. Qed.

(** Over exact rational arithmetic the formula is strictly increasing in
    the volume ratio; the rounding of binary64 keeps the order but not the
    strictness, as the rest of this part shows. *)
Lemma exact_formula_monotone (base w_vr w_tr w_days w_amt cap vr vr' tr amt mc : Q) days :
  (0 < w_vr)%Q → (vr < vr')%Q →
  (score_formula exact base w_vr w_tr w_days w_amt cap vr tr days amt mc
   < score_formula exact base w_vr w_tr w_days w_amt cap vr' tr days amt mc)%Q.
Proof.
  intros Hw Hv. unfold score_formula. cbn [ar_add ar_mul exact].
  do 4 apply Qplus_lt_l. apply Qplus_lt_r. by apply Qmult_lt_r.
Qed.

(** A finite float is a zero or has a mantissa and an exponent. *)
Lemma is_finite_spec x :
  PrimFloat.is_finite x = true →
  (∃ s, Prim2SF x = S754_zero s) ∨ (∃ s m e, Prim2SF x = S754_finite s m e).
Proof.
  unfold PrimFloat.is_finite. rewrite negb_true_iff, orb_false_iff.
  intros [Hn Hi]. apply not_nan_spec in Hn.
  unfold PrimFloat.is_infinity in Hi.
  rewrite FloatAxioms.eqb_spec, abs_spec in Hi.
  destruct (Prim2SF x) as [s|s| |s m e]; [eauto | | done | eauto 6].
  exfalso. revert Hi. by vm_compute.
Qed.

(** ** Rounding to nearest, ties to even, on integers

    The sums and products of [compute_score] are rounded.  To show that the
    score does not decrease with the volume ratio, the rounding of
    [SpecFloat] is related to a rounding function on integers that is
    monotone. *)






(** ** Rounding to binary64 on scaled integers

    A finite binary64 number, and an exact sum or product of two, is an
    integer multiple of [2^(-scale)]: it is represented by that integer. *)

Definition scale : Z := 2200.

Lemma fexp_eq e : fexp prec emax e = Z.max (e - 53) (-1074).
Proof. reflexivity. Qed.

Lemma digits2_pos_bounds m :
  2 ^ (Z.pos (digits2_pos m) - 1) ≤ Z.pos m < 2 ^ Z.pos (digits2_pos m).
Proof.
  induction m as [m IH|m IH|]; cbn [digits2_pos]; [| |simpl; lia];
    rewrite Pos2Z.inj_succ;
    set (d := Z.pos (digits2_pos m)) in *;
    assert (E1 : 2 ^ (Z.succ d - 1) = 2 * 2 ^ (d - 1))
      by (rewrite <- Z.pow_succ_r by lia; f_equal; lia);
    assert (E2 : 2 ^ Z.succ d = 2 * 2 ^ d) by (apply Z.pow_succ_r; lia);
    rewrite E1, E2; lia.
Qed.













(** ** The shifts of [binary_round_aux] *)















(** ** Finite floats as scaled integers *)

Definition fval (x : spec_float) : Z :=
  match x with
  | S754_finite s m e => cond_Zopp s (Z.pos m * 2 ^ (e + scale))
  | _ => 0
  end.

Definition sf_finite (x : spec_float) : bool :=
  match x with
  | S754_zero _ | S754_finite _ _ _ => true
  | _ => false
  end.

Lemma valid_finite_bounds s m e :
  valid_binary (S754_finite s m e) = true →
  -1074 ≤ e ∧ Z.pos (digits2_pos m) ≤ 53
  ∧ (e = -1074 ∨ Z.pos (digits2_pos m) = 53).
Proof.
  unfold valid_binary, bounded, canonical_mantissa.
  rewrite andb_true_iff, Z.eqb_eq, fexp_eq. lia.
Qed.

Lemma pow2_scaled_pos e : -1074 ≤ e → 0 < 2 ^ (e + scale).
Proof. intros H. apply Z.pow_pos_nonneg; unfold scale; lia. Qed.

(** On canonical mantissas the order by exponent, then mantissa, is the
    order of the values. *)
Lemma canonical_lt m1 e1 m2 e2 :
  valid_binary (S754_finite false m1 e1) = true →
  valid_binary (S754_finite false m2 e2) = true →
  e1 < e2 ∨ (e1 = e2 ∧ Z.pos m1 < Z.pos m2) →
  Z.pos m1 * 2 ^ (e1 + scale) < Z.pos m2 * 2 ^ (e2 + scale).
Proof.
  intros (L1 & D1 & _)%valid_finite_bounds (L2 & D2 & C2)%valid_finite_bounds H.
  pose proof (pow2_scaled_pos e1 L1) as P1.
  destruct H as [H|[-> H]]; [|nia].
  destruct C2 as [C2|C2]; [lia|].
  pose proof (digits2_pos_bounds m1) as [_ U1].
  pose proof (digits2_pos_bounds m2) as [B2 _]. rewrite C2 in B2.
  assert (U : Z.pos m1 < 2 ^ 53).
  { assert (2 ^ Z.pos (digits2_pos m1) ≤ 2 ^ 53) by (apply Z.pow_le_mono_r; lia). lia. }
  assert (E : 2 ^ (e2 + scale) = 2 ^ (e2 - e1 - 1) * (2 * 2 ^ (e1 + scale))).
  { rewrite <- Z.pow_succ_r by (unfold scale; lia).
    rewrite <- Z.pow_add_r by (unfold scale; lia). f_equal. lia. }
  rewrite E.
  assert (0 < 2 ^ (e2 - e1 - 1)) by (apply Z.pow_pos_nonneg; lia).
  change (2 ^ (53 - 1)) with (2 ^ 52) in B2. change (2 ^ 53) with (2 * 2 ^ 52) in U.
  nia.
Qed.

Lemma fval_key_lt x y :
  valid_binary x = true → valid_binary y = true →
  sf_finite x = true → sf_finite y = true →
  key_lt (sf_key x) (sf_key y) ↔ fval x < fval y.
Proof.
  intros Vx Vy Fx Fy.
  destruct x as [sx|sx| |sx mx ex], y as [sy|sy| |sy my ey]; try done.
  - simpl. lia.
  - pose proof (valid_finite_bounds _ _ _ Vy) as (Ly & _).
    pose proof (pow2_scaled_pos ey Ly). destruct sy; simpl; split; lia.
  - pose proof (valid_finite_bounds _ _ _ Vx) as (Lx & _).
    pose proof (pow2_scaled_pos ex Lx). destruct sx; simpl; split; lia.
  - pose proof (valid_finite_bounds _ _ _ Vx) as (Lx & _).
    pose proof (valid_finite_bounds _ _ _ Vy) as (Ly & _).
    pose proof (pow2_scaled_pos ex Lx). pose proof (pow2_scaled_pos ey Ly).
    assert (T : ex < ey ∨ (ex = ey ∧ Z.pos mx < Z.pos my)
                ∨ (ex = ey ∧ mx = my)
                ∨ ey < ex ∨ (ey = ex ∧ Z.pos my < Z.pos mx)) by lia.
    pose proof (canonical_lt mx ex my ey Vx Vy) as A.
    pose proof (canonical_lt my ey mx ex Vy Vx) as B.
    destruct sx, sy; cbn [sf_key key_lt fval cond_Zopp];
      destruct T as [T|[T|[[-> ->]|T]]]; split; intros K; try lia;
      try (specialize (A ltac:(lia)); lia); try (specialize (B ltac:(lia)); lia).
Qed.

(** ** The values of sums and products *)











(** ** Rounding gives canonical floats *)






(** ** Binary64 addition and multiplication are monotone *)

Definition float_value (x : float) : Z := fval (Prim2SF x).

(** [x] is a zero or a finite number. *)
Definition finite_float (x : float) : Prop := sf_finite (Prim2SF x) = true.


Lemma finite_float_not_nan x : finite_float x → PrimFloat.is_nan x = false.
Proof. unfold finite_float. intros H. apply not_nan_spec. by destruct (Prim2SF x). Qed.


Lemma ltb_value x y :
  finite_float x → finite_float y → PrimFloat.ltb x y = true ↔ float_value x < float_value y.
Proof.
  intros Fx Fy. rewrite (ltb_key _ _ (finite_float_not_nan _ Fx) (finite_float_not_nan _ Fy)).
  unfold float_key, float_value.
  by rewrite fval_key_lt by (apply Prim2SF_valid || done).
Qed.






(** ** The score does not decrease with the volume ratio *)


Lemma float_mul_inv x w t :
  float_mul x w = Ok t →
  ∃ n y, as_num w = Some n ∧ num_to_float n = Ok y
         ∧ ∀ x', float_mul x' w = Ok (x' * y)%float.
Proof.
  unfold float_mul. destruct (as_num w) as [n|]; [|done].
  destruct (num_to_float n) as [y|] eqn:E; [|done]. intros _. by exists n, y.
Qed.

(** Adding a float to the score: the score is converted, if it is an int. *)
Lemma py_iadd_lit_inv s t r :
  py_iadd s (VFloat t) = Ok r →
  ∃ x, ∀ t', py_iadd s (VFloat t') = Ok (NFloat (x + t')).
Proof.
  unfold py_iadd. cbn [as_num]. destruct s as [z|a]; simpl.
  - destruct (float_of_Z z) as [x|]; [|done]. intros _. by exists x.
  - intros _. by exists a.
Qed.

(** Adding to a float score. *)
Lemma py_iadd_float_inv a v r :
  py_iadd (NFloat a) v = Ok r →
  ∃ y, ∀ b, py_iadd (NFloat b) v = Ok (NFloat (b + y)).
Proof.
  unfold py_iadd. destruct (as_num v) as [n|]; [|done]. simpl.
  destruct (num_to_float n) as [y|]; [|done]. intros _. by exists y.
Qed.






(** ** The rationale *)

Lemma build_reason_spec i days : build_reason i days = spec_reason i days.
Proof.
  unfold build_reason, spec_reason, spec_clauses, append_if, cap_moderate.
  destruct (PrimFloat.ltb 1.5 (volume_ratio i)), (PrimFloat.ltb 3 (turnover_rate i)),
    (1 <? days), (PrimFloat.leb 10 (market_cap i) && PrimFloat.leb (market_cap i) 50),
    (PrimFloat.ltb 5 (amount i)); reflexivity.
Qed.

Lemma sign_text_assoc s a b : sign_text s +:+ a +:+ b = (sign_text s +:+ a) +:+ b.
Proof. by destruct s. Qed.

Lemma format_2f_two_decimals x :
  PrimFloat.is_finite x = true → two_decimals (format_2f x).
Proof.
  intros [[s E]|(s & m & e & E)]%is_finite_spec; unfold format_2f; rewrite E.
  - exists (sign_text s +:+ "0"), 0, 0. split; [by destruct s | lia].
  - set (h := hundredths m e).
    exists (sign_text s +:+ pretty (h / 100)), (h `mod` 100 / 10), ((h `mod` 100) `mod` 10).
    split; [apply sign_text_assoc|].
    pose proof (Z.mod_pos_bound h 100 eq_refl) as Hh.
    pose proof (Z.mod_pos_bound (h `mod` 100) 10 eq_refl).
    split; [|lia]. split; [apply Z.div_pos; lia|].
    apply Z.lt_succ_r, Z.div_lt_upper_bound; lia.
Qed.

Lemma format_2f_finite_float x : finite_float x → two_decimals (format_2f x).
Proof.
  unfold finite_float, format_2f. destruct (Prim2SF x) as [s|s| |s m e]; try done; intros _.
  - exists (sign_text s +:+ "0"), 0, 0. split; [by destruct s | lia].
  - set (h := hundredths m e).
    exists (sign_text s +:+ pretty (h / 100)), (h `mod` 100 / 10), ((h `mod` 100) `mod` 10).
    split; [apply sign_text_assoc|].
    pose proof (Z.mod_pos_bound h 100 eq_refl) as Hh.
    pose proof (Z.mod_pos_bound (h `mod` 100) 10 eq_refl).
    split; [|lia]. split; [apply Z.div_pos; lia|].
    apply Z.lt_succ_r, Z.div_lt_upper_bound; lia.
Qed.

(** A number above another one is finite or the positive infinity. *)
Lemma ltb_finite_or_infinity t x :
  PrimFloat.ltb t x = true → finite_float x ∨ x = infinity.
Proof.
  rewrite ltb_spec. unfold finite_float.
  destruct (Prim2SF x) as [s|[|]| |s m e] eqn:E; try (by left).
  - by destruct (Prim2SF t) as [?|[|]| |[|] ? ?].
  - intros _. right. by apply Prim2SF_inj.
  - by destruct (Prim2SF t) as [?|?| |? ? ?].
Qed.

Lemma leb_between_finite a x b :
  finite_float a → finite_float b →
  PrimFloat.leb a x && PrimFloat.leb x b = true → finite_float x.
Proof.
  unfold finite_float. rewrite andb_true_iff, !leb_spec.
  destruct (Prim2SF x) as [s|[|]| |s m e] eqn:E; try done.
  - intros Ha _ [H _]. by destruct (Prim2SF a) as [?|[|]| |[|] ? ?].
  - intros _ Hb [_ H]. by destruct (Prim2SF b) as [?|[|]| |[|] ? ?].
  - intros Ha _ [H _]. by destruct (Prim2SF a) as [?|[|]| |[|] ? ?].
Qed.

Lemma inf_not_two_decimals : ¬ two_decimals "inf".
Proof.
  intros (w & d1 & d2 & E & _).
  destruct w as [|a [|b [|c [|d w]]]]; cbn [String.app] in E;
    repeat (injection E as ? E; try discriminate); try discriminate.
Qed.

(** C8: the rationale is the triggered clauses, in the fixed order volume
    ratio above 1.5, turnover rate above 3, more than one limit-up day,
    float cap in [10, 50], turnover amount above 5, joined by the fixed
    separator, or the fallback text when no clause is triggered; each
    numeric clause embeds its number through [format_2f].  A number that
    triggers a clause is never NaN; it is written with two decimal digits
    when it is finite, which the float cap of a triggered clause always is,
    and as inf when it is the positive infinity, which can trigger each of
    the other three numeric clauses. *)
Theorem rationale_joins_triggered_clauses_of_numbers :
  (∀ i days, build_reason i days = spec_reason i days)
  ∧ (∀ w s a, evaluate w s = Ok a →
       ∃ i, read_inputs s = Ok i ∧ an_reason a = spec_reason i 1)
  ∧ (∀ i, clause_volume i = "量比高(" +:+ format_2f (volume_ratio i) +:+ ")"
          ∧ clause_turnover i = "换手率高(" +:+ format_2f (turnover_rate i) +:+ "%)"
          ∧ clause_cap i = "流通市值适中(" +:+ format_2f (market_cap i) +:+ "亿)"
          ∧ clause_amount i = "成交活跃(" +:+ format_2f (amount i) +:+ "亿)")
  ∧ (∀ x, PrimFloat.is_finite x = true → two_decimals (format_2f x))
  ∧ (∀ t x, PrimFloat.ltb t x = true →
       two_decimals (format_2f x) ∨ (x = infinity ∧ format_2f x = "inf"))
  ∧ (∀ i, PrimFloat.leb 10 (market_cap i) && PrimFloat.leb (market_cap i) 50 = true →
       two_decimals (format_2f (market_cap i)))
  ∧ format_2f 2.675 = "2.67" ∧ format_2f 0.125 = "0.12" ∧ format_2f 6 = "6.00"
  ∧ (∀ i, PrimFloat.ltb 1.5 (volume_ratio i) = false →
          PrimFloat.ltb 3 (turnover_rate i) = false →
          PrimFloat.leb 10 (market_cap i) && PrimFloat.leb (market_cap i) 50 = false →
          PrimFloat.ltb 5 (amount i) = false →
          spec_reason i 1 = reason_fallback).
Proof.
  split; [apply build_reason_spec|]. split; [|split; [done|]].
  - intros w s a (i & Hi & _ & _ & Hr)%evaluate_score. exists i.
    by rewrite Hr, build_reason_spec.
  - split; [apply format_2f_two_decimals|]. split; [|split].
    + intros t x [H| ->]%ltb_finite_or_infinity.
      * left. by apply format_2f_finite_float.
      * right. split; [done | by vm_compute].
    + intros i H. apply format_2f_finite_float.
      by apply (leb_between_finite 10 _ 50).
    + do 3 (split; [by vm_compute|]).
      intros i H1 H2 H3 H4. unfold spec_reason, spec_clauses.
      by rewrite H1, H2, H3, H4.
Qed.

(** C8, as the claim words it, fails for a number that is infinite: the
    text inf is a float for Python, is above 1.5, and the volume clause
    writes it as inf, without decimal places. *)
Lemma infinite_ratio_is_written_inf :
  evaluate default_weights infinite_ratio_candidate
  = Ok {| an_score := NFloat infinity;
          an_reason := "量比高(inf)、换手率高(4.00%)、流通市值适中(30.00亿)、成交活跃(6.00亿)";
          an_days := 1 |}
  ∧ format_2f infinity = "inf"
  ∧ ¬ two_decimals "inf".
Proof. split; [by vm_compute|]. split; [by vm_compute|]. apply inf_not_two_decimals. Qed.

(** ** Ranking *)

Lemma comparable_spec s :
  comparable s = true →
  ∃ f, score_key s = Some (NFloat f) ∧ PrimFloat.is_nan f = false.
Proof.
  unfold comparable. destruct (score_key s) as [[z|f]|]; try done.
  rewrite negb_true_iff. eauto.
Qed.

Lemma score_lt_asym a b :
  comparable a = true → comparable b = true →
  score_lt a b = true → score_lt b a = false.
Proof.
  intros (x & Ha & Hx)%comparable_spec (y & Hb & Hy)%comparable_spec.
  unfold score_lt. rewrite Ha, Hb. simpl. intros H.
  apply (ltb_key _ _ Hx Hy) in H.
  destruct (PrimFloat.ltb y x) eqn:E; [|done].
  apply (ltb_key _ _ Hy Hx) in E.
  contradiction (key_lt_irrefl _ (key_lt_trans _ _ _ H E)).
Qed.

Lemma ltb_false_key a b :
  PrimFloat.is_nan a = false → PrimFloat.is_nan b = false →
  PrimFloat.ltb a b = false ↔ ¬ key_lt (float_key a) (float_key b).
Proof.
  intros Ha Hb. rewrite <- (ltb_key a b Ha Hb).
  destruct (PrimFloat.ltb a b); split; congruence.
Qed.

Lemma score_lt_neg_trans a b c :
  comparable a = true → comparable b = true → comparable c = true →
  score_lt a b = false → score_lt b c = false → score_lt a c = false.
Proof.
  intros (x & Ha & Hx)%comparable_spec (y & Hb & Hy)%comparable_spec
         (z & Hc & Hz)%comparable_spec.
  unfold score_lt. rewrite Ha, Hb, Hc. simpl.
  rewrite !ltb_false_key by done. intros H1 H2 H3.
  destruct (key_lt_total (float_key x) (float_key y)) as [K|[K|K]]; [done| |].
  - rewrite K in H3. done.
  - destruct (key_lt_total (float_key y) (float_key z)) as [L|[L|L]]; [done| |].
    + rewrite L in K. exact (key_lt_irrefl _ (key_lt_trans _ _ _ H3 K)).
    + exact (key_lt_irrefl _ (key_lt_trans _ _ _ H3 (key_lt_trans _ _ _ L K))).
Qed.

Lemma eqb_not_nan a b :
  PrimFloat.eqb a b = true → PrimFloat.is_nan a = false ∧ PrimFloat.is_nan b = false.
Proof.
  rewrite FloatAxioms.eqb_spec. unfold SFeqb. intros H.
  split; apply not_nan_spec; intros E; rewrite E in H; [done|].
  by destruct (Prim2SF a).
Qed.

(** Two records with the score [v] are not below each other. *)
Lemma has_score_class v a b :
  has_score v a = true → has_score v b = true → score_lt a b = false.
Proof.
  unfold has_score, score_lt.
  destruct (score_key a) as [[?|x]|]; try done.
  destruct (score_key b) as [[?|y]|]; try done. simpl.
  intros Hx Hy.
  destruct (eqb_not_nan _ _ Hx) as [Nx Nv], (eqb_not_nan _ _ Hy) as [Ny _].
  apply (eqb_key _ _ Nx Nv) in Hx. apply (eqb_key _ _ Ny Nv) in Hy.
  apply ltb_false_key; [done|done|]. rewrite Hx, Hy. apply key_lt_irrefl.
Qed.

Lemma sort_by_score_stable v l :
  List.filter (has_score v) (sort_by_score l) = List.filter (has_score v) l.
Proof. apply sort_desc_stable, has_score_class. Qed.

Lemma score_not_lt_ge a b :
  comparable a = true → comparable b = true → score_lt a b = false → score_ge a b.
Proof.
  intros (x & Ha & Hx)%comparable_spec (y & Hb & Hy)%comparable_spec.
  unfold score_lt, score_ge. rewrite Ha, Hb. simpl. intros H.
  exists x, y. split; [done|]. split; [done|].
  apply (leb_key _ _ Hy Hx). by apply ltb_false_key.
Qed.

Lemma StronglySorted_weaken {A} (R R' : A → A → Prop) (ok : A → Prop) l :
  (∀ a b, ok a → ok b → R a b → R' a b) →
  Forall ok l → StronglySorted R l → StronglySorted R' l.
Proof.
  intros HR Hl Hs. induction Hs as [|x l Hs IH Hx]; [constructor|].
  apply Forall_cons in Hl as [Hox Hl]. constructor; [by apply IH|].
  rewrite Forall_forall in Hx, Hl. apply Forall_forall. intros y Hy. auto.
Qed.

Lemma sort_by_score_sorted l :
  scores_comparable l = true → StronglySorted score_ge (sort_by_score l).
Proof.
  intros H. unfold scores_comparable in H. rewrite forallb_forall in H.
  assert (Hl : Forall (λ s, comparable s = true) l).
  { apply Forall_forall. intros s Hs. by apply H, list_elem_of_In. }
  apply (StronglySorted_weaken (λ a b, score_lt a b = false) _
           (λ s, comparable s = true)).
  - intros a b. apply score_not_lt_ge.
  - unfold sort_by_score. by rewrite sort_desc_perm.
  - apply (sort_desc_sorted score_lt (λ s, comparable s = true));
      [apply score_lt_asym | apply score_lt_neg_trans | done].
Qed.

Lemma slice_to_take {A} (l : list A) n :
  0 ≤ n → slice_to l n = take (Z.to_nat n) l.
Proof. intros H. unfold slice_to. by rewrite (proj2 (Z.leb_le 0 n) H). Qed.

Lemma filter_take_prefix {A} (P : A → bool) n (l : list A) :
  List.filter P (take n l) `prefix_of` List.filter P l.
Proof.
  exists (List.filter P (drop n l)).
  by rewrite <- List.filter_app, take_drop.
Qed.

(** C6: the ranking is the sort by score, cut to [top_n].  For every list
    of records and a [top_n] that is not negative it has
    [min (length l) top_n] records and is a prefix of the sorted list, which
    permutes the input; a list of at most [top_n] records is returned
    whole.  When every score is a number (no NaN), the sorted list is in
    descending order of score, the records with one score [v] stand in it
    in their input order, and those of them in the ranking are the first of
    these. *)
Theorem rank_is_sorted_prefix_stable_without_nan (l : list stock) (top_n : Z) :
  0 ≤ top_n →
  (length (rank l top_n) = Nat.min (length l) (Z.to_nat top_n)
   ∧ rank l top_n `prefix_of` sort_by_score l
   ∧ sort_by_score l ≡ₚ l
   ∧ ((length l ≤ Z.to_nat top_n)%nat →
      rank l top_n = sort_by_score l ∧ length (rank l top_n) = length l))
  ∧ (scores_comparable l = true →
     StronglySorted score_ge (sort_by_score l)
     ∧ ∀ v, List.filter (has_score v) (sort_by_score l) = List.filter (has_score v) l
            ∧ List.filter (has_score v) (rank l top_n)
              `prefix_of` List.filter (has_score v) l).
Proof.
  intros Hn. unfold rank. rewrite (slice_to_take _ _ Hn).
  split; [split; [|split; [|split]]|].
  - rewrite length_take. unfold sort_by_score. rewrite sort_desc_length. lia.
  - apply prefix_take.
  - apply sort_desc_perm.
  - intros Hlen.
    assert (E : take (Z.to_nat top_n) (sort_by_score l) = sort_by_score l).
    { apply take_ge. unfold sort_by_score. rewrite sort_desc_length. lia. }
    rewrite E. split; [done|]. apply sort_desc_length.
  - intros Hl. split; [by apply sort_by_score_sorted|].
    intros v. split; [apply sort_by_score_stable|].
    rewrite <- (sort_by_score_stable v l). apply filter_take_prefix.
Qed.

Lemma rank_is_sorted_prefix_stable_without_nan_witness :
  (length (rank ranked_sample 2) = Nat.min (length ranked_sample) (Z.to_nat 2)
   ∧ rank ranked_sample 2 `prefix_of` sort_by_score ranked_sample
   ∧ StronglySorted score_ge (sort_by_score ranked_sample)
   ∧ map symbol (rank ranked_sample 2) = [VStr "600000"; VStr "600001"])
  ∧ length (rank nan_ranked_sample 5) = length nan_ranked_sample.
Proof.
  assert (H0 : 0 ≤ 2) by lia. assert (H5 : 0 ≤ 5) by lia.
  destruct (rank_is_sorted_prefix_stable_without_nan ranked_sample 2 H0)
    as ((H1 & H2 & _) & H3).
  destruct (H3 eq_refl) as [H4 _].
  destruct (rank_is_sorted_prefix_stable_without_nan nan_ranked_sample 5 H5)
    as ((_ & _ & _ & H6) & _).
  split; [|apply H6; simpl; lia].
  split; [exact H1|]. split; [exact H2|]. split; [exact H4|]. reflexivity.
Defined.

(** C6, as the claim words it, fails for a score that is NaN and for a
    negative [top_n].  No [<] holds against NaN, so the sort leaves the
    scores 70, NaN, 103 as they stand and the ranking of one record is the
    record with 70, although 103 is in the list.  A [top_n] of -1 cuts the
    last record off: two of three records, not [min 3 (-1)]. *)
Lemma nan_score_breaks_descending_order :
  map (λ s, s !! "score") nan_ranked_sample
  = [Some (VFloat 70); Some (VFloat nan); Some (VFloat 103)]
  ∧ map symbol nan_ranked_sample = [VStr "600001"; VStr "600004"; VStr "600000"]
  ∧ map symbol (sort_by_score nan_ranked_sample)
    = [VStr "600001"; VStr "600004"; VStr "600000"]
  ∧ map symbol (rank nan_ranked_sample 1) = [VStr "600001"]
  ∧ PrimFloat.ltb 70 103 = true
  ∧ scores_comparable nan_ranked_sample = false
  ∧ length (rank ranked_sample (-1)) = 2%nat.
Proof. repeat split; by vm_compute. Qed.

(** ** [score_stocks] *)

Lemma annotate_other s a k : k ∉ annotation_keys → annotate s a !! k = s !! k.
Proof.
  intros Hk. unfold annotation_keys in Hk.
  rewrite !not_elem_of_cons in Hk. destruct Hk as (H1 & H2 & H3 & _).
  unfold annotate. by rewrite !lookup_insert_ne by done.
Qed.

Lemma annotate_fields s a :
  annotate s a !! "score" = Some (num_val (an_score a))
  ∧ annotate s a !! "reason" = Some (VStr (an_reason a))
  ∧ annotate s a !! "continuous_limit_up" = Some (VInt (an_days a)).
Proof.
  unfold annotate. split; [|split].
  - rewrite lookup_insert_ne by done. rewrite lookup_insert_ne by done.
    apply lookup_insert_eq.
  - rewrite lookup_insert_ne by done. apply lookup_insert_eq.
  - apply lookup_insert_eq.
Qed.




(** A record whose body raises ends the loop: no record is returned. *)
Lemma score_loop_raises w l :
  Exists (λ s, is_ok (evaluate w s) = false) l → is_ok (score_loop w l) = false.
Proof.
  induction 1 as [s l Hs|s l Hl IH]; simpl; unfold score_one.
  - by destruct (evaluate w s).
  - destruct (evaluate w s); [|done]. simpl.
    by destruct (score_loop w l).
Qed.




(** ** Records that cannot be read *)

(** In a filter stage a record whose test raises is left out and the
    other records are kept or dropped as without it. *)
Lemma stage_skips_raising test l1 s l2 e :
  test s = Raise e → stage test (l1 ++ s :: l2) = (stage test l1 ++ stage test l2)%list.
Proof.
  intros H. rewrite !stage_filter, List.filter_app. simpl. by rewrite H.
Qed.

Lemma score_stocks_raises c w l :
  read_weights (cfg_score c) = Ok w →
  Exists (λ s, is_ok (evaluate w s) = false) l →
  is_ok (score_stocks c l) = false.
Proof.
  intros Hw Hl. pose proof (score_loop_raises w l Hl) as H.
  destruct l as [|s l]; [by apply Exists_nil in Hl|].
  unfold score_stocks. rewrite Hw. simpl. simpl in H.
  by destruct (s' ← score_one w s; rest' ← score_loop w l; Ok (s' :: rest')).
Qed.

(** C3 fails in the scoring stage.  The filter reads the change percent
    10.5% as 10.5 and keeps the record, and it drops a record whose price
    cannot be read; [score_stocks] then calls [float] on the same text
    10.5% outside any [try], so the exception ends the scoring and the run
    of a list in which every other record is sound.  The same happens for
    a record that passes the filter and has no volume ratio (the text -). *)
Theorem unparsable_percent_aborts_scoring :
  filter_stocks default_config [scenario_candidate; percent_text_candidate]
  = [scenario_candidate; percent_text_candidate]
  ∧ filter_stocks default_config [scenario_candidate; unpriced_candidate]
    = [scenario_candidate]
  ∧ score_stocks default_config [scenario_candidate; percent_text_candidate]
    = Raise ValueError
  ∧ run default_config [scenario_candidate; percent_text_candidate]
    = Raise ValueError
  ∧ filter_stocks default_config [scenario_candidate; no_ratio_candidate]
    = [scenario_candidate; no_ratio_candidate]
  ∧ run default_config [scenario_candidate; no_ratio_candidate] = Raise ValueError
  ∧ is_ok (run default_config [scenario_candidate]) = true.
Proof. repeat split; by vm_compute. Qed.

(** ** Validation of the configuration *)

Lemma try_steps_invariant {S} (P : S → Prop) (steps : list (S → result S)) s :
  Forall (λ step, ∀ a b, step a = Ok b → P a → P b) steps →
  P s → P (try_steps steps s).
Proof.
  intros H. revert s. induction H as [|step steps Hstep Hsteps IH]; intros s Hs.
  - done.
  - simpl. destruct (step s) as [s'|e] eqn:E; [|done]. eauto.
Qed.

Lemma check_score_key_id key c c' : check_score_key key c = Ok c' → c' = c.
Proof.
  unfold check_score_key, dict_item.
  destruct (cfg_score c !! key) as [v|] eqn:E; simpl; [|done].
  destruct (negb (is_number v) || num_lt0 v); [|by intros [= <-]].
  intros [= <-]. destruct c as [f s o]. simpl in *. f_equal.
  by apply insert_id.
Qed.

(** The loop over the score keys assigns each value to itself: the score
    group leaves the validation as it entered it. *)
Lemma validate_keeps_score_group c : cfg_score (_validate_config c) = cfg_score c.
Proof.
  unfold _validate_config.
  apply (try_steps_invariant (λ c', cfg_score c' = cfg_score c)); [|done].
  unfold validate_steps. rewrite !Forall_app. split; [|split].
  - repeat constructor; intros a b; unfold on_filter;
      (destruct (check_key _ _ _ _); [|done]); by intros [= <-].
  - apply Forall_forall. intros step (key & -> & _)%list_elem_of_fmap a b H.
    by rewrite (check_score_key_id _ _ _ H).
  - repeat constructor; intros a b; unfold on_output;
      (destruct (check_key _ _ _ _); [|done]); by intros [= <-].
Qed.

(** C4 fails for the score group.  Validation replaces an invalid value of
    the filter and output groups by its default, but it never changes a
    score weight: a negative base score and a base score that is a text
    both pass, and with the text the scoring raises, which ends the run
    without a result. *)
Theorem invalid_score_weight_survives_validation :
  (∀ c, cfg_score (_validate_config c) = cfg_score c)
  ∧ cfg_score (_validate_config (with_score_value "base_score" (VInt (-5)) default_config))
      !! "base_score" = Some (VInt (-5))
  ∧ cfg_score (_validate_config (with_score_value "base_score" (VStr "high") default_config))
      !! "base_score" = Some (VStr "high")
  ∧ run (_validate_config (with_score_value "base_score" (VStr "high") default_config))
      [scenario_candidate] = Raise TypeError
  ∧ cfg_filter (_validate_config (with_filter_value "max_price" (VInt (-5)) default_config))
      !! "max_price" = Some (VInt 40)
  ∧ cfg_output (_validate_config (with_output_value "top_count" (VInt (-5)) default_config))
      !! "top_count" = Some (VInt 10).
Proof. split; [apply validate_keeps_score_group|]. repeat split; by vm_compute. Qed.

(** ** The statements above at sample inputs *)

Lemma filter_stocks_output_satisfies_stages_in_force_witness :
  let c := with_filter_value "exclude_st" (VBool false) default_config in
  exclude_st (effective_params (cfg_filter c)) = false
  ∧ stock_prefix (effective_params (cfg_filter c)) = [VStr "0"; VStr "6"]
  ∧ st_candidate ∈ filter_stocks c [scenario_candidate; st_candidate].
Proof.
  intros c.
  destruct (filter_stocks_output_satisfies_stages_in_force c
              [scenario_candidate; st_candidate]) as (R & _ & _ & E).
  destruct (R 40%float 9.5%float eq_refl eq_refl) as (_ & _ & Hst & _ & Hp).
  split; [exact Hst|]. split; [exact Hp|].
  apply E; [exact Hst| |reflexivity| |reflexivity|reflexivity].
  - apply list_elem_of_In. right. left. reflexivity.
  - reflexivity.
Defined.

(** C1, as the claim words it, fails: both configurations pass
    [_validate_config] unchanged in these values, yet the ceiling 10^400
    cannot be converted, so that the default parameters are in force.  Under
    the configured prefix 3 the record 600000 is output; with [exclude_st]
    off and the prefix 6 the record 600004, named ST, is dropped, although
    it passes every stage when the ceiling can be read. *)
Lemma configured_stages_not_applied :
  (let c := _validate_config prefix_3_config in
   dict_get (cfg_filter c) "stock_prefix" VNone = VList [VStr "3"]
   ∧ dict_get (cfg_filter c) "max_price" VNone = VInt (10 ^ 400)
   ∧ filter_stocks c [scenario_candidate; st_candidate] = [scenario_candidate]
   ∧ dict_get scenario_candidate "f12" (VStr "") = VStr "600000"
   ∧ startswith "600000" "3" = false)
  ∧ (let c := _validate_config keep_st_config in
     dict_get (cfg_filter c) "exclude_st" VNone = VBool false
     ∧ dict_get (cfg_filter c) "stock_prefix" VNone = VList [VStr "6"]
     ∧ filter_stocks c [scenario_candidate; st_candidate] = [scenario_candidate]
     ∧ dict_get st_candidate "f12" (VStr "") = VStr "600004"
     ∧ filter_stocks (with_filter_value "max_price" (VInt 40) c)
         [scenario_candidate; st_candidate]
       = [scenario_candidate; st_candidate]).
Proof. split; cbv zeta; repeat split; by vm_compute. Qed.


Lemma absent_fields_are_defaulted_witness :
  (normalize_price (dict_get (∅ : stock) "f2" (VInt 0)) = Ok 0%float
   ∧ (∅ : stock) ∈ stage (price_test default_filter_params) [∅])
  ∧ (let s := delete "f10" scenario_candidate in
     ∃ i, read_inputs s = Ok i ∧ volume_ratio i = 0%float
          ∧ ∃ f, evaluate default_weights s
                 = Ok {| an_score := NFloat f;
                         an_reason := build_reason i 1; an_days := 1 |}).
Proof.
  split.
  - destruct (proj1 absent_fields_are_defaulted ∅) as [H1 H2]; [reflexivity|].
    split; [exact H1|]. apply H2; [reflexivity|]. apply list_elem_of_In. left. reflexivity.
  - cbv zeta.
    destruct (proj1 (proj2 (proj2 (proj2 absent_fields_are_defaulted)))
                (delete "f10" scenario_candidate))
      as (i & Hi & H1 & _ & _ & _ & Hw).
    + intros k v Hk. unfold scoring_fields in Hk.
      repeat (apply elem_of_cons in Hk as [->|Hk]); [..|by apply elem_of_nil in Hk];
        by intros [= <-].
    + exists i. split; [exact Hi|]. split; [by apply H1|].
      apply Hw. reflexivity.
Defined.

(** * Further properties *)

(** ** [load_config] *)

Lemma insert_present_dom (g : gmap string pyval) k v x :
  g !! k = Some v → dom (<[k := x]> g) = dom g.
Proof.
  intros H. rewrite dom_insert_L.
  assert (k ∈ dom g) by (apply elem_of_dom; eauto).
  apply set_eq. intros j. rewrite elem_of_union, elem_of_singleton.
  split; [intros [->|?]; done | by right].
Qed.

Lemma merge_item_dom g item : dom (merge_item g item) = dom g.
Proof.
  unfold merge_item. destruct (g !! item.1) eqn:E; [|done].
  by eapply insert_present_dom.
Qed.

Lemma merge_group_dom items g : dom (merge_group g items) = dom g.
Proof.
  revert g. induction items as [|item items IH]; intros g; [done|].
  unfold merge_group in *. cbn [foldl]. by rewrite IH, merge_item_dom.
Qed.

Lemma merge_from_dom loaded name g g' :
  merge_from loaded name g = Ok g' → dom g' = dom g.
Proof.
  unfold merge_from. intros (present & _ & H)%bind_ok.
  destruct present; [|by injection H as <-].
  apply bind_ok in H as (section & _ & H). apply bind_ok in H as (items & _ & H).
  injection H as <-. apply merge_group_dom.
Qed.

Lemma check_key_dom key invalid dflt g g' :
  check_key key invalid dflt g = Ok g' → dom g' = dom g.
Proof.
  unfold check_key, dict_item. destruct (g !! key) as [v|] eqn:E; [|done]. simpl.
  intros [= <-]. destruct (invalid v); [|done]. by eapply insert_present_dom.
Qed.

(** The three groups have the keys of the defaults. *)
Definition default_keys (c : config) : Prop :=
  dom (cfg_filter c) = dom (cfg_filter default_config)
  ∧ dom (cfg_score c) = dom (cfg_score default_config)
  ∧ dom (cfg_output c) = dom (cfg_output default_config).

Lemma on_filter_keys f c c' :
  (∀ g g', f g = Ok g' → dom g' = dom g) →
  on_filter f c = Ok c' → default_keys c → default_keys c'.
Proof.
  intros Hf (g & Hg & [= <-])%bind_ok (H1 & H2 & H3).
  split; [|done]. cbn. by rewrite (Hf _ _ Hg).
Qed.

Lemma on_score_keys f c c' :
  (∀ g g', f g = Ok g' → dom g' = dom g) →
  on_score f c = Ok c' → default_keys c → default_keys c'.
Proof.
  intros Hf (g & Hg & [= <-])%bind_ok (H1 & H2 & H3).
  split; [done|]. split; [|done]. cbn. by rewrite (Hf _ _ Hg).
Qed.

Lemma on_output_keys f c c' :
  (∀ g g', f g = Ok g' → dom g' = dom g) →
  on_output f c = Ok c' → default_keys c → default_keys c'.
Proof.
  intros Hf (g & Hg & [= <-])%bind_ok (H1 & H2 & H3).
  split; [done|]. split; [done|]. cbn. by rewrite (Hf _ _ Hg).
Qed.

Lemma validate_keeps_keys c : default_keys c → default_keys (_validate_config c).
Proof.
  apply try_steps_invariant. unfold validate_steps.
  repeat first
    [ apply Forall_app; split
    | apply List.Forall_cons
    | apply List.Forall_nil ];
    intros a b H; first
      [ by apply (on_filter_keys _ _ _ (check_key_dom _ _ _) H)
      | by apply (on_output_keys _ _ _ (check_key_dom _ _ _) H)
      | by rewrite (check_score_key_id _ _ _ H) ].
Qed.

Lemma load_config_keys source : default_keys (load_config source).
Proof.
  destruct source as [| | |loaded]; try done.
  unfold load_config. apply try_steps_invariant; [|done].
  repeat apply List.Forall_cons; [..|apply List.Forall_nil].
  - intros a b. apply on_filter_keys, merge_from_dom.
  - intros a b. apply on_score_keys, merge_from_dom.
  - intros a b. apply on_output_keys, merge_from_dom.
  - intros a b [= <-]. apply validate_keeps_keys.
Qed.

(** No step of the scoring raises [KeyError] but the reads of the
    configuration. *)
Definition no_key_error {A} (r : result A) : Prop := r ≠ Raise KeyError.

Lemma bind_no_key_error {A B} (r : result A) (k : A → result B) :
  no_key_error r → (∀ a, no_key_error (k a)) → no_key_error (r ≫= k).
Proof.
  destruct r as [a|e]; [intros _ H; apply H|].
  intros H _ E. apply H. cbn in E. by injection E as ->.
Qed.

Lemma float_of_Z_no_key_error z : no_key_error (float_of_Z z).
Proof. unfold float_of_Z. by destruct (binary_normalize _ _ _ _ _). Qed.

Lemma py_float_no_key_error v : no_key_error (py_float v).
Proof.
  destruct v; simpl; try done; [apply float_of_Z_no_key_error|].
  by destruct (float_of_string _).
Qed.

Lemma num_to_float_no_key_error n : no_key_error (num_to_float n).
Proof. destruct n; [apply float_of_Z_no_key_error|done]. Qed.

Lemma py_iadd_no_key_error s v : no_key_error (py_iadd s v).
Proof.
  unfold py_iadd. destruct (as_num v) as [n|]; [|done].
  destruct s, n; simpl; try done;
    (apply bind_no_key_error; [apply float_of_Z_no_key_error || done|intros ?]);
    try done;
    (apply bind_no_key_error; [apply float_of_Z_no_key_error || done|by intros ?]).
Qed.

Lemma float_mul_no_key_error x w : no_key_error (float_mul x w).
Proof.
  unfold float_mul. destruct (as_num w) as [n|]; [|done].
  apply bind_no_key_error; [apply num_to_float_no_key_error|done].
Qed.

Lemma int_mul_no_key_error k w : no_key_error (int_mul k w).
Proof.
  destruct w; simpl; try done.
  apply bind_no_key_error; [apply float_of_Z_no_key_error|done].
Qed.

Lemma py_min_no_key_error a b : no_key_error (py_min a b).
Proof. unfold py_min. by destruct (as_num b). Qed.

Lemma evaluate_no_key_error w s : no_key_error (evaluate w s).
Proof.
  unfold evaluate. apply bind_no_key_error.
  - unfold read_inputs.
    repeat (apply bind_no_key_error; [apply py_float_no_key_error|intros ?]). done.
  - intros i. apply bind_no_key_error; [|done]. unfold compute_score.
    repeat (apply bind_no_key_error;
            [first [ apply py_iadd_no_key_error | apply float_mul_no_key_error
                   | apply int_mul_no_key_error | apply py_min_no_key_error ]
            |intros ?]).
    destruct (cap_moderate i); [apply py_iadd_no_key_error|].
    destruct (cap_large i); [apply py_iadd_no_key_error|done].
Qed.

Lemma score_loop_no_key_error w l : no_key_error (score_loop w l).
Proof.
  induction l as [|s l IH]; [done|]. cbn [score_loop].
  apply bind_no_key_error.
  - unfold score_one. apply bind_no_key_error; [apply evaluate_no_key_error|done].
  - intros s'. apply bind_no_key_error; [exact IH|done].
Qed.

Lemma dict_item_present (g : gmap string pyval) k :
  k ∈ dom g → ∃ v, dict_item g k = Ok v.
Proof. intros [v H]%elem_of_dom. exists v. unfold dict_item. by rewrite H. Qed.

Lemma read_weights_present g :
  dom g = dom (cfg_score default_config) → ∃ w, read_weights g = Ok w.
Proof.
  intros H. unfold read_weights.
  destruct (dict_item_present g "base_score") as [b ->]; [by rewrite H|].
  destruct (dict_item_present g "volume_ratio_weight") as [v ->]; [by rewrite H|].
  destruct (dict_item_present g "turnover_rate_weight") as [t ->]; [by rewrite H|].
  destruct (dict_item_present g "continuous_limit_up_weight") as [c ->]; [by rewrite H|].
  destruct (dict_item_present g "amount_weight") as [a ->]; [by rewrite H|].
  destruct (dict_item_present g "amount_max_score") as [m ->]; [by rewrite H|].
  eauto.
Qed.

(** X1: whatever the configuration file holds, the configuration that
    [load_config] returns has in each group exactly the keys of the
    defaults: no key of the file that the defaults lack is taken over and
    none is lost.  So the reads [score_config["base_score"]] ... and
    [config["output"]["top_count"]] of [score_stocks] and [run] find their
    keys, and a run with a loaded configuration never fails with
    [KeyError]. *)
Theorem load_config_supplies_every_key (source : config_source) :
  dom (cfg_filter (load_config source)) = dom (cfg_filter default_config)
  ∧ dom (cfg_score (load_config source)) = dom (cfg_score default_config)
  ∧ dom (cfg_output (load_config source)) = dom (cfg_output default_config)
  ∧ is_ok (read_weights (cfg_score (load_config source))) = true
  ∧ ∀ l, run (load_config source) l ≠ Raise KeyError.
Proof.
  destruct (load_config_keys source) as (Hf & Hs & Ho).
  do 3 (split; [done|]).
  destruct (read_weights_present _ Hs) as [w Hw].
  split; [by rewrite Hw|]. intros l. unfold run.
  destruct (filter_stocks _ l) as [|s l']; [done|].
  apply bind_no_key_error.
  - unfold score_stocks. rewrite Hw. cbn [mbind result_bind].
    apply bind_no_key_error; [apply score_loop_no_key_error|done].
  - intros recommended.
    destruct (dict_item_present (cfg_output (load_config source)) "top_count")
      as [n ->]; [by rewrite Ho|].
    cbn [mbind result_bind]. by destruct n.
Qed.

(** What merging leaves under a key: the last value the items give it, if
    the group has the key. *)
Lemma merge_group_lookup items g k :
  merge_group g items !! k
  = match g !! k with
    | Some v0 => Some (default v0 (object_get items k))
    | None => None
    end.
Proof.
  revert g. induction items as [|[k' v'] items IH]; intros g.
  - cbn. by destruct (g !! k).
  - unfold merge_group in *. cbn [foldl object_get]. rewrite IH.
    unfold merge_item. cbn [fst snd].
    destruct (String.eqb_spec k' k) as [->|Hne].
    + destruct (g !! k) as [v0|] eqn:E.
      * rewrite lookup_insert_eq. by destruct (object_get items k).
      * by rewrite E.
    + destruct (g !! k') as [w|] eqn:E'.
      * rewrite lookup_insert_ne by done. by destruct (g !! k), (object_get items k).
      * by destruct (g !! k), (object_get items k).
Qed.

Lemma object_get_contains d name :
  existsb (λ kv : string * pyval, String.eqb kv.1 name) d
  = match object_get d name with Some _ => true | None => false end.
Proof.
  induction d as [|[k v] d IH]; [done|]. cbn [existsb object_get fst].
  rewrite IH. destruct (object_get d name); [by rewrite orb_true_r|].
  rewrite orb_false_r. by destruct (String.eqb k name).
Qed.

(** Merging from a file that is an object. *)
Lemma merge_from_object d name g :
  merge_from (VDict d) name g
  = match object_get d name with
    | Some section => items ← py_items section; Ok (merge_group g items)
    | None => Ok g
    end.
Proof.
  unfold merge_from. cbn [py_contains py_getitem mbind result_bind].
  rewrite object_get_contains. by destruct (object_get d name).
Qed.

(** *** Validation when every key is there *)

(** [if invalid(g[key]): g[key] = dflt] on a group that has the key. *)
Definition fix_key (key : string) (invalid : pyval → bool) (dflt : pyval)
    (g : gmap string pyval) : gmap string pyval :=
  match g !! key with
  | Some v => if invalid v then <[key := dflt]> g else g
  | None => g
  end.

Lemma fix_key_lookup key invalid dflt g :
  fix_key key invalid dflt g !! key
  = (v ← g !! key; Some (if invalid v then dflt else v)).
Proof.
  unfold fix_key. destruct (g !! key) as [v|] eqn:E; simpl; [|done].
  destruct (invalid v); [apply lookup_insert_eq|done].
Qed.

Lemma fix_key_lookup_ne key invalid dflt g k :
  key ≠ k → fix_key key invalid dflt g !! k = g !! k.
Proof.
  intros H. unfold fix_key. destruct (g !! key) as [v|]; [|done].
  destruct (invalid v); [by rewrite lookup_insert_ne|done].
Qed.

Lemma on_filter_check key invalid dflt c :
  is_Some (cfg_filter c !! key) →
  on_filter (check_key key invalid dflt) c
  = Ok {| cfg_filter := fix_key key invalid dflt (cfg_filter c);
          cfg_score := cfg_score c; cfg_output := cfg_output c |}.
Proof.
  intros [v H]. unfold on_filter, check_key, dict_item, fix_key. by rewrite H.
Qed.

Lemma on_output_check key invalid dflt c :
  is_Some (cfg_output c !! key) →
  on_output (check_key key invalid dflt) c
  = Ok {| cfg_filter := cfg_filter c; cfg_score := cfg_score c;
          cfg_output := fix_key key invalid dflt (cfg_output c) |}.
Proof.
  intros [v H]. unfold on_output, check_key, dict_item, fix_key. by rewrite H.
Qed.

Lemma check_score_key_present key c :
  is_Some (cfg_score c !! key) → check_score_key key c = Ok c.
Proof.
  intros [v H]. unfold check_score_key, dict_item. rewrite H. cbn.
  destruct (negb (is_number v) || num_lt0 v); [|done].
  rewrite insert_id by done. by destruct c.
Qed.

Definition apply_rules (rules : list (string * (pyval → bool) * pyval))
    (g : gmap string pyval) : gmap string pyval :=
  foldl (λ g r, fix_key r.1.1 r.1.2 r.2 g) g rules.

Lemma has_default_key (g d : gmap string pyval) k :
  dom g = dom d → is_Some (d !! k) → is_Some (g !! k).
Proof. intros H. rewrite <- !elem_of_dom. by rewrite H. Qed.

Lemma fix_key_dom key invalid dflt g : dom (fix_key key invalid dflt g) = dom g.
Proof.
  unfold fix_key. destruct (g !! key) as [v|] eqn:E; [|done].
  destruct (invalid v); [by eapply insert_present_dom|done].
Qed.

Lemma has_key_after (g g0 d : gmap string pyval) k :
  dom g = dom g0 → dom g0 = dom d → is_Some (d !! k) → is_Some (g !! k).
Proof. intros H1 H2. rewrite <- !elem_of_dom. by rewrite H1, H2. Qed.

Ltac present_by H :=
  eapply has_key_after; [| exact H |];
  [ cbn [cfg_filter cfg_score cfg_output]; by rewrite ?fix_key_dom
  | eexists; vm_compute; reflexivity ].

(** With the keys of the defaults in place every check runs: the filter
    and output groups are checked key by key, the score group stays. *)
Lemma validate_with_keys c :
  default_keys c →
  _validate_config c
  = {| cfg_filter := apply_rules filter_rules (cfg_filter c);
       cfg_score := cfg_score c;
       cfg_output := apply_rules output_rules (cfg_output c) |}.
Proof.
  intros (Hf & Hs & Ho). unfold _validate_config, validate_steps, score_keys.
  cbn [app map try_steps].
  do 5 (rewrite on_filter_check by (present_by Hf);
        cbn [try_steps cfg_filter cfg_score cfg_output]).
  do 6 (rewrite check_score_key_present by (present_by Hs);
        cbn [try_steps cfg_filter cfg_score cfg_output]).
  do 3 (rewrite on_output_check by (present_by Ho);
        cbn [try_steps cfg_filter cfg_score cfg_output]).
  unfold apply_rules, filter_rules, output_rules. cbn [foldl fst snd].
  reflexivity.
Qed.

Lemma merge_from_section d name g :
  name ∈ ["filter"; "score"; "output"] → sections_are_objects d →
  merge_from (VDict d) name g = Ok (merge_group g (section_items d name)).
Proof.
  intros Hn H. rewrite merge_from_object. unfold section_items.
  destruct (object_get d name) as [v|] eqn:E; [|done].
  by destruct (H name v Hn E) as [items ->].
Qed.

Lemma load_config_object d :
  sections_are_objects d →
  load_config (Parsed (VDict d))
  = _validate_config
      {| cfg_filter := merge_group (cfg_filter default_config) (section_items d "filter");
         cfg_score := merge_group (cfg_score default_config) (section_items d "score");
         cfg_output := merge_group (cfg_output default_config) (section_items d "output") |}.
Proof.
  intros H. unfold load_config, on_filter, on_score, on_output. cbn [try_steps].
  rewrite (merge_from_section d "filter") by (done || solve [repeat constructor]).
  cbn [mbind result_bind cfg_filter cfg_score cfg_output].
  rewrite (merge_from_section d "score") by (done || solve [repeat constructor]).
  cbn [mbind result_bind cfg_filter cfg_score cfg_output].
  rewrite (merge_from_section d "output") by (done || solve [repeat constructor]).
  reflexivity.
Qed.

Lemma adopted_lookup invalid dflt (g : gmap string pyval) items key :
  g !! key = Some dflt → invalid dflt = false →
  (v ← merge_group g items !! key; Some (if invalid v then dflt else v))
  = Some (adopted invalid dflt (object_get items key)).
Proof.
  intros Hg Hd. rewrite merge_group_lookup, Hg. cbn.
  destruct (object_get items key) as [v|]; cbn; [done|]. by rewrite Hd.
Qed.

(** X2: a configuration file that is a JSON object whose sections
    [filter], [score] and [output], where present, are objects, is read
    key by key.  A key of the filter or the output group ends with the
    value of the file when the file gives one that passes the check of
    [_validate_config], and with the default otherwise; a key of the score
    group ends with the value of the file, whatever it is, and with the
    default when the file gives none.  Of a repeated key the last value
    counts. *)
Theorem load_config_adopts_checked_values (d : list (string * pyval)) :
  sections_are_objects d →
  let c := load_config (Parsed (VDict d)) in
  (∀ key invalid dflt, (key, invalid, dflt) ∈ filter_rules →
     cfg_filter c !! key
     = Some (adopted invalid dflt (file_value (VDict d) "filter" key)))
  ∧ (∀ key, key ∈ score_keys →
     cfg_score c !! key
     = match file_value (VDict d) "score" key with
       | Some v => Some v
       | None => cfg_score default_config !! key
       end)
  ∧ (∀ key invalid dflt, (key, invalid, dflt) ∈ output_rules →
     cfg_output c !! key
     = Some (adopted invalid dflt (file_value (VDict d) "output" key))).
Proof.
  intros H c. subst c. rewrite (load_config_object d H).
  rewrite validate_with_keys
    by (repeat split; cbn [cfg_filter cfg_score cfg_output]; apply merge_group_dom).
  cbn [cfg_filter cfg_score cfg_output file_value].
  unfold apply_rules, filter_rules, output_rules. cbn [foldl fst snd].
  split; [|split].
  - intros key invalid dflt Hin.
    repeat (apply elem_of_cons in Hin as [[= -> -> ->]|Hin]);
      [..|by apply elem_of_nil in Hin];
      rewrite ?fix_key_lookup_ne by done; rewrite fix_key_lookup;
      rewrite ?fix_key_lookup_ne by done; by apply adopted_lookup.
  - intros key Hin. rewrite merge_group_lookup.
    unfold score_keys in Hin.
    repeat (apply elem_of_cons in Hin as [->|Hin]);
      [..|by apply elem_of_nil in Hin];
      by destruct (object_get _ _).
  - intros key invalid dflt Hin.
    repeat (apply elem_of_cons in Hin as [[= -> -> ->]|Hin]);
      [..|by apply elem_of_nil in Hin];
      rewrite ?fix_key_lookup_ne by done; rewrite fix_key_lookup;
      rewrite ?fix_key_lookup_ne by done; by apply adopted_lookup.
Qed.

Lemma load_config_adopts_checked_values_witness :
  let c := load_config (Parsed (VDict
             [ ("filter", VDict [("max_price", VInt 25); ("exclude_st", VStr "no")]);
               ("score", VDict [("base_score", VStr "high")]) ])) in
  cfg_filter c !! "max_price" = Some (VInt 25)
  ∧ cfg_filter c !! "exclude_st" = Some (VBool true)
  ∧ cfg_score c !! "base_score" = Some (VStr "high")
  ∧ cfg_score c !! "amount_weight" = Some (VInt 3).
Proof.
  pose proof (load_config_adopts_checked_values
    [ ("filter", VDict [("max_price", VInt 25); ("exclude_st", VStr "no")]);
      ("score", VDict [("base_score", VStr "high")]) ]) as H.
  destruct H as (Hf & Hs & _).
  - intros name v Hn. repeat (apply elem_of_cons in Hn as [->|Hn]);
      [..|by apply elem_of_nil in Hn]; cbn; intros [= <-]; eauto.
  - split; [|split; [|split]].
    + exact (Hf "max_price" _ _ ltac:(by left)).
    + exact (Hf "exclude_st" _ _ ltac:(right; right; by left)).
    + exact (Hs "base_score" ltac:(by left)).
    + exact (Hs "amount_weight" ltac:(do 4 right; by left)).
Defined.

Lemma merge_from_not_object d name v g :
  object_get d name = Some v → (∀ items, v ≠ VDict items) →
  is_ok (merge_from (VDict d) name g) = false.
Proof.
  intros E Hv. rewrite merge_from_object, E. destruct v; try done.
  by destruct (Hv d0).
Qed.

(** X3: the configuration returned when loading fails is not the default
    one.  [final_config] shares its groups with [default_config], so when
    the section [score] of the file is no object, which ends the merge
    with an exception, the values already taken from the section [filter]
    are in the configuration that [return default_config] hands back, and
    they have not been validated: a key of the filter group has the value
    of the file, whatever it is.  The output section of the file is not
    read. *)
Theorem load_config_failure_keeps_merged_filter
    (d items : list (string * pyval)) (v : pyval) :
  object_get d "filter" = Some (VDict items) →
  object_get d "score" = Some v → (∀ its, v ≠ VDict its) →
  load_config (Parsed (VDict d))
  = {| cfg_filter := merge_group (cfg_filter default_config) items;
       cfg_score := cfg_score default_config;
       cfg_output := cfg_output default_config |}
  ∧ ∀ key x, is_Some (cfg_filter default_config !! key) →
             object_get items key = Some x →
             cfg_filter (load_config (Parsed (VDict d))) !! key = Some x.
Proof.
  intros Hf Hs Hv.
  assert (E : load_config (Parsed (VDict d))
              = {| cfg_filter := merge_group (cfg_filter default_config) items;
                   cfg_score := cfg_score default_config;
                   cfg_output := cfg_output default_config |}).
  { unfold load_config, on_filter, on_score. cbn [try_steps].
    rewrite merge_from_object, Hf. cbn [py_items mbind result_bind cfg_score].
    pose proof (merge_from_not_object d "score" v (cfg_score default_config) Hs Hv) as R.
    by destruct (merge_from (VDict d) "score" (cfg_score default_config)). }
  split; [exact E|]. intros key x [dv Hk] Hx. rewrite E. cbn [cfg_filter].
  by rewrite merge_group_lookup, Hk, Hx.
Qed.

Lemma load_config_failure_keeps_merged_filter_witness :
  cfg_filter (load_config (Parsed (VDict
     [ ("filter", VDict [("max_price", VInt (-5))]); ("score", VInt 5);
       ("output", VDict [("top_count", VInt 3)]) ]))) !! "max_price"
  = Some (VInt (-5)).
Proof.
  apply (proj2 (load_config_failure_keeps_merged_filter
     [ ("filter", VDict [("max_price", VInt (-5))]); ("score", VInt 5);
       ("output", VDict [("top_count", VInt 3)]) ]
     [("max_price", VInt (-5))] (VInt 5) eq_refl eq_refl ltac:(done))).
  - by eexists.
  - reflexivity.
Defined.

Lemma validate_default_config : _validate_config default_config = default_config.
Proof. by vm_compute. Qed.

(** X4: a configuration file whose JSON value is not an object gives the
    default configuration: testing [name in loaded_config] raises on a
    number, a boolean and null; in a list or a text the test works, and a
    name that is found cannot be used as an index; with no name found the
    defaults are validated and stay as they are.  The same holds when
    there is no file, when no encoding decodes it and when it is no JSON. *)
Theorem load_config_defaults_without_object (source : config_source) :
  (∀ d, source ≠ Parsed (VDict d)) → load_config source = default_config.
Proof.
  intros H. destruct source as [| | |v]; try done.
  unfold load_config, on_filter, on_score, on_output.
  destruct v as [|b|z|f|s|l|d]; try done; [| |by destruct (H d)];
    cbn [try_steps merge_from py_contains mbind result_bind py_getitem].
  - destruct (str_contains "filter" s); [done|].
    cbn [try_steps cfg_score cfg_output cfg_filter].
    destruct (str_contains "score" s); [done|].
    cbn [try_steps cfg_score cfg_output cfg_filter].
    destruct (str_contains "output" s); [done|].
    cbn [try_steps]. apply validate_default_config.
  - destruct (existsb _ l); [done|].
    cbn [try_steps cfg_score cfg_output cfg_filter].
    destruct (existsb _ l); [done|].
    cbn [try_steps cfg_score cfg_output cfg_filter].
    destruct (existsb _ l); [done|].
    cbn [try_steps]. apply validate_default_config.
Qed.

Lemma load_config_defaults_without_object_witness :
  load_config (Parsed (VList [VStr "filter"])) = default_config.
Proof. by apply load_config_defaults_without_object. Defined.

(** ** [filter_stocks] *)

Lemma filter_sublist {A} (P : A → bool) (l : list A) : sublist (List.filter P l) l.
Proof.
  induction l as [|x l IH]; [constructor|]. cbn.
  destruct (P x); by constructor.
Qed.

Lemma filter_filter_same {A} (P : A → bool) (l : list A) :
  List.filter P (List.filter P l) = List.filter P l.
Proof.
  induction l as [|x l IH]; [done|]. cbn.
  destruct (P x) eqn:E; [|done]. cbn. by rewrite E, IH.
Qed.

(** X5: the five loops of [filter_stocks] are one pass: the result is the
    list of the records that pass every stage in force, in their input
    order.  So the result is a sublist of the input, filtering the result
    again changes nothing, and filtering two batches one after the other
    gives the same as filtering them together. *)
Theorem filter_stocks_is_one_pass (c : config) (l l' : list stock) :
  filter_stocks c l = List.filter (passes (effective_params (cfg_filter c))) l
  ∧ sublist (filter_stocks c l) l
  ∧ filter_stocks c (filter_stocks c l) = filter_stocks c l
  ∧ filter_stocks c (l ++ l') = (filter_stocks c l ++ filter_stocks c l')%list.
Proof.
  rewrite !filter_stocks_passes. split; [done|]. split; [apply filter_sublist|].
  split; [apply filter_filter_same|apply List.filter_app].
Qed.

Lemma leb_not_nan a b :
  PrimFloat.leb a b = true → PrimFloat.is_nan a = false ∧ PrimFloat.is_nan b = false.
Proof.
  rewrite FloatAxioms.leb_spec. unfold SFleb. intros H.
  split; apply not_nan_spec; intros E; rewrite E in H; [done|].
  by destruct (Prim2SF a).
Qed.

Lemma leb_trans a b c :
  PrimFloat.leb a b = true → PrimFloat.leb b c = true → PrimFloat.leb a c = true.
Proof.
  intros H1 H2.
  destruct (leb_not_nan _ _ H1) as [Na Nb], (leb_not_nan _ _ H2) as [_ Nc].
  apply (leb_key _ _ Na Nb) in H1. apply (leb_key _ _ Nb Nc) in H2.
  apply (leb_key _ _ Na Nc). intros H.
  destruct (key_lt_total (float_key b) (float_key a)) as [T|[T|T]]; [done| |].
  - apply H2. by rewrite T.
  - apply H2. by eapply key_lt_trans.
Qed.

Lemma filter_sublist_impl {A} (P Q : A → bool) (l : list A) :
  (∀ x, P x = true → Q x = true) → sublist (List.filter P l) (List.filter Q l).
Proof.
  intros H. induction l as [|x l IH]; [constructor|]. cbn.
  destruct (P x) eqn:E.
  - rewrite (H x E). by constructor.
  - destruct (Q x); [by constructor|done].
Qed.

(** X6: loosening the two thresholds never loses a record.  With the same
    prefixes and exclusions, a [max_price] that is not lower and a
    [min_limit_up_percent] that is not higher, the records kept before are
    kept, in the same order, among those kept now. *)
Theorem loosening_thresholds_keeps_records (p p' : filter_params) (l : list stock) :
  stock_prefix p' = stock_prefix p →
  exclude_st p' = exclude_st p →
  exclude_sci_tech_board p' = exclude_sci_tech_board p →
  PrimFloat.leb (max_price p) (max_price p') = true →
  PrimFloat.leb (min_limit_up_percent p') (min_limit_up_percent p) = true →
  sublist (filter_with p l) (filter_with p' l).
Proof.
  intros Hp Hst Hsci Hmax Hmin. rewrite !filter_with_passes.
  apply filter_sublist_impl. intros s. unfold passes.
  rewrite !andb_true_iff. intros [[[[H1 H2] H3] H4] H5].
  unfold prefix_test. rewrite Hp, Hst, Hsci. repeat split; try done.
  - unfold price_test in *. apply kept_true in H4 as (x & -> & Hx). cbn.
    by eapply leb_trans.
  - unfold limit_up_test in *. apply kept_true in H5 as (x & -> & Hx). cbn.
    by eapply leb_trans.
Qed.

Lemma loosening_thresholds_keeps_records_witness :
  sublist (filter_with default_filter_params [scenario_candidate; st_candidate])
          (filter_with {| max_price := 60; min_limit_up_percent := 5;
                          exclude_st := true; exclude_sci_tech_board := true;
                          stock_prefix := default_prefixes |}
                       [scenario_candidate; st_candidate]).
Proof. by apply loosening_thresholds_keeps_records. Defined.

Lemma leb_nan_l a b : PrimFloat.is_nan a = true → PrimFloat.leb a b = false.
Proof.
  intros H%is_nan_spec. rewrite FloatAxioms.leb_spec. unfold SFleb. by rewrite H.
Qed.

Lemma leb_nan_r a b : PrimFloat.is_nan b = true → PrimFloat.leb a b = false.
Proof.
  intros H%is_nan_spec. rewrite FloatAxioms.leb_spec. unfold SFleb. rewrite H.
  by destruct (Prim2SF a).
Qed.

Lemma filter_none {A} (P : A → bool) (l : list A) :
  (∀ x, P x = false) → List.filter P l = [].
Proof. intros H. induction l as [|x l IH]; [done|]. cbn. by rewrite H. Qed.

(** No price is at most a [max_price] that is NaN. *)
Lemma filter_with_nan_max_price p l :
  PrimFloat.is_nan (max_price p) = true → filter_with p l = [].
Proof.
  intros H. rewrite filter_with_passes. apply filter_none. intros s.
  unfold passes. replace (kept (price_test p s)) with false.
  - by rewrite andb_false_r.
  - unfold price_test. destruct (normalize_price _) as [price|]; [|done]. cbn.
    by rewrite leb_nan_r.
Qed.

Lemma check_key_other key invalid dflt g g' k :
  check_key key invalid dflt g = Ok g' → key ≠ k → g' !! k = g !! k.
Proof.
  unfold check_key. intros (v & _ & [= <-])%bind_ok Hk.
  destruct (invalid v); [by rewrite lookup_insert_ne|done].
Qed.

Lemma float_of_Z_upto_20 z : 0 ≤ z ≤ 20 → is_ok (float_of_Z z) = true.
Proof.
  intros H.
  assert (E : z ∈ (Z.of_nat <$> seq 0 21)).
  { apply list_elem_of_fmap. exists (Z.to_nat z). split; [lia|].
    apply list_elem_of_In, in_seq. lia. }
  cbn in E. repeat (apply elem_of_cons in E as [->|E]; [by vm_compute|]).
  by apply elem_of_nil in E.
Qed.

Lemma try_steps_cons {S} (f : S → result S) rest s :
  try_steps (f :: rest) s
  = match f s with Ok s' => try_steps rest s' | Raise _ => s end.
Proof. reflexivity. Qed.

Lemma on_filter_check_absent key invalid dflt c :
  cfg_filter c !! key = None →
  on_filter (check_key key invalid dflt) c = Raise KeyError.
Proof. intros H. unfold on_filter, check_key, dict_item. by rewrite H. Qed.

(** The limit-up threshold can be read: it is absent or a number that
    [float] takes. *)
Definition threshold_readable (c : config) : Prop :=
  is_ok (py_float (dict_get (cfg_filter c) "min_limit_up_percent" (VFloat 9.5))) = true.

(** X7: a [max_price] that is NaN, which JSON can spell and [json.loads]
    accepts, passes the validation, since [nan <= 0] is false; and with it
    the filter returns no record at all, whatever the input: no price is at
    most NaN. *)
Theorem nan_max_price_empties_the_filter (c : config) (f : float) :
  PrimFloat.is_nan f = true →
  cfg_filter c !! "max_price" = Some (VFloat f) →
  cfg_filter (_validate_config c) !! "max_price" = Some (VFloat f)
  ∧ ∀ l, filter_stocks (_validate_config c) l = [].
Proof.
  intros Hf Hc.
  assert (R : cfg_filter (_validate_config c) !! "max_price" = Some (VFloat f)
              ∧ threshold_readable (_validate_config c)).
  { unfold _validate_config, validate_steps. cbn [app].
    rewrite try_steps_cons, on_filter_check by eauto.
    assert (E1 : fix_key "max_price" (λ v, negb (is_number v) || num_le0 v)
                   (VInt 40) (cfg_filter c) = cfg_filter c).
    { unfold fix_key. rewrite Hc. cbn [is_number negb orb num_le0 as_num].
      by rewrite (leb_nan_l _ _ Hf). }
    rewrite E1, try_steps_cons.
    destruct (cfg_filter c !! "min_limit_up_percent") as [v|] eqn:Ev.
    2: { rewrite on_filter_check_absent by done. split; [done|].
         unfold threshold_readable, dict_get. cbn [cfg_filter]. by rewrite Ev. }
    rewrite on_filter_check by eauto. unfold fix_key. cbn [cfg_filter].
    rewrite Ev.
    apply (try_steps_invariant
             (λ c', cfg_filter c' !! "max_price" = Some (VFloat f)
                    ∧ threshold_readable c')).
    - repeat first
        [ apply Forall_app; split
        | apply List.Forall_cons
        | apply List.Forall_nil ];
        intros a b H [Q1 Q2]; unfold threshold_readable, dict_get in *;
        first
          [ unfold on_filter in H; apply bind_ok in H as (g & Hg & [= <-]);
            cbn [cfg_filter]; by rewrite !(check_key_other _ _ _ _ _ _ Hg) by done
          | unfold on_output in H; by apply bind_ok in H as (g & Hg & [= <-])
          | by rewrite (check_score_key_id _ _ _ H) ].
    - unfold threshold_readable, dict_get. cbn [cfg_filter].
      destruct (negb (is_number v) || negb (num_in_0_20 v)) eqn:Ei.
      + rewrite lookup_insert_ne by done. by rewrite lookup_insert_eq.
      + rewrite Ev. split; [done|].
        apply orb_false_iff in Ei as [En%negb_false_iff Er%negb_false_iff].
        destruct v as [|b|z|g|s|l0|d]; try done.
        apply float_of_Z_upto_20. unfold num_in_0_20 in Er. cbn in Er. lia. }
  destruct R as [R1 R2]. split; [exact R1|]. intros l.
  destruct l as [|s l]; [done|]. cbn [filter_stocks].
  apply filter_with_nan_max_price.
  assert (E : dict_get (cfg_filter (_validate_config c)) "max_price" (VInt 40)
              = VFloat f) by (unfold dict_get; by rewrite R1).
  unfold effective_params, read_filter_params, threshold_readable in *.
  rewrite E. cbn [py_float mbind result_bind].
  by destruct (py_float _).
Qed.

Lemma nan_max_price_empties_the_filter_witness :
  filter_stocks
    (_validate_config (with_filter_value "max_price" (VFloat nan) default_config))
    [scenario_candidate] = []
  ∧ filter_stocks default_config [scenario_candidate] = [scenario_candidate].
Proof.
  split; [|reflexivity].
  apply (nan_max_price_empties_the_filter _ nan); reflexivity.
Defined.

(** ** [_validate_config] *)

(** X8: the validation is not all or nothing.  Its checks run in one
    [try]: a key that is missing ends it where it stands.  With
    [max_price] missing nothing is checked, whatever the other values are,
    and with [min_limit_up_percent] missing an invalid [max_price] has been
    replaced by 40 while no later value has been looked at. *)
Theorem validation_stops_at_a_missing_key (c : config) :
  (cfg_filter c !! "max_price" = None → _validate_config c = c)
  ∧ (∀ v, cfg_filter c !! "max_price" = Some v →
          negb (is_number v) || num_le0 v = true →
          cfg_filter c !! "min_limit_up_percent" = None →
          _validate_config c = with_filter_value "max_price" (VInt 40) c).
Proof.
  unfold _validate_config, validate_steps. cbn [app]. split.
  - intros H. by rewrite try_steps_cons, on_filter_check_absent.
  - intros v Hv Hi Hm. rewrite try_steps_cons, on_filter_check by eauto.
    rewrite try_steps_cons, on_filter_check_absent.
    + unfold fix_key, with_filter_value. by rewrite Hv, Hi.
    + cbn [cfg_filter]. by rewrite fix_key_lookup_ne.
Qed.

Lemma validation_stops_at_a_missing_key_witness :
  let partial := {| cfg_filter := {["max_price" := VInt (-5)]};
                    cfg_score := cfg_score default_config;
                    cfg_output := {["top_count" := VInt (-5)]} |} in
  let empty := {| cfg_filter := ∅; cfg_score := ∅;
                  cfg_output := {["top_count" := VInt (-5)]} |} in
  _validate_config empty = empty
  ∧ cfg_filter (_validate_config partial) !! "max_price" = Some (VInt 40)
  ∧ cfg_output (_validate_config partial) !! "top_count" = Some (VInt (-5)).
Proof.
  intros partial empty. split.
  - by apply (proj1 (validation_stops_at_a_missing_key empty)).
  - rewrite (proj2 (validation_stops_at_a_missing_key partial) (VInt (-5)));
      by vm_compute.
Defined.

(** *** Validating twice *)

Section steps_twice.
Context {S : Type}.
Implicit Types (f g : S → result S) (s : S).

(** The step changes nothing in [s]. *)
Definition fixed_by f s : Prop := f s = Ok s.

(** After the step [g] the step [f] still changes nothing. *)
Definition keeps g f : Prop := ∀ s s', fixed_by f s → g s = Ok s' → fixed_by f s'.

Lemma try_steps_twice_from steps :
  Forall (λ f, ∀ s s', f s = Ok s' → fixed_by f s') steps →
  ForallOrdPairs (λ f g, keeps g f) steps →
  ∀ pre s,
    Forall (λ f, fixed_by f s ∧ Forall (λ g, keeps g f) steps) pre →
    Forall (λ f, fixed_by f (try_steps steps s)) pre
    ∧ try_steps steps (try_steps steps s) = try_steps steps s.
Proof.
  induction steps as [|g rest IH]; intros Hi Ho pre s Hp.
  - split; [|done]. eapply Forall_impl; [exact Hp|]. by intros f [? _].
  - apply Forall_cons in Hi as [Hg Hi].
    inversion Ho as [|? ? Hgr Hor]; subst.
    destruct (g s) as [s1|e] eqn:Eg.
    + destruct (IH Hi Hor (g :: pre) s1) as [F T].
      { apply Forall_cons. split; [split; [by eapply Hg|exact Hgr]|].
        eapply Forall_impl; [exact Hp|]. intros f [Hf Hk].
        apply Forall_cons in Hk as [Hkg Hkr]. split; [by eapply Hkg|done]. }
      apply Forall_cons in F as [Fg F]. rewrite !try_steps_cons, Eg.
      split; [done|]. unfold fixed_by in Fg. by rewrite Fg.
    + rewrite !try_steps_cons, Eg. split.
      * eapply Forall_impl; [exact Hp|]. by intros f [? _].
      * by rewrite Eg.
Qed.

Lemma try_steps_twice steps s :
  Forall (λ f, ∀ s s', f s = Ok s' → fixed_by f s') steps →
  ForallOrdPairs (λ f g, keeps g f) steps →
  try_steps steps (try_steps steps s) = try_steps steps s.
Proof.
  intros Hi Ho. by destruct (try_steps_twice_from steps Hi Ho [] s).
Qed.
End steps_twice.

Lemma check_key_fix key invalid dflt g g' :
  check_key key invalid dflt g = Ok g' →
  is_Some (g !! key) ∧ g' = fix_key key invalid dflt g.
Proof.
  unfold check_key, dict_item, fix_key.
  destruct (g !! key) as [v|]; [|done]. cbn. intros [= <-]. eauto.
Qed.

Lemma check_key_of_fix key invalid dflt g :
  is_Some (g !! key) → check_key key invalid dflt g = Ok (fix_key key invalid dflt g).
Proof. intros [v H]. unfold check_key, dict_item, fix_key. by rewrite H. Qed.

Lemma fix_key_some key invalid dflt g v :
  g !! key = Some v →
  fix_key key invalid dflt g = if invalid v then <[key := dflt]> g else g.
Proof. intros H. unfold fix_key. by rewrite H. Qed.

Lemma fix_key_twice key invalid dflt g :
  fix_key key invalid dflt (fix_key key invalid dflt g) = fix_key key invalid dflt g.
Proof.
  destruct (g !! key) as [v|] eqn:E.
  - rewrite (fix_key_some _ _ _ g v E). destruct (invalid v) eqn:Ei.
    + rewrite (fix_key_some _ _ _ _ dflt) by apply lookup_insert_eq.
      destruct (invalid dflt); [apply insert_insert_eq|done].
    + by rewrite (fix_key_some _ _ _ g v E), Ei.
  - unfold fix_key. by rewrite E, E.
Qed.

(** A check that changes nothing in [g] changes nothing after a check of
    another key. *)
Lemma fix_key_kept key invalid dflt key' invalid' dflt' g :
  key ≠ key' → fix_key key invalid dflt g = g →
  fix_key key invalid dflt (fix_key key' invalid' dflt' g)
  = fix_key key' invalid' dflt' g.
Proof.
  intros Hk Hg. destruct (g !! key) as [v|] eqn:E.
  - rewrite (fix_key_some _ _ _ g v E) in Hg.
    rewrite (fix_key_some key _ _ _ v) by (by rewrite fix_key_lookup_ne).
    destruct (invalid v) eqn:Ei; [|done].
    apply insert_id. rewrite fix_key_lookup_ne by done.
    rewrite <- Hg. apply lookup_insert_eq.
  - unfold fix_key at 1. by rewrite fix_key_lookup_ne, E by done.
Qed.

Lemma on_filter_fix key invalid dflt c c' :
  on_filter (check_key key invalid dflt) c = Ok c' →
  is_Some (cfg_filter c !! key)
  ∧ c' = {| cfg_filter := fix_key key invalid dflt (cfg_filter c);
            cfg_score := cfg_score c; cfg_output := cfg_output c |}.
Proof.
  unfold on_filter. intros (g & [Hk ->]%check_key_fix & [= <-])%bind_ok. done.
Qed.

Lemma on_output_fix key invalid dflt c c' :
  on_output (check_key key invalid dflt) c = Ok c' →
  is_Some (cfg_output c !! key)
  ∧ c' = {| cfg_filter := cfg_filter c; cfg_score := cfg_score c;
            cfg_output := fix_key key invalid dflt (cfg_output c) |}.
Proof.
  unfold on_output. intros (g & [Hk ->]%check_key_fix & [= <-])%bind_ok. done.
Qed.

Lemma fix_key_present key invalid dflt g k :
  is_Some (g !! k) → is_Some (fix_key key invalid dflt g !! k).
Proof. rewrite <- !elem_of_dom. by rewrite fix_key_dom. Qed.

Lemma on_filter_twice key invalid dflt c c' :
  on_filter (check_key key invalid dflt) c = Ok c' →
  fixed_by (on_filter (check_key key invalid dflt)) c'.
Proof.
  intros [Hk ->]%on_filter_fix. unfold fixed_by.
  rewrite on_filter_check by (by apply fix_key_present).
  cbn [cfg_filter cfg_score cfg_output]. by rewrite fix_key_twice.
Qed.

Lemma on_output_twice key invalid dflt c c' :
  on_output (check_key key invalid dflt) c = Ok c' →
  fixed_by (on_output (check_key key invalid dflt)) c'.
Proof.
  intros [Hk ->]%on_output_fix. unfold fixed_by.
  rewrite on_output_check by (by apply fix_key_present).
  cbn [cfg_filter cfg_score cfg_output]. by rewrite fix_key_twice.
Qed.

Lemma check_score_key_twice key c c' :
  check_score_key key c = Ok c' → fixed_by (check_score_key key) c'.
Proof. intros H. by pose proof (check_score_key_id _ _ _ H) as ->. Qed.

Lemma fixed_filter key invalid dflt c :
  fixed_by (on_filter (check_key key invalid dflt)) c →
  is_Some (cfg_filter c !! key)
  ∧ fix_key key invalid dflt (cfg_filter c) = cfg_filter c.
Proof. intros [Hk E]%on_filter_fix. split; [done|]. by rewrite E at 2. Qed.

Lemma fixed_output key invalid dflt c :
  fixed_by (on_output (check_key key invalid dflt)) c →
  is_Some (cfg_output c !! key)
  ∧ fix_key key invalid dflt (cfg_output c) = cfg_output c.
Proof. intros [Hk E]%on_output_fix. split; [done|]. by rewrite E at 2. Qed.

Lemma keeps_filter_filter key invalid dflt key' invalid' dflt' :
  key ≠ key' →
  keeps (on_filter (check_key key' invalid' dflt'))
        (on_filter (check_key key invalid dflt)).
Proof.
  intros Hk c c' [Hp Hf]%fixed_filter [Hp' ->]%on_filter_fix. unfold fixed_by.
  rewrite on_filter_check by (by apply fix_key_present).
  cbn [cfg_filter cfg_score cfg_output]. by rewrite fix_key_kept.
Qed.

Lemma keeps_output_output key invalid dflt key' invalid' dflt' :
  key ≠ key' →
  keeps (on_output (check_key key' invalid' dflt'))
        (on_output (check_key key invalid dflt)).
Proof.
  intros Hk c c' [Hp Hf]%fixed_output [Hp' ->]%on_output_fix. unfold fixed_by.
  rewrite on_output_check by (by apply fix_key_present).
  cbn [cfg_filter cfg_score cfg_output]. by rewrite fix_key_kept.
Qed.

Lemma keeps_score_step {f : config → result config} key :
  keeps (check_score_key key) f.
Proof. intros c c' Hf H. by pose proof (check_score_key_id _ _ _ H) as ->. Qed.

Lemma keeps_filter_output key invalid dflt key' invalid' dflt' :
  keeps (on_output (check_key key' invalid' dflt'))
        (on_filter (check_key key invalid dflt)).
Proof.
  intros c c' [Hp Hf]%fixed_filter [Hp' ->]%on_output_fix. unfold fixed_by.
  rewrite on_filter_check by done.
  cbn [cfg_filter cfg_score cfg_output]. by rewrite Hf.
Qed.

Lemma keeps_score_output key key' invalid' dflt' :
  keeps (on_output (check_key key' invalid' dflt')) (check_score_key key).
Proof.
  intros c c' Hf [Hp' ->]%on_output_fix. unfold fixed_by.
  apply check_score_key_present. cbn [cfg_score].
  unfold fixed_by, check_score_key, dict_item in Hf.
  by destruct (cfg_score c !! key).
Qed.

(** X9: validating a configuration that has been validated changes
    nothing, whatever the configuration: keys may be missing and values of
    any type. *)
Theorem validation_is_idempotent (c : config) :
  _validate_config (_validate_config c) = _validate_config c.
Proof.
  unfold _validate_config. apply try_steps_twice.
  - unfold validate_steps, score_keys. cbn [app map].
    repeat (apply List.Forall_cons || apply List.Forall_nil);
      intros s s' H;
      first [ by eapply on_filter_twice | by eapply on_output_twice
            | by eapply check_score_key_twice ].
  - unfold validate_steps, score_keys. cbn [app map].
    repeat (apply FOP_cons;
            [repeat (apply List.Forall_cons || apply List.Forall_nil)|]);
      [..|apply FOP_nil];
      first [ by apply keeps_filter_filter
            | by apply keeps_output_output
            | apply keeps_score_step
            | apply keeps_filter_output
            | apply keeps_score_output ].
Qed.

(** ** [score_stocks] *)

Lemma append_nonempty a p r : String a p +:+ r ≠ "".
Proof. by rewrite append_cons. Qed.

Lemma str_join_nonempty sep parts :
  parts ≠ [] → Forall (λ p, p ≠ "") parts → str_join sep parts ≠ "".
Proof.
  destruct parts as [|p rest]; [done|]. intros _ [Hp _]%Forall_cons.
  destruct p as [|a p]; [done|]. cbn [str_join].
  destruct rest; [done|apply append_nonempty].
Qed.

Lemma append_if_nonempty cond text reason :
  text ≠ "" → Forall (λ p, p ≠ "") reason →
  Forall (λ p, p ≠ "") (append_if cond text reason).
Proof.
  intros Ht Hr. unfold append_if. destruct cond; [|done].
  apply Forall_app. split; [done|]. by apply Forall_cons.
Qed.

(** The rationale is never the empty text. *)
Lemma build_reason_nonempty i days : build_reason i days ≠ "".
Proof.
  unfold build_reason. cbv zeta.
  set (reason := append_if _ _ _).
  assert (H : Forall (λ p, p ≠ "") reason).
  { unfold reason.
    repeat (apply append_if_nonempty; [apply append_nonempty|]). constructor. }
  destruct reason as [|p rest] eqn:E; [done|].
  by apply str_join_nonempty.
Qed.

Lemma score_one_fields w s s' :
  score_one w s = Ok s' →
  (∃ f, s' !! "score" = Some (VFloat f))
  ∧ (∃ r, s' !! "reason" = Some (VStr r) ∧ r ≠ "")
  ∧ s' !! "continuous_limit_up" = Some (VInt 1).
Proof.
  unfold score_one. intros (a & Ha & [= <-])%bind_ok.
  destruct (annotate_fields s a) as (H1 & H2 & H3).
  destruct (evaluate_score _ _ _ Ha) as (i & _ & Hd & Hs & Hr).
  destruct (compute_score_float _ _ _ _ Hs) as [f Hf].
  split; [|split].
  - exists f. by rewrite H1, Hf.
  - exists (an_reason a). split; [done|]. rewrite Hr. apply build_reason_nonempty.
  - by rewrite H3, Hd.
Qed.

Lemma score_loop_fields w l scored :
  score_loop w l = Ok scored →
  length scored = length l
  ∧ Forall (λ s', (∃ f, s' !! "score" = Some (VFloat f))
                  ∧ (∃ r, s' !! "reason" = Some (VStr r) ∧ r ≠ "")
                  ∧ s' !! "continuous_limit_up" = Some (VInt 1)) scored.
Proof.
  revert scored. induction l as [|s l IH]; intros scored.
  - intros [= <-]. by split.
  - cbn [score_loop]. intros (s' & Hs & H)%bind_ok.
    apply bind_ok in H as (rest & Hr & [= <-]).
    destruct (IH _ Hr) as [IH1 IH2]. split; [cbn; by rewrite IH1|].
    apply Forall_cons. split; [by eapply score_one_fields|done].
Qed.

(** X10: what [score_stocks] returns has one record for each record given,
    and each of them carries a [score] that is a float, also when every
    weight is an int, a [reason] that is a text and is not empty, and
    [continuous_limit_up] equal to 1, the constant that
    [calculate_continuous_limit_up] returns. *)
Theorem score_stocks_output_fields (c : config) (l out : list stock) :
  score_stocks c l = Ok out →
  length out = length l
  ∧ Forall (λ s, (∃ f, s !! "score" = Some (VFloat f))
                 ∧ (∃ r, s !! "reason" = Some (VStr r) ∧ r ≠ "")
                 ∧ s !! "continuous_limit_up" = Some (VInt 1)) out.
Proof.
  unfold score_stocks. destruct l as [|s l]; [by intros [= <-]|].
  intros (w & _ & H)%bind_ok. apply bind_ok in H as (scored & Hs & [= <-]).
  destruct (score_loop_fields _ _ _ Hs) as [H1 H2]. split.
  - unfold sort_by_score. by rewrite sort_desc_length.
  - unfold sort_by_score. by rewrite sort_desc_perm.
Qed.

Lemma score_stocks_output_fields_witness :
  is_ok (score_stocks default_config [quiet_candidate; scenario_candidate]) = true
  ∧ match score_stocks default_config [quiet_candidate; scenario_candidate] with
    | Ok out => length out = 2%nat
    | Raise _ => False
    end.
Proof.
  assert (I : is_ok (score_stocks default_config
                       [quiet_candidate; scenario_candidate]) = true)
    by (vm_compute; reflexivity).
  split; [exact I|].
  pose proof (score_stocks_output_fields default_config
                [quiet_candidate; scenario_candidate]) as H.
  revert I H.
  destruct (score_stocks default_config [quiet_candidate; scenario_candidate])
    as [out|e]; intros I H; [|discriminate I].
  exact (proj1 (H out eq_refl)).
Defined.

Lemma add_nan_l a y : PrimFloat.is_nan a = true → PrimFloat.is_nan (a + y) = true.
Proof.
  rewrite !is_nan_spec, add_spec. intros ->. unfold SF64add. by destruct (Prim2SF y).
Qed.

Lemma add_nan_r x a : PrimFloat.is_nan a = true → PrimFloat.is_nan (x + a) = true.
Proof.
  rewrite !is_nan_spec, add_spec. intros ->. unfold SF64add. by destruct (Prim2SF x).
Qed.

Lemma mul_nan_l a y : PrimFloat.is_nan a = true → PrimFloat.is_nan (a * y) = true.
Proof.
  rewrite !is_nan_spec, mul_spec. intros ->. unfold SF64mul. by destruct (Prim2SF y).
Qed.

(** With a NaN on its left [min] returns it: no number is below NaN. *)
Lemma py_min_nan a b m :
  PrimFloat.is_nan a = true → py_min a b = Ok m → m = VFloat a.
Proof.
  intros Ha. unfold py_min. destruct (as_num b) as [n|]; [|done].
  intros [= <-]. replace (num_ltb n (NFloat a)) with false; [done|].
  destruct n as [z|y]; cbn.
  - unfold Z_ltb_float. apply is_nan_spec in Ha. by rewrite Ha.
  - by rewrite ltb_nan_r.
Qed.

(** The float that the loop body computes: the sum, from the left, of a
    base, the two weighted inputs, the day term and the amount term, and
    the bonus if there is one. *)
Lemma compute_score_shape w i f :
  compute_score w i 1 = Ok (NFloat f) →
  ∃ x0 y1 y2 y3 ym,
    (f = (x0 + volume_ratio i * y1 + turnover_rate i * y2 + y3 + ym)%float
     ∨ ∃ y5, f = (x0 + volume_ratio i * y1 + turnover_rate i * y2 + y3 + ym + y5)%float)
    ∧ (PrimFloat.is_nan (amount i) = true →
       PrimFloat.is_nan
         (x0 + volume_ratio i * y1 + turnover_rate i * y2 + y3 + ym) = true).
Proof.
  unfold compute_score. intros H.
  apply bind_ok in H as (s0 & H0 & H). apply bind_ok in H as (t1 & H1 & H).
  destruct (float_mul_inv _ _ _ H1) as (n1 & y1 & _ & _ & M1).
  rewrite M1 in H1. injection H1 as <-.
  apply bind_ok in H as (s1 & H1 & H).
  destruct (py_iadd_lit_inv _ _ _ H1) as (x0 & A1).
  rewrite A1 in H1. injection H1 as <-.
  apply bind_ok in H as (t2 & H2 & H).
  destruct (float_mul_inv _ _ _ H2) as (n2 & y2 & _ & _ & M2).
  rewrite M2 in H2. injection H2 as <-.
  apply bind_ok in H as (s2 & H2 & H). cbn in H2. injection H2 as <-.
  apply bind_ok in H as (t3 & H3 & H). apply bind_ok in H as (s3 & H3' & H).
  destruct (py_iadd_float_inv _ _ _ H3') as (y3 & A3).
  rewrite A3 in H3'. injection H3' as <-.
  apply bind_ok in H as (a & Ha & H).
  destruct (float_mul_inv _ _ _ Ha) as (n4 & y4 & _ & _ & M4).
  rewrite M4 in Ha. injection Ha as <-.
  apply bind_ok in H as (m & Hm & H). apply bind_ok in H as (s4 & H4 & H).
  destruct (py_iadd_float_inv _ _ _ H4) as (ym & A4).
  pose proof H4 as H4'. rewrite A4 in H4'. injection H4' as <-.
  exists x0, y1, y2, y3, ym. split.
  - destruct (cap_moderate i).
    { destruct (py_iadd_float_inv _ _ _ H) as (y5 & A5).
      rewrite A5 in H. injection H as <-. eauto. }
    destruct (cap_large i).
    { destruct (py_iadd_float_inv _ _ _ H) as (y5 & A5).
      rewrite A5 in H. injection H as <-. eauto. }
    injection H as <-. by left.
  - intros Hn. apply (mul_nan_l _ y4) in Hn.
    rewrite (py_min_nan _ _ _ Hn Hm) in H4. cbn in H4. injection H4 as E.
    rewrite <- E. by apply add_nan_r.
Qed.

(** X11: a NaN among the inputs makes the score NaN.  When the volume
    ratio, the turnover rate or the turnover amount of a record reads as
    NaN, which [float] makes of the text nan, and the record can be scored
    at all, its score is NaN: every sum passes it on, and [min] does not
    cap it. *)
Theorem nan_input_gives_nan_score (w : score_weights) (s : stock) i a :
  read_inputs s = Ok i →
  PrimFloat.is_nan (volume_ratio i) = true
  ∨ PrimFloat.is_nan (turnover_rate i) = true
  ∨ PrimFloat.is_nan (amount i) = true →
  evaluate w s = Ok a →
  ∃ f, an_score a = NFloat f ∧ PrimFloat.is_nan f = true.
Proof.
  intros Hi Hn (j & Hj & _ & Hs & _)%evaluate_score.
  rewrite Hi in Hj. injection Hj as <-.
  destruct (compute_score_float _ _ _ _ Hs) as [f Hf]. rewrite Hf in Hs.
  exists f. split; [done|].
  destruct (compute_score_shape _ _ _ Hs) as (x0 & y1 & y2 & y3 & ym & Hshape & Ha).
  assert (N : PrimFloat.is_nan
                (x0 + volume_ratio i * y1 + turnover_rate i * y2 + y3 + ym) = true).
  { destruct Hn as [Hn|[Hn|Hn]].
    - do 3 apply add_nan_l. by apply add_nan_r, mul_nan_l.
    - do 2 apply add_nan_l. by apply add_nan_r, mul_nan_l.
    - by apply Ha. }
  destruct Hshape as [->|[y5 ->]]; [done|by apply add_nan_l].
Qed.

Lemma nan_input_gives_nan_score_witness :
  ∃ f, score_of (evaluate default_weights
                   (<["f10" := VStr "nan"]> scenario_candidate))
       = Some (NFloat f)
       ∧ PrimFloat.is_nan f = true.
Proof.
  destruct (nan_input_gives_nan_score default_weights
              (<["f10" := VStr "nan"]> scenario_candidate)
              {| volume_ratio := nan; turnover_rate := 4; amount := 6; market_cap := 30 |}
              {| an_score := NFloat nan;
                 an_reason := "换手率高(4.00%)、流通市值适中(30.00亿)、成交活跃(6.00亿)";
                 an_days := 1 |}) as (f & Hf & Hn).
  - reflexivity.
  - left. reflexivity.
  - reflexivity.
  - exists nan. split; reflexivity.
Defined.

(** ** [run] *)

Lemma score_loop_origin w l scored :
  score_loop w l = Ok scored →
  Forall2 (λ s s', ∃ a, evaluate w s = Ok a ∧ s' = annotate s a) l scored.
Proof.
  revert scored. induction l as [|s l IH]; intros scored.
  - intros [= <-]. constructor.
  - cbn [score_loop]. intros (s' & Hs & H)%bind_ok.
    apply bind_ok in H as (rest & Hr & [= <-]).
    constructor; [|by apply IH].
    unfold score_one in Hs. apply bind_ok in Hs as (a & Ha & [= <-]). eauto.
Qed.

Lemma py_slice_to_take {A} (l top : list A) v :
  py_slice_to l v = Ok top → ∃ k, top = take k l.
Proof.
  destruct v as [|b|n| | | |]; try done; cbn; intros [= <-];
    [by exists (length l); rewrite take_ge| |];
    unfold slice_to; by destruct (0 <=? _); eexists.
Qed.

(** X12: what [run] hands to the writer.  Every record of [top_stocks]
    is a record of the input that passes the filter, with the score,
    rationale and day count of its own evaluation attached; there are no
    more of them than records that pass the filter, and no more than
    [top_count] when that is an int that is not negative. *)
Theorem run_recommends_filtered_candidates
    (c : config) (w : score_weights) (l top : list stock) :
  read_weights (cfg_score c) = Ok w →
  run c l = Ok top →
  Forall (λ s', ∃ s a, s ∈ l
                       ∧ passes (effective_params (cfg_filter c)) s = true
                       ∧ evaluate w s = Ok a
                       ∧ s' = annotate s a) top
  ∧ (length top ≤ length (filter_stocks c l))%nat
  ∧ (∀ n, cfg_output c !! "top_count" = Some (VInt n) → 0 ≤ n →
          (length top ≤ Z.to_nat n)%nat).
Proof.
  intros Hw. unfold run.
  destruct (filter_stocks c l) as [|s0 fl] eqn:Ef.
  { intros [= <-]. split; [constructor|]. split; [done|]. intros; cbn; lia. }
  intros (recommended & Hs & H)%bind_ok.
  apply bind_ok in H as (top_count & Ht & Hslice).
  unfold score_stocks in Hs. rewrite Hw in Hs. cbn [mbind result_bind] in Hs.
  apply bind_ok in Hs as (scored & Hl & [= <-]).
  pose proof (score_loop_origin _ _ _ Hl) as Ho.
  destruct (py_slice_to_take _ _ _ Hslice) as [k ->].
  assert (Hlen : length (sort_by_score scored) = length (s0 :: fl)).
  { unfold sort_by_score. rewrite sort_desc_length.
    symmetry. by eapply Forall2_length. }
  split; [|split].
  - apply Forall_forall. intros s' Hin%elem_of_take.
    destruct Hin as (j & Hj & _).
    assert (Hin : s' ∈ scored).
    { unfold sort_by_score in Hj. apply list_elem_of_lookup_2 in Hj.
      by rewrite sort_desc_perm in Hj. }
    apply list_elem_of_lookup in Hin as [j' Hj'].
    destruct (Forall2_lookup_r _ _ _ _ _ Ho Hj') as (s & Hs & a & Ha & ->).
    exists s, a. apply list_elem_of_lookup_2 in Hs.
    rewrite <- Ef, filter_stocks_passes in Hs.
    apply list_elem_of_In, filter_In in Hs as [Hs1 Hs2].
    by rewrite <- list_elem_of_In in Hs1.
  - rewrite length_take. lia.
  - intros n Hn H0. unfold dict_item in Ht. rewrite Hn in Ht.
    injection Ht as <-. cbn in Hslice. injection Hslice as E.
    rewrite slice_to_take in E by done. rewrite <- E, length_take. lia.
Qed.

Lemma run_recommends_filtered_candidates_witness :
  is_ok (run default_config [quiet_candidate; scenario_candidate; st_candidate]) = true
  ∧ match run default_config [quiet_candidate; scenario_candidate; st_candidate] with
    | Ok top => (length top ≤ 2)%nat
    | Raise _ => False
    end.
Proof.
  assert (I : is_ok (run default_config
                       [quiet_candidate; scenario_candidate; st_candidate]) = true)
    by (vm_compute; reflexivity).
  split; [exact I|].
  pose proof (run_recommends_filtered_candidates default_config default_weights
                [quiet_candidate; scenario_candidate; st_candidate]) as H.
  revert I H.
  destruct (run default_config [quiet_candidate; scenario_candidate; st_candidate])
    as [top|e]; intros I H; [|discriminate I].
  exact (proj1 (proj2 (H top eq_refl eq_refl))).
Defined.

(** ** [save_to_excel] *)

Lemma excel_rows_spec l data :
  excel_rows l = Ok data ↔ Forall2 (λ s row, excel_row s = Ok row) l data.
Proof.
  revert data. induction l as [|s l IH]; intros data; cbn [excel_rows].
  - split; [intros [= <-]; constructor|]. by intros ->%Forall2_nil_inv_l.
  - split.
    + intros (row & Hr & H)%bind_ok. apply bind_ok in H as (rest & Hrest & [= <-]).
      constructor; [done|by apply IH].
    + intros (row & rest & Hr & Hrest & ->)%Forall2_cons_inv_l.
      apply IH in Hrest. by rewrite Hr, Hrest.
Qed.

Lemma excel_rows_raises l s :
  s ∈ l → is_ok (excel_row s) = false → is_ok (excel_rows l) = false.
Proof.
  intros Hin Hs. induction l as [|s' l IH]; [by apply elem_of_nil in Hin|].
  cbn [excel_rows]. apply elem_of_cons in Hin as [<-|Hin].
  - by destruct (excel_row s).
  - destruct (excel_row s'); [|done]. cbn.
    specialize (IH Hin). by destruct (excel_rows l).
Qed.

(** X13: one record whose turnover amount [f6] or float cap [f20] is no
    number keeps the whole table from being written: the division by
    100000000 raises for it, and the method returns [None] for the list.
    Scoring reads the same fields through [float], which takes a text such
    as 600000000, so a record can be scored and ranked and still block the
    export of every record. *)
Theorem non_numeric_amount_blocks_the_export
    (l : list stock) (s : stock) (k : string) (v : pyval) :
  k ∈ ["f6"; "f20"] → s !! k = Some v → as_num v = None → s ∈ l →
  save_to_excel l = None.
Proof.
  intros Hk Hv Hn Hin.
  assert (R : is_ok (excel_row s) = false).
  { unfold excel_row.
    repeat (apply elem_of_cons in Hk as [->|Hk]); [| |by apply elem_of_nil in Hk].
    - assert (E : dict_get s "f6" (VInt 0) = v) by (unfold dict_get; by rewrite Hv).
      rewrite E. unfold py_div_1e8. by rewrite Hn.
    - assert (E : dict_get s "f20" (VInt 0) = v) by (unfold dict_get; by rewrite Hv).
      rewrite E. destruct (py_div_1e8 (dict_get s "f6" (VInt 0))); [|done].
      cbn [mbind result_bind]. unfold py_div_1e8. by rewrite Hn. }
  pose proof (excel_rows_raises l s Hin R) as E. unfold save_to_excel.
  destruct l; [done|]. by destruct (excel_rows _).
Qed.

Lemma non_numeric_amount_blocks_the_export_witness :
  let s := <["f6" := VStr "600000000"]> scenario_candidate in
  score_of (evaluate default_weights s) = Some (NFloat 103)
  ∧ is_ok (run default_config [quiet_candidate; s]) = true
  ∧ save_to_excel [quiet_candidate; s] = None.
Proof.
  intros s. split; [reflexivity|]. split; [by vm_compute|].
  apply (non_numeric_amount_blocks_the_export _ s "f6" (VStr "600000000")).
  - by left.
  - reflexivity.
  - reflexivity.
  - right. by left.
Defined.

Lemma dict_get_annotate s a k d :
  k ∉ annotation_keys → dict_get (annotate s a) k d = dict_get s k d.
Proof. intros H. unfold dict_get. by rewrite annotate_other. Qed.

(** X14: the table has one row for each record, in the order of the list,
    so in the order of the ranking; and the row of a scored record has the
    twelve columns in their fixed order, with the code, name, price, change,
    turnover rate, volume ratio and P/E of the record as they came, the
    amount and the float cap divided by 100000000, and the score, the
    rationale and the day count that the scoring attached. *)
Theorem save_to_excel_rows_follow_the_records :
  (∀ l data, save_to_excel l = Some data ↔
             l ≠ [] ∧ Forall2 (λ s row, excel_row s = Ok row) l data)
  ∧ (∀ s a row, excel_row (annotate s a) = Ok row →
       ∃ amount cap,
         py_div_1e8 (dict_get s "f6" (VInt 0)) = Ok amount
         ∧ py_div_1e8 (dict_get s "f20" (VInt 0)) = Ok cap
         ∧ row = [ ("代码", dict_get s "f12" (VStr ""));
                   ("名称", dict_get s "f14" (VStr ""));
                   ("现价", dict_get s "f2" (VInt 0));
                   ("涨跌幅(%)", dict_get s "f3" (VInt 0));
                   ("成交额(亿)", VFloat amount);
                   ("换手率(%)", dict_get s "f8" (VInt 0));
                   ("量比", dict_get s "f10" (VInt 0));
                   ("流通市值(亿)", VFloat cap);
                   ("市盈率", dict_get s "f9" (VInt 0));
                   ("连板数", VInt (an_days a));
                   ("评分", num_val (an_score a));
                   ("推荐理由", VStr (an_reason a)) ]
         ∧ map fst row = excel_columns).
Proof.
  split.
  - intros l data. unfold save_to_excel. destruct l as [|s l].
    + split; [done|]. by intros [? _].
    + rewrite <- excel_rows_spec.
      destruct (excel_rows (s :: l)) as [d|e].
      * split; [by intros [= ->]|]. by intros [_ [= ->]].
      * split; [done|]. by intros [_ ?].
  - intros s a row. unfold excel_row.
    assert (N : ∀ k, k ∈ ["f12"; "f14"; "f2"; "f3"; "f6"; "f8"; "f10"; "f20"; "f9"] →
                     k ∉ annotation_keys).
    { intros k Hk Ha. unfold annotation_keys in Ha.
      repeat (apply elem_of_cons in Ha as [->|Ha];
              [repeat (apply elem_of_cons in Hk as [?|Hk]; [done|]);
               by apply elem_of_nil in Hk|]).
      by apply elem_of_nil in Ha. }
    rewrite !dict_get_annotate by (apply N; solve [repeat constructor]).
    destruct (annotate_fields s a) as (H1 & H2 & H3).
    assert (E1 : dict_get (annotate s a) "continuous_limit_up" (VInt 1)
                 = VInt (an_days a)) by (unfold dict_get; by rewrite H3).
    assert (E2 : dict_get (annotate s a) "score" (VInt 0) = num_val (an_score a))
      by (unfold dict_get; by rewrite H1).
    assert (E3 : dict_get (annotate s a) "reason" (VStr "") = VStr (an_reason a))
      by (unfold dict_get; by rewrite H2).
    rewrite E1, E2, E3.
    intros (amount & Ha & H)%bind_ok. apply bind_ok in H as (cap & Hc & [= <-]).
    rewrite dict_get_annotate in Ha, Hc by (apply N; solve [repeat constructor]).
    by exists amount, cap.
Qed.

(** ** Thresholds that cannot be read *)

(** X15: a [max_price] that is an int too large for a float passes the
    validation, being a positive number, but [filter_stocks] cannot convert
    it; the [except] then sets all five parameters to their defaults, so the
    filter works as with the default configuration, whatever the
    configuration says about prefixes and exclusions. *)
Theorem unreadable_max_price_resets_the_filter (c : config) (z : Z) :
  cfg_filter c !! "max_price" = Some (VInt z) →
  0 < z → is_ok (float_of_Z z) = false →
  cfg_filter (_validate_config c) !! "max_price" = Some (VInt z)
  ∧ ∀ l, filter_stocks (_validate_config c) l = filter_stocks default_config l.
Proof.
  intros Hc Hz Hf.
  assert (R : cfg_filter (_validate_config c) !! "max_price" = Some (VInt z)).
  { apply (try_steps_invariant (λ c', cfg_filter c' !! "max_price" = Some (VInt z)));
      [|exact Hc].
    unfold validate_steps, score_keys. cbn [app map].
    repeat (apply List.Forall_cons || apply List.Forall_nil);
      intros a b H Q;
      first
        [ unfold on_filter in H; apply bind_ok in H as (g & Hg & [= <-]);
          cbn [cfg_filter]; by rewrite (check_key_other _ _ _ _ _ _ Hg)
        | unfold on_output in H; by apply bind_ok in H as (g & Hg & [= <-])
        | by pose proof (check_score_key_id _ _ _ H) as ->
        | idtac ].
    apply on_filter_fix in H as [_ ->]. cbn [cfg_filter].
    rewrite (fix_key_some _ _ _ _ _ Q). cbn [is_number negb orb num_le0 as_num].
    by replace (z <=? 0) with false by lia. }
  split; [exact R|]. intros l. destruct l as [|s l]; [done|]. cbn [filter_stocks].
  f_equal. unfold effective_params at 1, read_filter_params.
  assert (E : dict_get (cfg_filter (_validate_config c)) "max_price" (VInt 40)
              = VInt z) by (unfold dict_get; by rewrite R).
  rewrite E. cbn [py_float]. by destruct (float_of_Z z).
Qed.

Lemma unreadable_max_price_resets_the_filter_witness :
  let c := with_filter_value "exclude_st" (VBool false)
             (with_filter_value "max_price" (VInt (10 ^ 400)) default_config) in
  filter_stocks (_validate_config c) [scenario_candidate; st_candidate]
  = [scenario_candidate]
  ∧ filter_stocks (with_filter_value "exclude_st" (VBool false) default_config)
      [scenario_candidate; st_candidate]
    = [scenario_candidate; st_candidate].
Proof.
  intros c. split; [|reflexivity].
  rewrite (proj2 (unreadable_max_price_resets_the_filter c (10 ^ 400)
                    eq_refl eq_refl ltac:(by vm_compute))).
  reflexivity.
Defined.

(** ** The output settings of a loaded configuration *)

Lemma apply_output_rules_valid (g : gmap string pyval) key invalid dflt :
  dom g = dom (cfg_output default_config) →
  (key, invalid, dflt) ∈ output_rules →
  ∃ v, apply_rules output_rules g !! key = Some v ∧ invalid v = false.
Proof.
  intros Hd Hin. unfold apply_rules, output_rules in *. cbn [foldl fst snd].
  repeat (apply elem_of_cons in Hin as [[= -> -> ->]|Hin]);
    [..|by apply elem_of_nil in Hin];
    rewrite ?fix_key_lookup_ne by done; rewrite fix_key_lookup;
    rewrite ?fix_key_lookup_ne by done.
  - destruct (has_default_key g _ "top_count" Hd ltac:(by eexists)) as [v ->].
    cbn. eexists. split; [done|].
    by destruct (negb (is_int v) || num_le0 v) eqn:E.
  - destruct (has_default_key g _ "output_dir" Hd ltac:(by eexists)) as [v ->].
    cbn. eexists. split; [done|].
    by destruct (negb (is_str v) || negb (py_bool v)) eqn:E.
  - destruct (has_default_key g _ "auto_open_excel" Hd ltac:(by eexists)) as [v ->].
    cbn. eexists. split; [done|].
    by destruct (negb (is_pybool v)) eqn:E.
Qed.

Lemma load_config_output source :
  cfg_output (load_config source) = cfg_output default_config
  ∨ ∃ g, dom g = dom (cfg_output default_config)
         ∧ cfg_output (load_config source) = apply_rules output_rules g.
Proof.
  destruct source as [| | |loaded]; try by left.
  unfold load_config. rewrite try_steps_cons.
  destruct (on_filter _ default_config) as [c1|] eqn:E1; [|by left].
  pose proof (on_filter_keys _ _ _ (merge_from_dom loaded "filter") E1
                ltac:(done)) as K1.
  unfold on_filter in E1. apply bind_ok in E1 as (g1 & _ & [= <-]).
  rewrite try_steps_cons.
  destruct (on_score _ _) as [c2|] eqn:E2; [|by left].
  pose proof (on_score_keys _ _ _ (merge_from_dom loaded "score") E2 K1) as K2.
  unfold on_score in E2. apply bind_ok in E2 as (g2 & _ & [= <-]).
  rewrite try_steps_cons.
  destruct (on_output _ _) as [c3|] eqn:E3; [|by left].
  pose proof (on_output_keys _ _ _ (merge_from_dom loaded "output") E3 K2) as K3.
  right. cbn [try_steps]. rewrite validate_with_keys by done.
  exists (cfg_output c3). split; [apply K3|done].
Qed.

(** X16: the output settings that [load_config] returns are valid for
    every configuration file: [top_count] is a positive int, [output_dir]
    a text that is not empty and [auto_open_excel] a boolean, while the
    filter settings can come back unchecked.  So the slice of [run] keeps
    the first [n] records of the ranking for an [n] of at least one. *)
Theorem load_config_output_settings_are_valid (source : config_source) :
  (∀ key invalid dflt, (key, invalid, dflt) ∈ output_rules →
     ∃ v, cfg_output (load_config source) !! key = Some v ∧ invalid v = false)
  ∧ ∃ n, 0 < n ∧ ∀ A (recommended : list A),
      (top_count ← dict_item (cfg_output (load_config source)) "top_count";
       py_slice_to recommended top_count)
      = Ok (take (Z.to_nat n) recommended).
Proof.
  assert (R : ∀ key invalid dflt, (key, invalid, dflt) ∈ output_rules →
     ∃ v, cfg_output (load_config source) !! key = Some v ∧ invalid v = false).
  { intros key invalid dflt Hin.
    destruct (load_config_output source) as [->|(g & Hg & ->)].
    - repeat (apply elem_of_cons in Hin as [[= -> -> ->]|Hin]);
        [..|by apply elem_of_nil in Hin]; by eexists.
    - by apply (apply_output_rules_valid g key invalid dflt). }
  split; [exact R|].
  destruct (R "top_count" _ _ ltac:(by left)) as (v & Hv & Hi).
  apply orb_false_iff in Hi as [Hint%negb_false_iff Hpos].
  unfold dict_item. rewrite Hv. cbn [mbind result_bind].
  destruct v as [|b|z| | | |]; try done.
  - destruct b; [|done]. exists 1. split; [done|]. intros A rec.
    cbn [py_slice_to]. by rewrite slice_to_take.
  - exists z. cbn in Hpos. apply Z.leb_gt in Hpos. split; [done|].
    intros A rec. cbn [py_slice_to]. by rewrite slice_to_take by lia.
Qed.
